(** * comfyui-mcp-server: a shallow embedding of the tool layer

    The development follows the layout of the repository:

    - [Py]       the fragment of Python's data model the tools rely on
                 (JSON-like values, [str] methods, exceptions as results);
    - [Job]      [tools/job.py]: [get_job];
    - [Server]   [server.py]: [wait_for_comfyui];
    - [AssetRegistry], [ComfyClient], [WorkflowManager]
                 the managers and the backend client, modelled from the
                 specification;
    - [Helpers]  [tools/helpers.py]: [register_and_build_response];
    - [Generation] [tools/generation.py]: the workflow tools;
    - [Regenerate] [tools/generation.py]: [regenerate] over a heap of
                 mutable objects;
    - [JobTools] [tools/job.py]: [get_queue_status], [list_assets],
                 [get_asset_metadata];
    - [Startup]  [server.py]: [check_comfyui_available] and the check
                 made when the module is loaded.

    Each module of definitions is followed, further down, by a module of
    facts about it ([JobFacts], [ServerFacts], ...); [QueueFacts],
    [StartupFacts], [ResponseFacts], [BindingFacts], [UpdateFacts] and
    [CopyFacts] close the file.

    Strings are Stdlib strings whose characters are read as ASCII code
    points; Python's Unicode-specific behaviour (case mapping or digit
    classes outside ASCII) lies outside the model. *)

From Stdlib Require Import ZArith List String Ascii Bool Lia.
From Stdlib Require Import Floats.SpecFloat.
From stdpp Require Import base option list strings gmap.

Local Open Scope string_scope.
#[local] Set Warnings "-register-all,-clear-no-such-hyp".
Local Open Scope Z_scope.

(* ===================================================================== *)
(** * Python values and exceptions                                        *)
(* ===================================================================== *)

Module Py.

(** Exceptions: the class that matters to an [except] clause and the
    text that [str(exc)] yields. *)
Inductive exn_class :=
| ValueError | TypeError | AttributeError | KeyError | OverflowError
| RecursionError | RuntimeError
| SubmissionError | ExecutionError | MissingParameterError.

Record exn := Exn { exn_cls : exn_class; exn_msg : string }.

Inductive result (A : Type) :=
| Ok (a : A)
| Raise (e : exn).
Arguments Ok {A} a.
Arguments Raise {A} e.

Definition bind {A B} (r : result A) (k : A -> result B) : result B :=
  match r with
  | Ok a => k a
  | Raise e => Raise e
  end.

Notation "x <- r ;; k" := (bind r (fun x => k))
  (at level 100, r at next level, right associativity).

(** Python floats are IEEE-754 binary64. *)
Definition prec : Z := 53.
Definition emax : Z := 1024.

(** JSON-shaped Python values.  A [dict] keeps its insertion order, so it
    is an association list; a key is looked up at its first binding. *)
Inductive value :=
| VNone
| VBool (b : bool)
| VInt (z : Z)
| VFloat (f : spec_float)
| VStr (s : string)
| VList (l : list value)
| VDict (d : list (string * value)).

Definition type_name (v : value) : string :=
  match v with
  | VNone => "NoneType"
  | VBool _ => "bool"
  | VInt _ => "int"
  | VFloat _ => "float"
  | VStr _ => "str"
  | VList _ => "list"
  | VDict _ => "dict"
  end.

(** ** [str] methods *)

Definition is_space (c : ascii) : bool :=
  let n := nat_of_ascii c in
  ((9 <=? n) && (n <=? 13) || (28 <=? n) && (n <=? 32))%nat.

Definition is_ascii_digit (c : ascii) : bool :=
  let n := nat_of_ascii c in ((48 <=? n) && (n <=? 57))%nat.

Fixpoint string_forallb (p : ascii -> bool) (s : string) : bool :=
  match s with
  | EmptyString => true
  | String c r => p c && string_forallb p r
  end.

Fixpoint lstrip (s : string) : string :=
  match s with
  | String c r => if is_space c then lstrip r else s
  | EmptyString => EmptyString
  end.

Fixpoint rev_string (s : string) (acc : string) : string :=
  match s with
  | EmptyString => acc
  | String c r => rev_string r (String c acc)
  end.

(** [s.strip()] *)
Definition strip (s : string) : string :=
  rev_string (lstrip (rev_string (lstrip s) EmptyString)) EmptyString.

(** [s.isdigit()]: non-empty and made of digits only. *)
Definition isdigit (s : string) : bool :=
  match s with
  | EmptyString => false
  | _ => string_forallb is_ascii_digit s
  end.

Definition lower_char (c : ascii) : ascii :=
  let n := nat_of_ascii c in
  if ((65 <=? n) && (n <=? 90))%nat then ascii_of_nat (n + 32) else c.

Definition upper_char (c : ascii) : ascii :=
  let n := nat_of_ascii c in
  if ((97 <=? n) && (n <=? 122))%nat then ascii_of_nat (n - 32) else c.

Fixpoint string_map (f : ascii -> ascii) (s : string) : string :=
  match s with
  | EmptyString => EmptyString
  | String c r => String (f c) (string_map f r)
  end.

Definition lower : string -> string := string_map lower_char.
Definition upper : string -> string := string_map upper_char.

(** [sub in s] on two strings. *)
Fixpoint contains (sub s : string) : bool :=
  String.prefix sub s ||
  match s with
  | EmptyString => false
  | String _ r => contains sub r
  end.

(** ** Truth value, equality *)

Definition sf_is_zero (f : spec_float) : bool :=
  match f with S754_zero _ => true | _ => false end.

(** [bool(v)] *)
Definition truthy (v : value) : bool :=
  match v with
  | VNone => false
  | VBool b => b
  | VInt z => negb (z =? 0)
  | VFloat f => negb (sf_is_zero f)
  | VStr s => negb (String.eqb s "")
  | VList l => match l with [] => false | _ => true end
  | VDict d => match d with [] => false | _ => true end
  end.

(** An integer against a float, compared exactly as CPython does. *)
Definition int_eq_float (z : Z) (f : spec_float) : bool :=
  match f with
  | S754_zero _ => z =? 0
  | S754_finite s m e =>
      let sm := if s then Z.neg m else Z.pos m in
      if 0 <=? e then z =? sm * 2 ^ e else z * 2 ^ (- e) =? sm
  | _ => false
  end.

Definition int_of_bool (b : bool) : Z := if b then 1 else 0.

Fixpoint assoc {A} (k : string) (d : list (string * A)) : option A :=
  match d with
  | [] => None
  | (k', v) :: r => if String.eqb k k' then Some v else assoc k r
  end.

Definition keys {A} (d : list (string * A)) : list string := map fst d.

(** [d[k] = v] on an ordered dict. *)
Fixpoint dict_set {A} (k : string) (v : A) (d : list (string * A))
  : list (string * A) :=
  match d with
  | [] => [(k, v)]
  | (k', v') :: r =>
      if String.eqb k k' then (k, v) :: r else (k', v') :: dict_set k v r
  end.

(** [old.update(new)] *)
Definition dict_update {A} (old new : list (string * A)) : list (string * A) :=
  fold_left (fun acc kv => dict_set (fst kv) (snd kv) acc) new old.

(** [a == b] *)
Fixpoint py_eq (a b : value) {struct a} : bool :=
  match a, b with
  | VNone, VNone => true
  | VStr s, VStr t => String.eqb s t
  | VBool x, VBool y => Bool.eqb x y
  | VBool x, VInt y => int_of_bool x =? y
  | VInt x, VBool y => x =? int_of_bool y
  | VInt x, VInt y => x =? y
  | VBool x, VFloat g => int_eq_float (int_of_bool x) g
  | VInt x, VFloat g => int_eq_float x g
  | VFloat f, VBool y => int_eq_float (int_of_bool y) f
  | VFloat f, VInt y => int_eq_float y f
  | VFloat f, VFloat g => SFeqb f g
  | VList l1, VList l2 =>
      (fix go (l1 l2 : list value) : bool :=
         match l1, l2 with
         | [], [] => true
         | x :: xs, y :: ys => py_eq x y && go xs ys
         | _, _ => false
         end) l1 l2
  | VDict d1, VDict d2 =>
      (length d1 =? length d2)%nat &&
      (fix go (d : list (string * value)) : bool :=
         match d with
         | [] => true
         | (k, v) :: r =>
             match assoc k d2 with
             | Some w => py_eq v w && go r
             | None => false
             end
         end) d1
  | _, _ => false
  end.

(** ** Containers *)

Definition not_iterable (v : value) : exn :=
  Exn TypeError ("'" ++ type_name v ++ "' object is not iterable").

(** The items a [for] loop visits. *)
Definition iter (v : value) : result (list value) :=
  match v with
  | VList l => Ok l
  | VDict d => Ok (map VStr (keys d))
  | VStr s => Ok (map (fun c => VStr (String c EmptyString)) (list_ascii_of_string s))
  | _ => Raise (not_iterable v)
  end.

(** [k in c] for a string [k]. *)
Definition contains_key (k : string) (c : value) : result bool :=
  match c with
  | VDict d => Ok (match assoc k d with Some _ => true | None => false end)
  | VList l => Ok (existsb (fun x => py_eq x (VStr k)) l)
  | VStr s => Ok (contains k s)
  | _ => Raise (Exn TypeError
                  ("argument of type '" ++ type_name c ++ "' is not iterable"))
  end.

(** [c[k]] for a string [k]. *)
Definition getitem (c : value) (k : string) : result value :=
  match c with
  | VDict d =>
      match assoc k d with
      | Some v => Ok v
      | None => Raise (Exn KeyError k)
      end
  | VList _ =>
      Raise (Exn TypeError "list indices must be integers or slices, not str")
  | VStr _ =>
      Raise (Exn TypeError "string indices must be integers, not 'str'")
  | _ => Raise (Exn TypeError
                  ("'" ++ type_name c ++ "' object is not subscriptable"))
  end.

(** [c.get(k, default)] *)
Definition get (c : value) (k : string) (default : value) : result value :=
  match c with
  | VDict d => Ok (match assoc k d with Some v => v | None => default end)
  | _ => Raise (Exn AttributeError
                  ("'" ++ type_name c ++ "' object has no attribute 'get'"))
  end.

(** [l.index(x)] where [x] is the object found at position [i] of [l]:
    the first position holding an equal value, the object itself
    counting as equal to itself. *)
Fixpoint index_upto (l : list value) (x : value) (i : nat) : nat :=
  match i, l with
  | S i', y :: r => if py_eq y x then O else S (index_upto r x i')
  | _, _ => O
  end.

(** ** [int(...)] and [float(...)] *)

(** Decimal value of a string of digits. *)
Fixpoint digits_value (s : string) (acc : Z) : Z :=
  match s with
  | EmptyString => acc
  | String c r => digits_value r (acc * 10 + (Z.of_nat (nat_of_ascii c) - 48))
  end.

(** [int(s)] on a string: surrounding whitespace is dropped, then an
    optional sign and decimal digits are read.  Underscores between digits
    and the interpreter's limit on the number of digits are left out: the
    one caller hands over digits only. *)
Definition int_of_string (s : string) : result Z :=
  let invalid :=
    Raise (Exn ValueError ("invalid literal for int() with base 10: '" ++ s ++ "'")) in
  match strip s with
  | String "-" r => if isdigit r then Ok (- digits_value r 0) else invalid
  | String "+" r => if isdigit r then Ok (digits_value r 0) else invalid
  | t => if isdigit t then Ok (digits_value t 0) else invalid
  end.

(** [int(f)] on a float truncates toward zero. *)
Definition int_of_float (f : spec_float) : result Z :=
  match f with
  | S754_zero _ => Ok 0
  | S754_finite s m e =>
      let magnitude := if 0 <=? e then Z.pos m * 2 ^ e else Z.pos m / 2 ^ (- e) in
      Ok (if s then - magnitude else magnitude)
  | S754_infinity _ =>
      Raise (Exn OverflowError "cannot convert float infinity to integer")
  | S754_nan => Raise (Exn ValueError "cannot convert float NaN to integer")
  end.

(** [float(z)] on an int rounds to the nearest double and refuses an
    int beyond the range of doubles. *)
Definition float_of_int (z : Z) : result spec_float :=
  match binary_normalize prec emax z 0 false with
  | S754_infinity _ => Raise (Exn OverflowError "int too large to convert to float")
  | f => Ok f
  end.

Definition py_int (v : value) : result Z :=
  match v with
  | VStr s => int_of_string s
  | VInt z => Ok z
  | VBool b => Ok (int_of_bool b)
  | VFloat f => int_of_float f
  | _ => Raise (Exn TypeError
                  ("int() argument must be a string, a bytes-like object or a real number, not '"
                   ++ type_name v ++ "'"))
  end.

Section Float.

(** [float(s)] on a string: [None] stands for [ValueError]. *)
Variable float_of_string : string -> option spec_float.

Definition py_float (v : value) : result spec_float :=
  match v with
  | VStr s =>
      match float_of_string s with
      | Some f => Ok f
      | None => Raise (Exn ValueError ("could not convert string to float: '" ++ s ++ "'"))
      end
  | VInt z => float_of_int z
  | VBool b => float_of_int (int_of_bool b)
  | VFloat f => Ok f
  | _ => Raise (Exn TypeError
                  ("float() argument must be a string or a real number, not '"
                   ++ type_name v ++ "'"))
  end.

End Float.

(** ** Computations that log what they ask of their collaborators *)

Definition traced (E A : Type) : Type := list E * result A.

Definition tret {E A} (a : A) : traced E A := ([], Ok a).

Definition tbind {E A B} (m : traced E A) (k : A -> traced E B) : traced E B :=
  match m with
  | (t, Ok a) => let (t', r) := k a in ((t ++ t')%list, r)
  | (t, Raise e) => (t, Raise e)
  end.

(** A collaborator is called: the call is logged, its answer returned. *)
Definition call {E A} (e : E) (answer : result A) : traced E A := ([e], answer).

(** [try: body except Exception as e: handler e] *)
Definition try_except {E A} (body : traced E A) (handler : exn -> traced E A)
  : traced E A :=
  match body with
  | (t, Ok a) => (t, Ok a)
  | (t, Raise e) => let (t', r) := handler e in ((t ++ t')%list, r)
  end.

Notation "x <~ m ;; k" := (tbind m (fun x => k))
  (at level 100, m at next level, right associativity).

End Py.

(* ===================================================================== *)
(** * tools/job.py                                                        *)
(* ===================================================================== *)

Module Job.
Import Py.

(** The two requests [get_job] can send to the backend. *)
Inductive request :=
| GetQueue
| GetHistory (prompt_id : string).

(** What the backend client answers: [get_queue()] and
    [get_history(prompt_id)] either return parsed JSON or raise. *)
Record client := Client {
  get_queue : result value;
  get_history : string -> result value
}.

(** [not prompt_id or not prompt_id.strip()] *)
Definition blank (prompt_id : string) : bool :=
  String.eqb prompt_id "" || String.eqb (strip prompt_id) "".

(** [isinstance(item, list) and len(item) > 1] and [item[1] == prompt_id] *)
Definition is_entry_for (prompt_id : string) (item : value) : bool :=
  match item with
  | VList (_ :: second :: _) => py_eq second (VStr prompt_id)
  | _ => false
  end.

(** The first item of a queue list that the loop returns at, with its
    position. *)
Fixpoint find_entry (prompt_id : string) (items : list value) (i : nat)
  : option (nat * value) :=
  match items with
  | [] => None
  | item :: rest =>
      if is_entry_for prompt_id item then Some (i, item)
      else find_entry prompt_id rest (S i)
  end.

(** [item[0] if len(item) > 0 else None] *)
Definition first_or_none (item : value) : value :=
  match item with
  | VList (x :: _) => x
  | _ => VNone
  end.

Definition invalid_response (prompt_id : string) : value :=
  VDict [("status", VStr "error");
         ("error", VStr "Invalid prompt_id: empty or None");
         ("prompt_id", VStr prompt_id)].

Definition running_response (prompt_id : string) (item : value) : value :=
  VDict [("status", VStr "running");
         ("prompt_id", VStr prompt_id);
         ("message", VStr "Job is currently running");
         ("execution_id", first_or_none item)].

Definition queued_response (prompt_id : string) (position : value) : value :=
  VDict [("status", VStr "queued");
         ("prompt_id", VStr prompt_id);
         ("message", VStr "Job is queued and waiting to run");
         ("position", position)].

Definition completed_response (prompt_id : string) (outputs prompt_data : value)
  : value :=
  VDict [("status", VStr "completed");
         ("prompt_id", VStr prompt_id);
         ("outputs", outputs);
         ("history", prompt_data);
         ("message", VStr "Job completed successfully")].

Definition processing_response (prompt_id : string) (prompt_data : value)
  : value :=
  VDict [("status", VStr "processing");
         ("prompt_id", VStr prompt_id);
         ("message", VStr "Job completed but outputs not yet available");
         ("history", prompt_data)].

Definition not_found_listing (prompt_id : string) (ids : list string) : value :=
  VDict [("status", VStr "not_found");
         ("prompt_id", VStr prompt_id);
         ("message", VStr "Prompt ID not found in ComfyUI history. It may not have been submitted yet, or ComfyUI may have been restarted.");
         ("available_prompt_ids", VList (map VStr ids))].

Definition not_found_empty (prompt_id : string) : value :=
  VDict [("status", VStr "not_found");
         ("prompt_id", VStr prompt_id);
         ("message", VStr "Prompt ID not found. ComfyUI history is empty or the job hasn't been recorded.")].

Definition history_failure (prompt_id : string) (history_error : exn) : value :=
  VDict [("status", VStr "error");
         ("prompt_id", VStr prompt_id);
         ("error", VStr ("Failed to retrieve history: " ++ exn_msg history_error));
         ("message", VStr "Could not check job status - ComfyUI may be unavailable")].

Definition unexpected_failure (prompt_id : string) (e : exn) : value :=
  VDict [("status", VStr "error");
         ("prompt_id", VStr prompt_id);
         ("error", VStr (exn_msg e));
         ("message", VStr ("Unexpected error checking job status: " ++ exn_msg e))].

(** The [status] entry of a response. *)
Definition status_of (response : value) : option value :=
  match response with
  | VDict d => assoc "status" d
  | _ => None
  end.

Section GetJob.

(** [str(v)] as an f-string renders it. *)
Variable py_str : value -> string.

Variable comfyui_client : client.

Definition error_response (prompt_id : string) (error_info prompt_data : value)
  : value :=
  VDict [("status", VStr "error");
         ("prompt_id", VStr prompt_id);
         ("error", error_info);
         ("history", prompt_data);
         ("message", VStr ("Job failed with error: " ++ py_str error_info))].

(** The first inner [try] block: [Ok (Some r)] when one of the two loops
    returns [r], [Ok None] when both loops end, [Raise] when the block
    leaves through its [except]. *)
Definition check_queue (prompt_id : string) : result (option value) :=
  queue_data <- get_queue comfyui_client ;;
  queue_running <- get queue_data "queue_running" (VList []) ;;
  queue_pending <- get queue_data "queue_pending" (VList []) ;;
  running_items <- iter queue_running ;;
  match find_entry prompt_id running_items 0 with
  | Some (_, item) => Ok (Some (running_response prompt_id item))
  | None =>
      pending_items <- iter queue_pending ;;
      match find_entry prompt_id pending_items 0 with
      | Some (i, item) =>
          let position := VInt (Z.of_nat (index_upto pending_items item i) + 1) in
          Ok (Some (queued_response prompt_id position))
      | None => Ok None
      end
  end.

(** The second inner [try] block. *)
Definition check_history (prompt_id : string) : result value :=
  history <- get_history comfyui_client prompt_id ;;
  present <- contains_key prompt_id history ;;
  if (present : bool) then
    prompt_data <- getitem history prompt_id ;;
    has_error <- contains_key "error" prompt_data ;;
    if (has_error : bool) then
      error_info <- getitem prompt_data "error" ;;
      Ok (error_response prompt_id error_info prompt_data)
    else
      has_outputs <- contains_key "outputs" prompt_data ;;
      outputs_set <- (if (has_outputs : bool)
                      then o <- getitem prompt_data "outputs" ;; Ok (truthy o)
                      else Ok false) ;;
      if (outputs_set : bool) then
        outputs <- getitem prompt_data "outputs" ;;
        Ok (completed_response prompt_id outputs prompt_data)
      else
        Ok (processing_response prompt_id prompt_data)
  else
    match history with
    | VDict ((_ :: _) as d) =>
        Ok (not_found_listing prompt_id (firstn 10 (keys d)))
    | _ => Ok (not_found_empty prompt_id)
    end.

(** The body of the outer [try]: the calls made and what the body
    returns. *)
Definition get_job_body (prompt_id : string) : list request * result value :=
  match check_queue prompt_id with
  | Ok (Some response) => ([GetQueue], Ok response)
  | _ =>
      ([GetQueue; GetHistory prompt_id],
       match check_history prompt_id with
       | Ok response => Ok response
       | Raise history_error => Ok (history_failure prompt_id history_error)
       end)
  end.

Definition get_job (prompt_id : string) : list request * value :=
  if blank prompt_id then ([], invalid_response prompt_id)
  else
    let (calls, r) := get_job_body prompt_id in
    (calls, match r with
            | Ok response => response
            | Raise e => unexpected_failure prompt_id e
            end).

End GetJob.

(** ** Reading a queue snapshot *)

(** The list a well-formed snapshot holds under [key]; a missing key
    reads as the empty list, as [.get(key, [])] does. *)
Definition queue_list (c : client) (key : string) : option (list value) :=
  match get_queue c with
  | Ok (VDict d) =>
      match assoc key d with
      | Some (VList l) => Some l
      | Some _ => None
      | None => Some []
      end
  | _ => None
  end.

Definition listed (c : client) (key prompt_id : string) : Prop :=
  exists l, queue_list c key = Some l /\
            existsb (is_entry_for prompt_id) l = true.

Definition listed_running c prompt_id := listed c "queue_running" prompt_id.
Definition listed_pending c prompt_id := listed c "queue_pending" prompt_id.

End Job.

(* ===================================================================== *)
(** * server.py                                                           *)
(* ===================================================================== *)

Module Server.
Import Py.

Definition COMFYUI_MAX_RETRIES : Z := 5.
Definition COMFYUI_INITIAL_DELAY : Z := 2.
Definition COMFYUI_MAX_DELAY : Z := 16.

(** What [wait_for_comfyui] does to the outside world: a call of
    [check_comfyui_available] during a numbered attempt, and a
    [time.sleep].  Printing and logging are left out. *)
Inductive event :=
| Probe (attempt : Z)
| Sleep (delay : Z).

(** [time.sleep(d)] refuses a negative length. *)
Definition sleep_error : exn :=
  Exn ValueError "sleep length must be non-negative".

Section WaitForComfyUI.

(** The answer of [check_comfyui_available(base_url)] at each attempt;
    the function catches its own request errors, so it answers a bool. *)
Variable check_comfyui_available : Z -> bool.

Variables max_retries max_delay : Z.

(** The [for attempt in range(1, max_retries + 1)] loop, from [attempt]
    on with [remaining] iterations to go.  Delays are integers, as the
    defaults are; doubling and [min] are exact on floats as well. *)
Fixpoint attempts (remaining : nat) (attempt delay : Z)
  : list event * result bool :=
  match remaining with
  | O => ([], Ok false)
  | S remaining' =>
      if check_comfyui_available attempt then ([Probe attempt], Ok true)
      else if attempt <? max_retries then
        if delay <? 0 then ([Probe attempt], Raise sleep_error)
        else
          let (events, r) :=
            attempts remaining' (attempt + 1) (Z.min (delay * 2) max_delay) in
          (Probe attempt :: Sleep delay :: events, r)
      else
        let (events, r) := attempts remaining' (attempt + 1) delay in
        (Probe attempt :: events, r)
  end.

Definition wait_for_comfyui (initial_delay : Z) : list event * result bool :=
  attempts (Z.to_nat max_retries) 1 initial_delay.

End WaitForComfyUI.

End Server.

(* ===================================================================== *)
(** * managers/asset_registry.py                                          *)
(* ===================================================================== *)

Module AssetRegistry.
Import Py.

(** Modelled from the spec: the asset record of section 3, whose class
    ([managers/asset_registry.py]) is not among the sources, with the
    fields the tools read. *)
Record AssetRecord := {
  asset_id : string;
  filename : value;
  subfolder : value;
  folder_type : value;
  workflow_id : value;
  prompt_id : value;
  mime_type : value;
  width : value;
  height : value;
  bytes_size : value;
  comfy_history : value;
  submitted_workflow : value;
  metadata : list (string * value);
  session_id : value;
  created_at : Z;
  expires_at : Z
}.

(** Modelled from the spec: the registry of section 4.5: its records by
    asset id, the configured time to live and the base address of the
    backend. *)
Record registry := {
  assets : gmap string AssetRecord;
  ttl : Z;
  comfyui_base_url : string
}.

(** What a caller hands to [register_asset]. *)
Record descriptor := {
  d_filename : value;
  d_subfolder : value;
  d_folder_type : value;
  d_workflow_id : value;
  d_prompt_id : value;
  d_mime_type : value;
  d_width : value;
  d_height : value;
  d_bytes_size : value;
  d_comfy_history : value;
  d_submitted_workflow : value;
  d_metadata : list (string * value);
  d_session_id : value
}.

(** A field is refreshed when the new registration knows it. *)
Definition refresh (old new : value) : value :=
  match new with
  | VNone => old
  | _ => new
  end.

(** A record is expired once the clock has passed its expiry instant. *)
Definition expired (now : Z) (r : AssetRecord) : bool := expires_at r <? now.

Section Registry.

(** Modelled from the spec: the function that derives the asset
    identifier from [(filename, subfolder, folder_type)].  The spec fixes
    only that it is a function of the triple. *)
Variable derive_id : value -> value -> value -> string.

Definition new_record (now : Z) (reg : registry) (d : descriptor) : AssetRecord :=
  {| asset_id := derive_id (d_filename d) (d_subfolder d) (d_folder_type d);
     filename := d_filename d;
     subfolder := d_subfolder d;
     folder_type := d_folder_type d;
     workflow_id := d_workflow_id d;
     prompt_id := d_prompt_id d;
     mime_type := d_mime_type d;
     width := d_width d;
     height := d_height d;
     bytes_size := d_bytes_size d;
     comfy_history := d_comfy_history d;
     submitted_workflow := d_submitted_workflow d;
     metadata := d_metadata d;
     session_id := d_session_id d;
     created_at := now;
     expires_at := now + ttl reg |}.

Definition merged_record (existing : AssetRecord) (d : descriptor) : AssetRecord :=
  {| asset_id := asset_id existing;
     filename := filename existing;
     subfolder := subfolder existing;
     folder_type := folder_type existing;
     workflow_id := workflow_id existing;
     prompt_id := prompt_id existing;
     mime_type := refresh (mime_type existing) (d_mime_type d);
     width := refresh (width existing) (d_width d);
     height := refresh (height existing) (d_height d);
     bytes_size := refresh (bytes_size existing) (d_bytes_size d);
     comfy_history := comfy_history existing;
     submitted_workflow := submitted_workflow existing;
     metadata := dict_update (metadata existing) (d_metadata d);
     session_id := session_id existing;
     created_at := created_at existing;
     expires_at := expires_at existing |}.

Definition with_assets (reg : registry) (m : gmap string AssetRecord) : registry :=
  {| assets := m; ttl := ttl reg; comfyui_base_url := comfyui_base_url reg |}.

(** Modelled from the spec: [register_asset], the registry's
    [register(descriptor)] of section 4.5.  The identifier is derived
    from the triple; an unexpired record under that identifier is updated
    (metadata merged, newly known mime type, dimensions and size
    refreshed) and returned; otherwise a new record is stored with expiry
    [now + ttl]. *)
Definition register_asset (now : Z) (reg : registry) (d : descriptor)
  : registry * AssetRecord :=
  let id := derive_id (d_filename d) (d_subfolder d) (d_folder_type d) in
  match assets reg !! id with
  | Some existing =>
      if expired now existing then
        let r := new_record now reg d in
        (with_assets reg (<[id := r]> (assets reg)), r)
      else
        let r := merged_record existing d in
        (with_assets reg (<[id := r]> (assets reg)), r)
  | None =>
      let r := new_record now reg d in
      (with_assets reg (<[id := r]> (assets reg)), r)
  end.

(** Modelled from the spec: [get_asset], the registry's [get(assetId)]:
    unknown and expired identifiers are both not found. *)
Definition get_asset (now : Z) (reg : registry) (id : string)
  : option AssetRecord :=
  match assets reg !! id with
  | Some r => if expired now r then None else Some r
  | None => None
  end.

(** The registry's total record count. *)
Definition record_count (reg : registry) : nat := size (assets reg).

End Registry.

End AssetRegistry.

(* ===================================================================== *)
(** * managers/workflow_manager.py and models/workflow.py                 *)
(* ===================================================================== *)

Module WorkflowManager.
Import Py.

(** The declared scalar type of a parameter. *)
Inductive annotation := AStr | AInt | AFloat | ABool.

(** Modelled from the spec: the parameter and tool definition records of
    [models/workflow.py] (section 3: name, declared scalar type, required
    flag, default value), together with the placeholder token the
    parameter was parsed from. *)
Record WorkflowParameter := {
  name : string;
  annotation_of : annotation;
  required : bool;
  default : value;
  placeholder : string
}.

Record WorkflowToolDefinition := {
  workflow_id : string;
  tool_name : string;
  description : string;
  template : value;
  parameters : list (string * WorkflowParameter);
  output_preferences : list string
}.

(** ** Overrides *)

Record OverrideReport := {
  applied : list (string * value);
  dropped : list (string * string)
}.

(** The placeholder token searched for an override key. *)
Definition placeholder_token (key : string) : string := "PARAM_" ++ upper key.

Definition drop_reason (key : string) : string :=
  "no placeholder " ++ placeholder_token key ++ " found in workflow".

(** The [inputs] of a node. *)
Definition node_inputs (node : value) : list (string * value) :=
  match node with
  | VDict n => match assoc "inputs" n with Some (VDict ins) => ins | _ => [] end
  | _ => []
  end.

Section Overrides.

(** Whether an input value is the placeholder of an override key. *)
Variable is_placeholder : string -> value -> bool.

Definition found_in (key : string) (graph : value) : bool :=
  match graph with
  | VDict nodes =>
      existsb (fun kn => existsb (fun kv => is_placeholder key (snd kv))
                           (node_inputs (snd kn))) nodes
  | _ => false
  end.

Definition substitute_inputs (key : string) (v : value)
  (ins : list (string * value)) : list (string * value) :=
  map (fun kv => (fst kv, if is_placeholder key (snd kv) then v else snd kv)) ins.

Definition substitute_node (key : string) (v : value) (node : value) : value :=
  match node with
  | VDict n =>
      VDict (map (fun kx =>
                    (fst kx,
                     if String.eqb (fst kx) "inputs" then
                       match snd kx with
                       | VDict ins => VDict (substitute_inputs key v ins)
                       | other => other
                       end
                     else snd kx)) n)
  | other => other
  end.

Definition substitute (key : string) (v : value) (graph : value) : value :=
  match graph with
  | VDict nodes => VDict (map (fun kn => (fst kn, substitute_node key v (snd kn))) nodes)
  | other => other
  end.

(** One override: substituted everywhere it matches and recorded as
    applied, or recorded as dropped with the token that was searched. *)
Definition apply_one (state : value * OverrideReport) (kv : string * value)
  : value * OverrideReport :=
  let (graph, report) := state in
  let (key, v) := kv in
  if found_in key graph then
    (substitute key v graph,
     {| applied := dict_set key v (applied report); dropped := dropped report |})
  else
    (graph,
     {| applied := applied report;
        dropped := dict_set key (drop_reason key) (dropped report) |}).

Definition apply_overrides_with (graph : value) (template_id : string)
  (overrides : list (string * value)) : value * OverrideReport :=
  fold_left apply_one overrides (graph, {| applied := []; dropped := [] |}).

End Overrides.

(** An exact string match with the key's token. *)
Definition exact_placeholder (key : string) (v : value) : bool :=
  py_eq v (VStr (placeholder_token key)).

(** Modelled from the spec: [apply_workflow_overrides], the
    [applyOverrides(graph, templateId, overrides)] of section 4.2, whose
    file is not among the sources.  For each override key the token is
    [PARAM_] followed by the uppercased key; every node input is searched
    for an exact string match.  (The repository's tests also expect
    [PARAM_INT_SEED] to count for the key [seed]; the facts about the
    report hold for any rule [is_placeholder].) *)
Definition apply_workflow_overrides (graph : value) (template_id : string)
  (overrides : list (string * value)) : value * OverrideReport :=
  apply_overrides_with exact_placeholder graph template_id overrides.

(** ** Rendering *)

Section Render.

(** [float(s)] on a string: [None] stands for [ValueError]. *)
Variable float_of_string : string -> option spec_float.

(** Modelled from the spec: coercion at rendering (section 4.2). Native
    numeric input is accepted as it is, numeric-looking strings are
    converted, anything else passes through unchanged. *)
Definition coerce_value (a : annotation) (v : value) : value :=
  match a, v with
  | AInt, VStr s =>
      if isdigit (strip s) then VInt (digits_value (strip s) 0) else v
  | AFloat, VStr s =>
      match float_of_string s with
      | Some f => VFloat f
      | None => v
      end
  | _, _ => v
  end.

Definition missing_parameter (p : WorkflowParameter) : exn :=
  Exn MissingParameterError ("Missing required parameter '" ++ name p ++ "'").

(** The value a parameter takes: the supplied argument, else the
    default; a required parameter without argument is an error. *)
Definition argument_for (p : WorkflowParameter) (arguments : list (string * value))
  : result value :=
  match assoc (name p) arguments with
  | Some VNone | None =>
      if required p then Raise (missing_parameter p) else Ok (default p)
  | Some v => Ok v
  end.

Definition is_token (token : string) (key : string) (v : value) : bool :=
  py_eq v (VStr token).

(** Modelled from the spec: [render_workflow], the
    [render(definition, arguments)] of section 4.2: on a copy of the
    template, every node input equal to a declared parameter's placeholder
    token is replaced by the coerced argument. *)
Fixpoint render_parameters (ps : list (string * WorkflowParameter))
  (arguments : list (string * value)) (graph : value) : result value :=
  match ps with
  | [] => Ok graph
  | (_, p) :: rest =>
      v <- argument_for p arguments ;;
      render_parameters rest arguments
        (substitute (is_token (placeholder p)) (name p)
           (coerce_value (annotation_of p) v) graph)
  end.

Definition render_workflow (definition : WorkflowToolDefinition)
  (arguments : list (string * value)) : result value :=
  render_parameters (parameters definition) arguments (template definition).

End Render.

End WorkflowManager.

(* ===================================================================== *)
(** * comfyui_client.py                                                   *)
(* ===================================================================== *)

Module ComfyClient.
Import Py.

(** A terminal message of the backend about a job. *)
Inductive terminal :=
| Success (result : value)
| Failure (diagnostics : string).

Inductive event :=
| Fetch (prompt_id : string) (attempt : nat)
| Sleep (interval : Z).

Section Client.

(** What the history of a job shows at each fetch: a terminal message or
    nothing terminal yet. *)
Variable backend : string -> nat -> option terminal.

(** Modelled from the spec: [poll(jobId, maxAttempts, interval)] of
    section 4.3, the client's [_wait_for_prompt], whose file is not among
    the sources.  It fetches the history entry up to [maxAttempts] times,
    sleeping [interval] between attempts, returns a terminal result as
    soon as one shows and null once the attempts are used up. *)
Fixpoint poll_from (prompt_id : string) (interval : Z) (remaining attempt : nat)
  : list event * option terminal :=
  match remaining with
  | O => ([], None)
  | S remaining' =>
      match backend prompt_id attempt with
      | Some t => ([Fetch prompt_id attempt], Some t)
      | None =>
          match remaining' with
          | O => ([Fetch prompt_id attempt], None)
          | S _ =>
              let (events, r) := poll_from prompt_id interval remaining' (S attempt) in
              (Fetch prompt_id attempt :: Sleep interval :: events, r)
          end
      end
  end.

Definition poll (prompt_id : string) (max_attempts : nat) (interval : Z)
  : list event * option terminal :=
  poll_from prompt_id interval max_attempts 1.

(** Modelled from the spec: the pending job handle a caller builds on a
    null poll (section 4.3), with the fields the tests of
    [run_custom_workflow] read. *)
Definition pending_handle (prompt_id : string) : value :=
  VDict [("status", VStr "running");
         ("prompt_id", VStr prompt_id);
         ("message", VStr "Workflow is still running. Use get_job to check its status.")].

(** Modelled from the spec: [run_custom_workflow], the caller-facing
    path of section 2: submit, poll, and on a null poll answer with a
    pending handle rather than a failure. *)
Definition run_custom_workflow (submit : result string)
  (max_attempts : nat) (interval : Z) : list event * result value :=
  match submit with
  | Raise e => ([], Raise e)
  | Ok prompt_id =>
      let (events, r) := poll prompt_id max_attempts interval in
      (events,
       match r with
       | None => Ok (pending_handle prompt_id)
       | Some (Success result) => Ok result
       | Some (Failure diagnostics) => Raise (Exn ExecutionError diagnostics)
       end)
  end.

End Client.

End ComfyClient.

(* ===================================================================== *)
(** * tools/helpers.py                                                    *)
(* ===================================================================== *)

Module Helpers.
Import Py AssetRegistry.

Definition supported_types : list value :=
  [VStr "image/png"; VStr "image/jpeg"; VStr "image/jpg"; VStr "image/webp";
   VStr "image/gif"].

(** [if tool_name:] *)
Definition tool_name_set (tool_name : option string) : option string :=
  match tool_name with
  | Some n => if String.eqb n "" then None else Some n
  | None => None
  end.

Definition option_entry (k : string) (v : option string)
  : list (string * value) :=
  match tool_name_set v with
  | Some n => [(k, VStr n)]
  | None => []
  end.

Section RegisterAndBuildResponse.

Variable derive_id : value -> value -> value -> string.

(** The attribute [asset_record.asset_url] and the method
    [asset_record.get_asset_url(base_url)] of a record, whose class is
    not among the sources. *)
Variable asset_url_of : AssetRecord -> value.
Variable get_asset_url : AssetRecord -> string -> value.

(** [fetch_asset_bytes] followed by [encode_preview_for_mcp] (module
    [asset_processor]): from the preview address and the asset id to the
    mime type and the base64 text, or an exception. *)
Variable encode_preview : value -> string -> result (string * string).

(** The clock at the moment of registration. *)
Variable now : Z.

(** The inline preview entries, [try] and [except] included. *)
Definition inline_preview (reg : registry) (asset_record : AssetRecord)
  (asset_url : value) : list (string * value) :=
  if existsb (py_eq (mime_type asset_record)) supported_types then
    let preview_url :=
      if truthy asset_url then asset_url
      else get_asset_url asset_record (comfyui_base_url reg) in
    match encode_preview preview_url (asset_id asset_record) with
    | Ok (encoded_mime_type, b64) =>
        [("inline_preview_base64",
          VStr ("data:" ++ encoded_mime_type ++ ";base64," ++ b64));
         ("inline_preview_mime_type", VStr encoded_mime_type)]
    | Raise _ => []
    end
  else [].

Definition register_and_build_response (result : value) (workflow_id : string)
  (asset_registry : registry) (tool_name : option string)
  (return_inline_preview : bool) (session_id : value)
  : registry * Py.result value :=
  match get result "status" VNone with
  | Raise e => (asset_registry, Raise e)
  | Ok status =>
      if py_eq status (VStr "running") then (asset_registry, Ok result)
      else
        match
          (asset_metadata <- get result "asset_metadata" (VDict []) ;;
           let metadata :=
             ("workflow_id", VStr workflow_id) :: option_entry "tool" tool_name in
           f <- get result "filename" (VStr "") ;;
           s <- get result "subfolder" (VStr "") ;;
           t <- get result "folder_type" (VStr "output") ;;
           p <- get result "prompt_id" (VStr "") ;;
           m <- get asset_metadata "mime_type" VNone ;;
           w <- get asset_metadata "width" VNone ;;
           h <- get asset_metadata "height" VNone ;;
           b <- get asset_metadata "bytes_size" VNone ;;
           ch <- get result "comfy_history" VNone ;;
           sw <- get result "submitted_workflow" VNone ;;
           Ok {| d_filename := f; d_subfolder := s; d_folder_type := t;
                 d_workflow_id := VStr workflow_id; d_prompt_id := p;
                 d_mime_type := m; d_width := w; d_height := h;
                 d_bytes_size := b; d_comfy_history := ch;
                 d_submitted_workflow := sw; d_metadata := metadata;
                 d_session_id := session_id |})
        with
        | Raise e => (asset_registry, Raise e)
        | Ok d =>
            let (asset_registry', asset_record) :=
              register_asset derive_id now asset_registry d in
            (asset_registry',
             asset_url <-
               (if truthy (asset_url_of asset_record)
                then Ok (asset_url_of asset_record)
                else get result "asset_url" (VStr "")) ;;
             prompt <- get result "prompt_id" VNone ;;
             let response_data :=
               ([("asset_id", VStr (asset_id asset_record));
                ("asset_url", asset_url);
                ("image_url", asset_url);
                ("filename", filename asset_record);
                ("subfolder", subfolder asset_record);
                ("folder_type", folder_type asset_record);
                ("workflow_id", VStr workflow_id);
                ("prompt_id", prompt);
                ("mime_type", mime_type asset_record);
                ("width", width asset_record);
                ("height", height asset_record);
                ("bytes_size", bytes_size asset_record)]
               ++ option_entry "tool" tool_name
               ++ (if return_inline_preview
                   then inline_preview asset_registry' asset_record asset_url
                   else []))%list in
             has_image <- contains_key "image_base64" result ;;
             if (has_image : bool) then
               image <- getitem result "image_base64" ;;
               image_mime <- get result "image_mime_type" (VStr "image/png") ;;
               Ok (VDict (response_data ++
                          [("image_base64", image);
                           ("image_mime_type", image_mime)])%list)
             else Ok (VDict response_data))
        end
  end.

End RegisterAndBuildResponse.

End Helpers.

(* ===================================================================== *)
(** * tools/generation.py: workflow tools                                 *)
(* ===================================================================== *)

Module Generation.
Import Py.
Import WorkflowManager(annotation, AStr, AInt, AFloat, ABool,
                       WorkflowParameter, WorkflowToolDefinition).

(** What a workflow tool asks of the defaults manager, the workflow
    manager, the backend client and the registry helper. *)
Inductive event :=
| EvGetDefault (namespace : string) (provided_model : value)
| EvIsModelValid (namespace : string) (model : value)
| EvValidateDefaultModel (namespace : string)
| EvRefreshModels
| EvRefreshModelSet
| EvRenderWorkflow (arguments : list (string * value))
| EvRunCustomWorkflow (workflow : value)
| EvRegisterAndBuildResponse (result : value).

(** The calls that make up model-availability validation. *)
Definition model_validation (e : event) : bool :=
  match e with
  | EvGetDefault _ _ | EvIsModelValid _ _ | EvValidateDefaultModel _
  | EvRefreshModels | EvRefreshModelSet => true
  | _ => false
  end.

(** The collaborators of a workflow tool, none of which is among the
    sources.  The defaults manager may answer differently once its model
    set has been refreshed: its answers take the flag [refreshed]. *)
Record collaborators := {
  determine_namespace : string -> result string;
  AUDIO_OUTPUT_KEYS : list string;
  VIDEO_OUTPUT_KEYS : list string;
  get_default : bool -> string -> string -> value -> result value;
  is_model_valid : bool -> string -> value -> result bool;
  validate_default_model : bool -> string -> result (value * value * value);
  available_models_set : bool -> list string;
  refresh_models : result unit;
  refresh_model_set : result unit;
  render_workflow :
    WorkflowToolDefinition -> list (string * value) -> result value;
  run_custom_workflow : value -> list string -> result value;
  derive_id : value -> value -> value -> string;
  asset_url_of : AssetRegistry.AssetRecord -> value;
  get_asset_url : AssetRegistry.AssetRecord -> string -> value;
  encode_preview : value -> string -> result (string * string);
  now : Z
}.

(** [kwargs.pop(key, default)] *)
Definition pop (key : string) (default : value) (kwargs : list (string * value))
  : value * list (string * value) :=
  match assoc key kwargs with
  | Some v => (v, filter (fun kv => negb (String.eqb (fst kv) key)) kwargs)
  | None => (default, kwargs)
  end.

(** [{p.name: p for p in definition.parameters.values()}] *)
Definition param_dict (definition : WorkflowToolDefinition)
  : list (string * WorkflowParameter) :=
  fold_left (fun acc kp => dict_set (WorkflowManager.name (snd kp)) (snd kp) acc)
    (WorkflowManager.parameters definition) [].

(** [isinstance(value, (int, float))]; a [bool] is an [int]. *)
Definition is_number (v : value) : bool :=
  match v with
  | VInt _ | VBool _ | VFloat _ => true
  | _ => false
  end.

Section Tool.

Variable py_str : value -> string.
Variable float_of_string : string -> option spec_float.
Variable c : collaborators.
Variable definition : WorkflowToolDefinition.

(** The conversion attempted inside the [try] of the coercion loop. *)
Definition convert (a : annotation) (v : value) : result value :=
  match a with
  | AInt =>
      match v with
      | VStr s =>
          if isdigit (strip s) then z <- py_int v ;; Ok (VInt z) else Ok v
      | _ => if is_number v then z <- py_int v ;; Ok (VInt z) else Ok v
      end
  | AFloat =>
      match v with
      | VStr _ => f <- py_float float_of_string v ;; Ok (VFloat f)
      | _ => if is_number v then f <- py_float float_of_string v ;; Ok (VFloat f)
             else Ok v
      end
  | _ => Ok v
  end.

(** One round of the coercion loop for a declared parameter:
    [except (ValueError, TypeError)] keeps the original value, any other
    exception leaves the loop. *)
Definition coerce (param : WorkflowParameter) (v : value) : result value :=
  match v with
  | VNone => Ok VNone
  | _ =>
      match convert (WorkflowManager.annotation_of param) v with
      | Raise (Exn ValueError _) | Raise (Exn TypeError _) => Ok v
      | r => r
      end
  end.

Fixpoint coerce_kwargs (kwargs coerced_kwargs : list (string * value))
  : result (list (string * value)) :=
  match kwargs with
  | [] => Ok coerced_kwargs
  | (key, v) :: rest =>
      v' <- match assoc key (param_dict definition) with
            | Some param => coerce param v
            | None => Ok v
            end ;;
      coerce_kwargs rest (dict_set key v' coerced_kwargs)
  end.

(** The signature given to the tool: required parameters first, then
    the optional ones, then [return_inline_preview]; each with its
    default, [None] marking a parameter that has none. *)
Definition signature : list (string * option value) :=
  let ps := map snd (WorkflowManager.parameters definition) in
  (map (fun p => (WorkflowManager.name p, None))
     (filter WorkflowManager.required ps)
   ++ map (fun p => (WorkflowManager.name p, Some VNone))
        (filter (fun p => negb (WorkflowManager.required p)) ps)
   ++ [("return_inline_preview", Some (VBool false))])%list.

Definition bind_error (msg : string) : exn := Exn TypeError msg.

(** Positional arguments take the leading parameters. *)
Fixpoint bind_positional (sig : list (string * option value)) (args : list value)
  (kwargs : list (string * value))
  : result (list (string * value) * list (string * option value)) :=
  match args, sig with
  | [], _ => Ok ([], sig)
  | _ :: _, [] => Raise (bind_error "too many positional arguments")
  | a :: args', (n, _) :: sig' =>
      match assoc n kwargs with
      | Some _ => Raise (bind_error ("multiple values for argument '" ++ n ++ "'"))
      | None =>
          r <- bind_positional sig' args' kwargs ;;
          Ok ((n, a) :: fst r, snd r)
      end
  end.

(** The remaining parameters take their keyword argument or, after
    [apply_defaults], their default. *)
Fixpoint bind_keywords (sig : list (string * option value))
  (kwargs : list (string * value)) : result (list (string * value)) :=
  match sig with
  | [] => Ok []
  | (n, d) :: sig' =>
      v <- match assoc n kwargs, d with
           | Some v, _ => Ok v
           | None, Some default => Ok default
           | None, None =>
               Raise (bind_error ("missing a required argument: '" ++ n ++ "'"))
           end ;;
      r <- bind_keywords sig' kwargs ;;
      Ok ((n, v) :: r)
  end.

(** [_tool_impl.__signature__.bind] on the positional and the coerced
    keyword arguments, followed by [apply_defaults()]: the arguments by
    parameter name. *)
Definition bind_arguments (args : list value) (kwargs : list (string * value))
  : result (list (string * value)) :=
  r <- bind_positional signature args kwargs ;;
  rest <- bind_keywords (snd r) kwargs ;;
  match find (fun kv => match assoc (fst kv) signature with
                        | Some _ => false | None => true end) kwargs with
  | Some (k, _) =>
      Raise (bind_error ("got an unexpected keyword argument '" ++ k ++ "'"))
  | None => Ok (fst r ++ rest)%list
  end.

(** The error answer about a default model that the backend lacks. *)
Definition model_error (refreshed : bool) (namespace : string)
  : traced event value :=
  triple <~ call (EvValidateDefaultModel namespace)
                 (validate_default_model c refreshed namespace) ;;
  let '(is_valid, model_name, source) := triple in
  let sample_models := firstn 5 (available_models_set c refreshed) in
  let error_msg :=
    "Default model '" ++ py_str model_name ++ "' (from " ++ py_str source
    ++ " defaults) not found in ComfyUI checkpoints. "
    ++ "Set a valid model via `set_defaults`, config file, or env var. "
    ++ "Try `list_models` to see available checkpoints."
    ++ match sample_models with
       | [] => ""
       | _ => " Available models: " ++ py_str (VList (map VStr sample_models))
       end in
  tret (VDict [("error", VStr error_msg)]).

(** Resolve the model and validate it: [Some] error answer when the
    resolved model is not available, [None] to carry on. *)
Definition check_model (refreshed : bool) (namespace : string)
  (arguments : list (string * value)) : traced event (option value) :=
  let provided_model :=
    match assoc "model" arguments with Some v => v | None => VNone end in
  resolved_model <~ call (EvGetDefault namespace provided_model)
                         (get_default c refreshed namespace "model" provided_model) ;;
  if truthy resolved_model then
    valid <~ call (EvIsModelValid namespace resolved_model)
                  (is_model_valid c refreshed namespace resolved_model) ;;
    if (valid : bool) then tret None
    else (r <~ model_error refreshed namespace ;; tret (Some r))
  else tret None.

(** ["model" in definition.parameters] *)
Definition has_model_param : bool :=
  match assoc "model" (WorkflowManager.parameters definition) with
  | Some _ => true
  | None => false
  end.

(** The [try] block up to the result of [run_custom_workflow]: [inl] an
    answer returned before submission, [inr] the result to register. *)
Definition submit (namespace : string) (arguments : list (string * value))
  : traced event (value + value) :=
  early <~ (if has_model_param then check_model false namespace arguments
            else tret None) ;;
  match early with
  | Some response => tret (inl response)
  | None =>
      workflow <~ call (EvRenderWorkflow arguments)
                       (render_workflow c definition arguments) ;;
      result <~ call (EvRunCustomWorkflow workflow)
                     (run_custom_workflow c workflow
                        (WorkflowManager.output_preferences definition)) ;;
      tret (inr result)
  end.

(** The [except Exception as exc] block. *)
Definition recover (namespace : string) (arguments : list (string * value))
  (exc : exn) : traced event value :=
  let error_str := lower (exn_msg exc) in
  let plain := VDict [("error", VStr (exn_msg exc))] in
  if has_model_param &&
     (contains "model" error_str || contains "checkpoint" error_str
      || contains "ckpt" error_str)
  then
    _ <~ call EvRefreshModels (refresh_models c) ;;
    _ <~ call EvRefreshModelSet (refresh_model_set c) ;;
    early <~ check_model true namespace arguments ;;
    match early with
    | Some response => tret response
    | None => tret plain
    end
  else tret plain.

(** The namespace: the workflow manager's, refined by the output
    preferences. *)
Definition namespace_of : result string :=
  namespace <- determine_namespace c (WorkflowManager.workflow_id definition) ;;
  if decide (WorkflowManager.output_preferences definition = AUDIO_OUTPUT_KEYS c)
  then Ok "audio"
  else if decide (WorkflowManager.output_preferences definition
                  = VIDEO_OUTPUT_KEYS c)
  then Ok "video"
  else Ok namespace.

Definition _tool_impl (args : list value) (kwargs : list (string * value))
  (asset_registry : AssetRegistry.registry)
  : AssetRegistry.registry * traced event value :=
  let (return_inline_preview, kwargs') :=
    pop "return_inline_preview" (VBool false) kwargs in
  let session_id := VNone in
  match (coerced_kwargs <- coerce_kwargs kwargs' [] ;;
         arguments <- bind_arguments args coerced_kwargs ;;
         namespace <- namespace_of ;;
         Ok (arguments, namespace)) with
  | Raise e => (asset_registry, ([], Raise e))
  | Ok (arguments, namespace) =>
      match submit namespace arguments with
      | (t, Ok (inl response)) => (asset_registry, (t, Ok response))
      | (t, Ok (inr result)) =>
          let (asset_registry', r) :=
            Helpers.register_and_build_response (derive_id c) (asset_url_of c)
              (get_asset_url c) (encode_preview c) (now c)
              result (WorkflowManager.workflow_id definition) asset_registry
              (Some (WorkflowManager.tool_name definition))
              (truthy return_inline_preview) session_id in
          (asset_registry',
           try_except (t ++ [EvRegisterAndBuildResponse result], r)%list
             (recover namespace arguments))
      | (t, Raise exc) =>
          (asset_registry, try_except (t, Raise exc) (recover namespace arguments))
      end
  end.

End Tool.

End Generation.

(* ===================================================================== *)
(** * tools/generation.py: regenerate                                     *)
(* ===================================================================== *)

(** [regenerate] copies a stored graph and then updates the copy in
    place, so here dicts and lists are objects in a heap and values refer
    to them: two references to one object see each other's updates. *)

Module Regenerate.
Import Py.

Abbreviation loc := nat.

(** A scalar, or a reference to a dict or list object. *)
Inductive hval :=
| HNone
| HBool (b : bool)
| HInt (z : Z)
| HFloat (f : spec_float)
| HStr (s : string)
| HRef (l : loc).

Inductive obj :=
| ODict (items : list (string * hval))
| OList (items : list hval).

(** Objects by address; a new object takes the next address. *)
Abbreviation heap := (list obj).

Definition alloc (h : heap) (o : obj) : heap * loc := ((h ++ [o])%list, length h).

(** [d[k] = v] on the dict at [l]. *)
Definition dict_store (h : heap) (l : loc) (k : string) (v : hval) : heap :=
  match h !! l with
  | Some (ODict items) => <[l := ODict (dict_set k v items)]> h
  | _ => h
  end.

(** [y.append(v)] on the list at [l]. *)
Definition list_append (h : heap) (l : loc) (v : hval) : heap :=
  match h !! l with
  | Some (OList items) => <[l := OList (items ++ [v])%list]> h
  | _ => h
  end.

(** ** [copy.deepcopy] *)

(** The memo of a deep copy: the copy already made of an object. *)
Abbreviation memo := (gmap nat nat).

Definition recursion_error : exn :=
  Exn RecursionError "maximum recursion depth exceeded".

Definition dangling : exn := Exn RuntimeError "no object at this address".

Section CopyItems.

Variable rec : memo -> heap -> hval -> result (hval * memo * heap).

(** [for key, value in x.items(): y[key] = deepcopy(value, memo)] *)
Fixpoint copy_dict_items (y : loc) (items : list (string * hval))
  (m : memo) (h : heap) : result (memo * heap) :=
  match items with
  | [] => Ok (m, h)
  | (k, x) :: rest =>
      r <- rec m h x ;;
      let '(x', m', h') := r in
      copy_dict_items y rest m' (dict_store h' y k x')
  end.

(** [for a in x: y.append(deepcopy(a, memo))] *)
Fixpoint copy_list_items (y : loc) (items : list hval)
  (m : memo) (h : heap) : result (memo * heap) :=
  match items with
  | [] => Ok (m, h)
  | x :: rest =>
      r <- rec m h x ;;
      let '(x', m', h') := r in
      copy_list_items y rest m' (list_append h' y x')
  end.

End CopyItems.

(** [copy.deepcopy(v, memo)]: scalars are returned as they are; an
    object already copied is answered from the memo; otherwise an empty
    copy is allocated and entered in the memo before its items are copied.
    [depth] is the recursion depth left. *)
Fixpoint deepcopy (depth : nat) (m : memo) (h : heap) (v : hval)
  : result (hval * memo * heap) :=
  match v with
  | HRef l =>
      match m !! l with
      | Some y => Ok (HRef y, m, h)
      | None =>
          match depth with
          | O => Raise recursion_error
          | S depth' =>
              match h !! l with
              | None => Raise dangling
              | Some (ODict items) =>
                  let (h1, y) := alloc h (ODict []) in
                  r <- copy_dict_items (deepcopy depth') y items (<[l := y]> m) h1 ;;
                  Ok (HRef y, fst r, snd r)
              | Some (OList items) =>
                  let (h1, y) := alloc h (OList []) in
                  r <- copy_list_items (deepcopy depth') y items (<[l := y]> m) h1 ;;
                  Ok (HRef y, fst r, snd r)
              end
          end
      end
  | _ => Ok (v, m, h)
  end.

(** ** Reading objects *)

(** [isinstance(v, dict)]: the items of the dict [v] refers to. *)
Definition as_dict (h : heap) (v : hval) : option (list (string * hval)) :=
  match v with
  | HRef l => match h !! l with Some (ODict items) => Some items | _ => None end
  | _ => None
  end.

Definition hval_is_str (v : hval) (s : string) : bool :=
  match v with
  | HStr t => String.eqb t s
  | _ => false
  end.

Definition htype_name (h : heap) (v : hval) : string :=
  match v with
  | HNone => "NoneType"
  | HBool _ => "bool"
  | HInt _ => "int"
  | HFloat _ => "float"
  | HStr _ => "str"
  | HRef l => match h !! l with Some (OList _) => "list" | _ => "dict" end
  end.

(** [bool(v)] *)
Definition htruthy (h : heap) (v : hval) : bool :=
  match v with
  | HNone => false
  | HBool b => b
  | HInt z => negb (z =? 0)
  | HFloat f => negb (sf_is_zero f)
  | HStr s => negb (String.eqb s "")
  | HRef l =>
      match h !! l with
      | Some (ODict []) | Some (OList []) => false
      | _ => true
      end
  end.

(** [key in c] for a string [key]. *)
Definition hcontains (h : heap) (key : string) (c : hval) : result bool :=
  match c with
  | HRef l =>
      match h !! l with
      | Some (ODict items) =>
          Ok (match assoc key items with Some _ => true | None => false end)
      | Some (OList items) => Ok (existsb (fun x => hval_is_str x key) items)
      | None => Raise dangling
      end
  | HStr s => Ok (contains key s)
  | _ => Raise (Exn TypeError
                  ("argument of type '" ++ htype_name h c ++ "' is not iterable"))
  end.

(** [c[key] = v] for a string [key]. *)
Definition hsetitem (h : heap) (c : hval) (key : string) (v : hval)
  : heap * result unit :=
  match c with
  | HRef l =>
      match h !! l with
      | Some (ODict _) => (dict_store h l key v, Ok tt)
      | Some (OList _) =>
          (h, Raise (Exn TypeError "list indices must be integers or slices, not str"))
      | None => (h, Raise dangling)
      end
  | _ => (h, Raise (Exn TypeError
                      ("'" ++ htype_name h c ++ "' object does not support item assignment")))
  end.

(** [node_data.get("inputs", {})]: the default is a new empty dict. *)
Definition get_inputs (h : heap) (node : list (string * hval)) : heap * hval :=
  match assoc "inputs" node with
  | Some v => (h, v)
  | None => let (h', l) := alloc h (ODict []) in (h', HRef l)
  end.

(** [node_data.get("class_type")] *)
Definition get_class_type (node : list (string * hval)) : hval :=
  match assoc "class_type" node with
  | Some v => v
  | None => HNone
  end.

(** The JSON value an object graph spells, read down to [depth]
    levels: what serialising the graph for the backend sees. *)
Fixpoint snapshot (depth : nat) (h : heap) (v : hval) : option value :=
  match v with
  | HNone => Some VNone
  | HBool b => Some (VBool b)
  | HInt z => Some (VInt z)
  | HFloat f => Some (VFloat f)
  | HStr s => Some (VStr s)
  | HRef l =>
      match depth with
      | O => None
      | S depth' =>
          match h !! l with
          | Some (ODict items) =>
              VDict <$> mapM (fun kx => pair (fst kx) <$> snapshot depth' h (snd kx))
                             items
          | Some (OList items) => VList <$> mapM (snapshot depth' h) items
          | None => None
          end
      end
  end.

(** ** Loops over the nodes of a workflow *)

Definition size_changed : exn :=
  Exn RuntimeError "dictionary changed size during iteration".

Section ForItems.

(** The loop body: from the heap, a key and its value to the new heap,
    or to an exception. *)
Variable body : heap -> string -> hval -> heap * result unit.

(** [for key, value in d.items(): body] on the dict at [d], which had
    [size] items when the loop began.  The view is live: each step reads
    the dict as it then is, and a dict whose size has changed stops the
    loop with a [RuntimeError]. *)
Fixpoint for_items_from (d : loc) (size remaining i : nat) (h : heap)
  : heap * result unit :=
  match h !! d with
  | Some (ODict items) =>
      if negb (length items =? size)%nat then (h, Raise size_changed)
      else
        match remaining with
        | O => (h, Ok tt)
        | S remaining' =>
            match items !! i with
            | None => (h, Ok tt)
            | Some (k, v) =>
                match body h k v with
                | (h', Ok _) => for_items_from d size remaining' (S i) h'
                | (h', Raise e) => (h', Raise e)
                end
            end
        end
  | _ => (h, Raise dangling)
  end.

(** [for key, value in workflow.items(): body] *)
Definition for_items (h : heap) (workflow : hval) : heap * result unit :=
  match workflow with
  | HRef d =>
      match h !! d with
      | Some (ODict items) => for_items_from d (length items) (length items) 0 h
      | _ => (h, Raise (Exn AttributeError
                          ("'" ++ htype_name h workflow ++ "' object has no attribute 'items'")))
      end
  | _ => (h, Raise (Exn AttributeError
                      ("'" ++ htype_name h workflow ++ "' object has no attribute 'items'")))
  end.

End ForItems.

(** ** [_update_workflow_params] *)

(** [param_mappings]: class type (or [None]), input key, and whether the
    parameter is the negative prompt. *)
Definition param_mappings : list (string * (option string * string * bool)) :=
  [("prompt", (Some "CLIPTextEncode", "text", false));
   ("negative_prompt", (Some "CLIPTextEncode", "text", true));
   ("steps", (Some "KSampler", "steps", false));
   ("cfg", (Some "KSampler", "cfg", false));
   ("sampler_name", (Some "KSampler", "sampler_name", false));
   ("scheduler", (Some "KSampler", "scheduler", false));
   ("denoise", (Some "KSampler", "denoise", false));
   ("width", (Some "EmptyLatentImage", "width", false));
   ("height", (Some "EmptyLatentImage", "height", false));
   ("model", (Some "CheckpointLoaderSimple", "ckpt_name", false));
   ("tags", (None, "tags", false));
   ("lyrics", (None, "lyrics", false));
   ("seconds", (None, "seconds", false));
   ("lyrics_strength", (None, "lyrics_strength", false))].

Section Update.

(** [str(node_data)], which prints the node with all it refers to. *)
Variable py_str : heap -> hval -> string.

(** The body of the node loop for one override.  The flag [updated]
    only feeds a log line and is left out. *)
Definition update_node (param_name : string) (target_class : option string)
  (target_input : string) (is_negative : bool) (override_value : hval)
  (h : heap) (node_id : string) (node_data : hval) : heap * result unit :=
  match as_dict h node_data with
  | None => (h, Ok tt)
  | Some node =>
      let skip :=
        match target_class with
        | Some cls => negb (hval_is_str (get_class_type node) cls)
        | None => false
        end in
      if skip then (h, Ok tt)
      else
        let (h1, inputs) := get_inputs h node in
        match hcontains h1 target_input inputs with
        | Raise e => (h1, Raise e)
        | Ok false => (h1, Ok tt)
        | Ok true =>
            let mentions_negative :=
              contains "negative" (lower (py_str h1 node_data))
              || contains "neg" (lower node_id) in
            if String.eqb param_name "negative_prompt" && is_negative then
              if mentions_negative
              then hsetitem h1 inputs target_input override_value
              else (h1, Ok tt)
            else if String.eqb param_name "prompt" && negb is_negative then
              if negb mentions_negative
              then hsetitem h1 inputs target_input override_value
              else (h1, Ok tt)
            else hsetitem h1 inputs target_input override_value
        end
  end.

(** The loop over [param_overrides.items()]; an unknown parameter is
    skipped with a warning. *)
Fixpoint update_params (workflow : hval) (param_overrides : list (string * hval))
  (h : heap) : heap * result unit :=
  match param_overrides with
  | [] => (h, Ok tt)
  | (param_name, override_value) :: rest =>
      match assoc param_name param_mappings with
      | None => update_params workflow rest h
      | Some (target_class, target_input, is_negative) =>
          match for_items (update_node param_name target_class target_input
                             is_negative override_value) h workflow with
          | (h', Ok _) => update_params workflow rest h'
          | (h', Raise e) => (h', Raise e)
          end
      end
  end.

Definition _update_workflow_params (workflow : hval)
  (param_overrides : list (string * hval)) (h : heap) : heap * result hval :=
  match update_params workflow param_overrides h with
  | (h', Ok _) => (h', Ok workflow)
  | (h', Raise e) => (h', Raise e)
  end.

(** ** [_update_seed] *)

(** [random.randint(0, 0xffffffffffffffff)], the draw of this call. *)
Variable random_seed : Z.

Definition seed_node (seed : Z) (h : heap) (node_id : string) (node_data : hval)
  : heap * result unit :=
  match as_dict h node_data with
  | None => (h, Ok tt)
  | Some node =>
      if hval_is_str (get_class_type node) "KSampler" then
        let (h1, inputs) := get_inputs h node in
        hsetitem h1 inputs "seed" (HInt seed)
      else (h, Ok tt)
  end.

Definition _update_seed (workflow : hval) (seed : option Z) (h : heap)
  : heap * result hval :=
  match seed with
  | Some (-1) => (h, Ok workflow)
  | _ =>
      let seed' := match seed with Some s => s | None => random_seed end in
      match for_items (seed_node seed') h workflow with
      | (h', Ok _) => (h', Ok workflow)
      | (h', Raise e) => (h', Raise e)
      end
  end.

(** ** [regenerate] *)

(** The fields of an asset record that [regenerate] reads. *)
Record asset := {
  submitted_workflow : hval;
  workflow_id : option string;
  session_id : value
}.

(** [asset_registry.get_asset(asset_id)] at the time of the call. *)
Variable get_asset : string -> option asset.

(** Steps 6 and 7: [comfyui_client.run_custom_workflow] on the prepared
    workflow, then [register_and_build_response] on its result.  The
    client reads the graph it is handed to build its request, and the
    response is built from the client's result. *)
Variable submit_and_register :
  heap -> hval -> option (list string) -> asset -> bool -> result value.

(** The recursion depth left to [copy.deepcopy]. *)
Variable depth : nat.

Definition not_found (asset_id : string) : value :=
  VDict [("error",
          VStr ("Asset " ++ asset_id
                ++ " not found (registry is in-memory and resets on restart). Generate a new asset to regenerate."))].

Definition no_workflow : value :=
  VDict [("error", VStr "No workflow data stored for this asset. Cannot regenerate.")].

Definition failed (e : exn) : value :=
  VDict [("error", VStr ("Failed to regenerate: " ++ exn_msg e))].

(** Step 5: output preferences guessed from the workflow id. *)
Definition guess_output_preferences (a : asset) : option (list string) :=
  match workflow_id a with
  | None | Some "" => None
  | Some id =>
      let id := lower id in
      if contains "image" id then Some ["images"; "image"; "gifs"; "gif"]
      else if contains "audio" id || contains "song" id
      then Some ["audio"; "audios"; "sound"; "files"]
      else if contains "video" id
      then Some ["videos"; "video"; "mp4"; "mov"; "webm"]
      else None
  end.

(** Steps 2 to 4: the copy of the stored workflow with overrides and
    seed applied. *)
Definition prepare (original_workflow : hval) (seed : option Z)
  (param_overrides : option (list (string * hval))) (h : heap)
  : heap * result hval :=
  match deepcopy depth ∅ h original_workflow with
  | Raise e => (h, Raise e)
  | Ok (workflow, _, h1) =>
      let (h2, r) :=
        match param_overrides with
        | Some ((_ :: _) as overrides) =>
            _update_workflow_params workflow overrides h1
        | _ => (h1, Ok workflow)
        end in
      match r with
      | Raise e => (h2, Raise e)
      | Ok workflow' => _update_seed workflow' seed h2
      end
  end.

Definition regenerate (asset_id : string) (seed : option Z)
  (return_inline_preview : bool)
  (param_overrides : option (list (string * hval))) (h : heap)
  : heap * value :=
  match get_asset asset_id with
  | None => (h, not_found asset_id)
  | Some a =>
      let original_workflow := submitted_workflow a in
      if negb (htruthy h original_workflow) then (h, no_workflow)
      else
        match prepare original_workflow seed param_overrides h with
        | (h', Raise e) => (h', failed e)
        | (h', Ok workflow) =>
            match submit_and_register h' workflow (guess_output_preferences a)
                    a return_inline_preview with
            | Ok response => (h', response)
            | Raise e => (h', failed e)
            end
        end
  end.

End Update.

End Regenerate.
(* ===================================================================== *)
(** * tools/job.py: the queue and asset tools                             *)
(* ===================================================================== *)

Module JobTools.
Import Py Job.

(** [len(v)] *)
Definition py_len (v : value) : result Z :=
  match v with
  | VList l => Ok (Z.of_nat (length l))
  | VDict d => Ok (Z.of_nat (length d))
  | VStr s => Ok (Z.of_nat (String.length s))
  | _ => Raise (Exn TypeError
                  ("object of type '" ++ type_name v ++ "' has no len()"))
  end.

(** [except Exception as e: return {"error": str(e)}] *)
Definition error_only (e : exn) : value := VDict [("error", VStr (exn_msg e))].

Definition get_queue_status (comfyui_client : client) : value :=
  match
    (queue_data <- get_queue comfyui_client ;;
     queue_running <- get queue_data "queue_running" (VList []) ;;
     queue_pending <- get queue_data "queue_pending" (VList []) ;;
     running_count <- py_len queue_running ;;
     pending_count <- py_len queue_pending ;;
     Ok (VDict [("status", VStr "success");
                ("queue_running", queue_running);
                ("queue_pending", queue_pending);
                ("running_count", VInt running_count);
                ("pending_count", VInt pending_count)]))
  with
  | Ok response => response
  | Raise e => error_only e
  end.

(** What the asset tools read of a record of the registry, whose class
    is not among the sources: its attributes, and its method
    [get_asset_url(base_url)].  Instants are seconds on the clock. *)
Record registry_asset := {
  asset_id : value;
  asset_url : value;
  get_asset_url : string -> value;
  filename : value;
  subfolder : value;
  folder_type : value;
  workflow_id : value;
  prompt_id : value;
  mime_type : value;
  width : value;
  height : value;
  bytes_size : value;
  created_at : Z;
  expires_at : option Z;
  session_id : value;
  metadata : value;
  comfy_history : value;
  submitted_workflow : value
}.

Section AssetTools.

(** [asset_registry.comfyui_base_url] *)
Variable comfyui_base_url : string.

(** [asset_registry.list_assets(limit=..., workflow_id=..., session_id=...)]
    and [asset_registry.get_asset(asset_id)], as they answer at the time
    of the call. *)
Variable registry_list_assets :
  value -> value -> value -> result (list registry_asset).
Variable registry_get_asset : string -> result (option registry_asset).

(** [instant.isoformat()] *)
Variable isoformat : Z -> string.

(** [asset.asset_url or asset.get_asset_url(asset_registry.comfyui_base_url)] *)
Definition url_of (a : registry_asset) : value :=
  if truthy (asset_url a) then asset_url a else get_asset_url a comfyui_base_url.

(** [asset.expires_at.isoformat() if asset.expires_at else None] *)
Definition expiry_of (a : registry_asset) : value :=
  match expires_at a with
  | Some t => VStr (isoformat t)
  | None => VNone
  end.

(** One entry of the listing. *)
Definition list_entry (a : registry_asset) : value :=
  VDict [("asset_id", asset_id a);
         ("asset_url", url_of a);
         ("filename", filename a);
         ("subfolder", subfolder a);
         ("folder_type", folder_type a);
         ("workflow_id", workflow_id a);
         ("prompt_id", prompt_id a);
         ("mime_type", mime_type a);
         ("width", width a);
         ("height", height a);
         ("bytes_size", bytes_size a);
         ("created_at", VStr (isoformat (created_at a)));
         ("expires_at", expiry_of a);
         ("session_id", session_id a)].

Definition list_assets (limit workflow_id session_id : value) : value :=
  match registry_list_assets limit workflow_id session_id with
  | Ok assets =>
      let asset_list := map list_entry assets in
      VDict [("assets", VList asset_list);
             ("count", VInt (Z.of_nat (length asset_list)));
             ("workflow_id_filter", workflow_id);
             ("session_id_filter", session_id)]
  | Raise e => error_only e
  end.

Definition asset_not_found (asset_id : string) : value :=
  VDict [("error",
          VStr ("Asset " ++ asset_id
                ++ " not found (registry is in-memory and resets on restart). Generate a new asset to regenerate."))].

Definition get_asset_metadata (asset_id0 : string) : value :=
  match registry_get_asset asset_id0 with
  | Ok None => asset_not_found asset_id0
  | Ok (Some a) =>
      let result :=
        [("asset_id", asset_id a);
         ("asset_url", url_of a);
         ("filename", filename a);
         ("subfolder", subfolder a);
         ("folder_type", folder_type a);
         ("mime_type", mime_type a);
         ("width", width a);
         ("height", height a);
         ("bytes_size", bytes_size a);
         ("workflow_id", workflow_id a);
         ("prompt_id", prompt_id a);
         ("created_at", VStr (isoformat (created_at a)));
         ("expires_at", expiry_of a);
         ("metadata", metadata a)] in
      let result :=
        if truthy (comfy_history a)
        then dict_set "comfy_history" (comfy_history a) result
        else result in
      let result :=
        if truthy (submitted_workflow a)
        then dict_set "submitted_workflow" (submitted_workflow a) result
        else result in
      VDict result
  | Raise e => error_only e
  end.

End AssetTools.

End JobTools.
(* ===================================================================== *)
(** * server.py: the availability probe and the start of the server       *)
(* ===================================================================== *)

Module Startup.
Import Py Server.

(** What [requests.get] hands back: the status code and what
    [response.json()] gives, [None] standing for a body that is not JSON
    (a [ValueError]). *)
Record response := {
  status_code : Z;
  json : option value
}.

(** [check_comfyui_available(base_url)], from the outcome of its request;
    [None] stands for a [requests.RequestException].  The [except] clause
    names [RequestException], [ValueError] and [KeyError]: any other
    exception leaves the function. *)
Definition check_comfyui_available (request : option response) : result bool :=
  match request with
  | None => Ok false
  | Some response =>
      if status_code response =? 200 then
        match json response with
        | None => Ok false
        | Some data =>
            checkpoint_info <- get data "CheckpointLoaderSimple" (VDict []) ;;
            match checkpoint_info with
            | VDict _ => Ok true
            | _ => Ok false
            end
        end
      else Ok false
  end.

(** How the module-level check ends: the server goes on to register its
    tools, or the process leaves through [sys.exit]. *)
Inductive outcome :=
| Started
| Exited (code : Z).

(** [if not check_comfyui_available(COMFYUI_URL):
       if not wait_for_comfyui(COMFYUI_URL): sys.exit(1)]
    with [first] the answer of the first check and [probe] the answers
    during the numbered attempts of the wait. *)
Definition startup (first : bool) (probe : Z -> bool)
  : list event * result outcome :=
  if first then ([], Ok Started)
  else
    match wait_for_comfyui probe COMFYUI_MAX_RETRIES COMFYUI_MAX_DELAY
            COMFYUI_INITIAL_DELAY with
    | (events, Ok true) => (events, Ok Started)
    | (events, Ok false) => (events, Ok (Exited 1))
    | (events, Raise e) => (events, Raise e)
    end.

End Startup.

(* ===================================================================== *)
(** * Facts about tools/job.py                                            *)
(* ===================================================================== *)

Module JobFacts.
Import Py Job.

(** The answer the second [try] block gives on its own. *)
Definition history_only (py_str : value -> string) (c : client)
  (prompt_id : string) : value :=
  match check_history py_str c prompt_id with
  | Ok response => response
  | Raise history_error => history_failure prompt_id history_error
  end.

(** A client whose queue is empty and whose history is that of [c]. *)
Definition with_empty_queue (c : client) : client :=
  Client (Ok (VDict [])) (get_history c).

Lemma find_entry_hit prompt_id l : forall n,
  existsb (is_entry_for prompt_id) l = true ->
  exists i item, find_entry prompt_id l n = Some (i, item) /\
                 In item l /\ is_entry_for prompt_id item = true.
Proof.
  induction l as [|x l IH]; intros n H; simpl in *; [discriminate|].
  destruct (is_entry_for prompt_id x) eqn:E.
  - exists n, x. auto.
  - simpl in H. destruct (IH (S n) H) as (i & item & Hf & Hin & He).
    exists i, item. auto.
Qed.

Lemma find_entry_miss prompt_id l : forall n,
  existsb (is_entry_for prompt_id) l = false ->
  find_entry prompt_id l n = None.
Proof.
  induction l as [|x l IH]; intros n H; simpl in *; [reflexivity|].
  apply orb_false_iff in H as [Hx Hl]. rewrite Hx. auto.
Qed.

Lemma find_entry_strings {A} prompt_id (f : A -> string) (xs : list A) :
  forall n, find_entry prompt_id (map (fun x => VStr (f x)) xs) n = None.
Proof. induction xs as [|x xs IH]; intros n; simpl; auto. Qed.

(** Scanning whatever sits under a key of the snapshot either fails or,
    when the id is not listed there, finds nothing. *)
Lemma scan_unlisted c d key prompt_id items :
  get_queue c = Ok (VDict d) ->
  ~ listed c key prompt_id ->
  iter (match assoc key d with Some v => v | None => VList [] end) = Ok items ->
  find_entry prompt_id items 0 = None.
Proof.
  intros Hq Hn Hi. unfold listed, queue_list in Hn. rewrite Hq in Hn.
  destruct (assoc key d) as [v|] eqn:Ha.
  - destruct v; simpl in Hi; try discriminate; inversion Hi; subst.
    + apply (find_entry_strings prompt_id (fun c => String c EmptyString)).
    + apply find_entry_miss.
      destruct (existsb (is_entry_for prompt_id) items) eqn:E; [|reflexivity].
      exfalso. apply Hn. eauto.
    + unfold keys. rewrite map_map. apply (find_entry_strings prompt_id fst).
  - simpl in Hi. inversion Hi. reflexivity.
Qed.

Lemma check_queue_listed_running c prompt_id :
  listed_running c prompt_id ->
  exists l item,
    queue_list c "queue_running" = Some l /\ In item l /\
    is_entry_for prompt_id item = true /\
    check_queue c prompt_id = Ok (Some (running_response prompt_id item)).
Proof.
  intros (l & Hl & Hex). pose proof Hl as Hlist. unfold queue_list in Hl.
  destruct (get_queue c) as [q|] eqn:Hq; [|discriminate].
  destruct q; try discriminate.
  destruct (assoc "queue_running" d) as [v|] eqn:Ha.
  - destruct v; try discriminate. inversion Hl; subst.
    destruct (find_entry_hit prompt_id l 0 Hex) as (i & item & Hf & Hin & He).
    exists l, item. split; [exact Hlist|]. split; [exact Hin|]. split; [exact He|].
    unfold check_queue. rewrite Hq. simpl. rewrite Ha. simpl. rewrite Hf.
    reflexivity.
  - inversion Hl; subst. discriminate.
Qed.

Lemma check_queue_unlisted c prompt_id :
  ~ listed_running c prompt_id -> ~ listed_pending c prompt_id ->
  forall response, check_queue c prompt_id <> Ok (Some response).
Proof.
  intros Hr Hp response. unfold check_queue.
  destruct (get_queue c) as [q|] eqn:Hq; [|discriminate].
  destruct q; try discriminate. simpl.
  destruct (iter _) as [items|] eqn:Hi at 1; [|discriminate]. simpl.
  rewrite (scan_unlisted c d "queue_running" prompt_id items Hq Hr Hi).
  destruct (iter _) as [pitems|] eqn:Hpi at 1; [|discriminate]. simpl.
  rewrite (scan_unlisted c d "queue_pending" prompt_id pitems Hq Hp Hpi).
  discriminate.
Qed.

(** Once the queue block has found nothing (or failed), the answer is the
    one of the history block. *)
Lemma get_job_falls_through py_str c prompt_id :
  blank prompt_id = false ->
  (forall response, check_queue c prompt_id <> Ok (Some response)) ->
  get_job py_str c prompt_id =
    ([GetQueue; GetHistory prompt_id], history_only py_str c prompt_id).
Proof.
  intros Hb Hn. unfold get_job, get_job_body, history_only. rewrite Hb.
  destruct (check_queue c prompt_id) as [[r|]|e] eqn:Hc.
  - exfalso. exact (Hn r eq_refl).
  - destruct (check_history _ _ _); reflexivity.
  - destruct (check_history _ _ _); reflexivity.
Qed.

Lemma get_job_calls_queue py_str c prompt_id :
  In GetQueue (fst (get_job py_str c prompt_id)) -> blank prompt_id = false.
Proof.
  unfold get_job. destruct (blank prompt_id); simpl; [tauto | reflexivity].
Qed.

(** The outer handler of [get_job] has nothing left to catch. *)
Lemma get_job_body_returns py_str c prompt_id :
  exists response, snd (get_job_body py_str c prompt_id) = Ok response.
Proof.
  unfold get_job_body.
  destruct (check_queue c prompt_id) as [[r|]|e]; simpl; eauto;
    destruct (check_history _ _ _); eauto.
Qed.

Lemma check_history_entry py_str c prompt_id h e :
  get_history c prompt_id = Ok (VDict h) ->
  assoc prompt_id h = Some (VDict e) ->
  check_history py_str c prompt_id =
    match assoc "error" e with
    | Some error_info => Ok (error_response py_str prompt_id error_info (VDict e))
    | None =>
        match assoc "outputs" e with
        | Some outputs =>
            if truthy outputs
            then Ok (completed_response prompt_id outputs (VDict e))
            else Ok (processing_response prompt_id (VDict e))
        | None => Ok (processing_response prompt_id (VDict e))
        end
    end.
Proof.
  intros Hh He. unfold check_history. rewrite Hh. simpl. rewrite He. simpl.
  destruct (assoc "error" e) as [info|] eqn:Herr; simpl; [reflexivity|].
  destruct (assoc "outputs" e) as [o|] eqn:Ho; simpl; [|reflexivity].
  destruct (truthy o); reflexivity.
Qed.

Lemma check_history_no_entry py_str c prompt_id h :
  get_history c prompt_id = Ok (VDict h) ->
  assoc prompt_id h = None ->
  exists response,
    check_history py_str c prompt_id = Ok response /\
    status_of response = Some (VStr "not_found").
Proof.
  intros Hh He. unfold check_history. rewrite Hh. simpl. rewrite He. simpl.
  destruct h; eauto.
Qed.

(** A blank id is turned away before any request. *)
Lemma get_job_blank py_str c prompt_id :
  blank prompt_id = true ->
  get_job py_str c prompt_id = ([], invalid_response prompt_id).
Proof. intros Hb. unfold get_job. rewrite Hb. reflexivity. Qed.

(** C1, as amended.  A blank job id (empty or only whitespace) is
    answered [error] before any request.  For a non-blank job id listed
    in the running list of the queue snapshot, [get_job] answers [running]
    with the execution identifier of a listed entry after the queue
    request alone: no history request is sent, so nothing a history entry
    holds can change the answer.  Whenever the history request is sent,
    the id is not in the running list, and not in the pending list either
    when the snapshot keeps a list under [queue_running]. *)
Theorem get_job_queue_precedence py_str c prompt_id :
  (blank prompt_id = true ->
     get_job py_str c prompt_id = ([], invalid_response prompt_id)) /\
  (blank prompt_id = false ->
     (listed_running c prompt_id ->
        exists l item,
          queue_list c "queue_running" = Some l /\ In item l /\
          is_entry_for prompt_id item = true /\
          get_job py_str c prompt_id = ([GetQueue], running_response prompt_id item) /\
          status_of (snd (get_job py_str c prompt_id)) = Some (VStr "running")) /\
     (In (GetHistory prompt_id) (fst (get_job py_str c prompt_id)) ->
        ~ listed_running c prompt_id /\
        (is_Some (queue_list c "queue_running") -> ~ listed_pending c prompt_id))).
Proof.
  split; [apply get_job_blank|].
  intros Hb. split.
  - intros Hr.
    destruct (check_queue_listed_running c prompt_id Hr) as (l & item & Hl & Hin & He & Hc).
    exists l, item. unfold get_job, get_job_body. rewrite Hb, Hc. auto.
  - intros Hcall. split.
    + intros Hr.
      destruct (check_queue_listed_running c prompt_id Hr) as (l & item & _ & _ & _ & Hc).
      revert Hcall. unfold get_job, get_job_body. rewrite Hb, Hc. simpl.
      intros [H|[]]. discriminate.
    + intros [rl Hrl] (pl & Hpl & Hex). revert Hcall.
      unfold get_job, get_job_body. rewrite Hb.
      assert (Hq : exists r, check_queue c prompt_id = Ok (Some r)).
      { unfold queue_list in Hrl, Hpl. unfold check_queue.
        destruct (get_queue c) as [q|]; [|discriminate].
        destruct q; try discriminate. simpl.
        assert (Hir : iter (match assoc "queue_running" d with
                            | Some v => v | None => VList [] end) = Ok rl).
        { destruct (assoc "queue_running" d) as [v|]; [destruct v|];
            inversion Hrl; reflexivity. }
        assert (Hip : iter (match assoc "queue_pending" d with
                            | Some v => v | None => VList [] end) = Ok pl).
        { destruct (assoc "queue_pending" d) as [v|]; [destruct v|];
            inversion Hpl; reflexivity. }
        rewrite Hir. simpl.
        destruct (find_entry prompt_id rl 0) as [[i item]|]; [eauto|].
        rewrite Hip. simpl.
        destruct (find_entry_hit prompt_id pl 0 Hex) as (i & item & Hf & _).
        rewrite Hf. eauto. }
      destruct Hq as [r Hq]. rewrite Hq. simpl. intros [H|[]]. discriminate.
Qed.

(** C2, as amended.  For a non-blank job id listed in neither queue
    list, with history answering a JSON object, the history entry decides
    the answer: an [error] field gives [error] with that field as
    diagnostics; otherwise an [outputs] field that is not empty gives
    [completed] with those outputs; an entry with neither gives
    [processing]; no entry gives [not_found]. *)
Theorem get_job_history_outcomes py_str c prompt_id h :
  blank prompt_id = false ->
  ~ listed_running c prompt_id ->
  ~ listed_pending c prompt_id ->
  get_history c prompt_id = Ok (VDict h) ->
  let response := snd (get_job py_str c prompt_id) in
  (forall e error_info,
      assoc prompt_id h = Some (VDict e) -> assoc "error" e = Some error_info ->
      response = error_response py_str prompt_id error_info (VDict e) /\
      status_of response = Some (VStr "error")) /\
  (forall e outputs,
      assoc prompt_id h = Some (VDict e) -> assoc "error" e = None ->
      assoc "outputs" e = Some outputs -> truthy outputs = true ->
      response = completed_response prompt_id outputs (VDict e) /\
      status_of response = Some (VStr "completed")) /\
  (forall e,
      assoc prompt_id h = Some (VDict e) -> assoc "error" e = None ->
      (assoc "outputs" e = None \/
       exists outputs, assoc "outputs" e = Some outputs /\ truthy outputs = false) ->
      response = processing_response prompt_id (VDict e) /\
      status_of response = Some (VStr "processing")) /\
  (assoc prompt_id h = None -> status_of response = Some (VStr "not_found")).
Proof.
  intros Hb Hr Hp Hh response.
  assert (Hres : response = history_only py_str c prompt_id).
  { unfold response.
    rewrite (get_job_falls_through py_str c prompt_id Hb
               (check_queue_unlisted c prompt_id Hr Hp)). reflexivity. }
  unfold history_only in Hres.
  repeat split.
  - rewrite Hres, (check_history_entry py_str c prompt_id h e Hh H), H0. reflexivity.
  - rewrite Hres, (check_history_entry py_str c prompt_id h e Hh H), H0. reflexivity.
  - rewrite Hres, (check_history_entry py_str c prompt_id h e Hh H), H0, H1, H2.
    reflexivity.
  - rewrite Hres, (check_history_entry py_str c prompt_id h e Hh H), H0, H1, H2.
    reflexivity.
  - rewrite Hres, (check_history_entry py_str c prompt_id h e Hh H), H0.
    destruct H1 as [Ho|(o & Ho & Ht)]; rewrite Ho; [|rewrite Ht]; reflexivity.
  - rewrite Hres, (check_history_entry py_str c prompt_id h e Hh H), H0.
    destruct H1 as [Ho|(o & Ho & Ht)]; rewrite Ho; [|rewrite Ht]; reflexivity.
  - intros Hnone.
    destruct (check_history_no_entry py_str c prompt_id h Hh Hnone) as (r & Hc & Hs).
    rewrite Hres, Hc. exact Hs.
Qed.

(** C8.  Once [get_job] has sent the queue request: if that request (or
    reading its answer) fails, the answer is the one the history lookup
    gives on its own, the same as with an empty queue; if the history
    request then fails, the answer is an [error] response whose [error]
    text is the failure of the lookup, and nothing is raised. *)
Theorem get_job_fault_tolerant py_str c prompt_id :
  In GetQueue (fst (get_job py_str c prompt_id)) ->
  (forall e, check_queue c prompt_id = Raise e ->
     get_job py_str c prompt_id =
       ([GetQueue; GetHistory prompt_id], history_only py_str c prompt_id) /\
     snd (get_job py_str c prompt_id) =
       snd (get_job py_str (with_empty_queue c) prompt_id)) /\
  (forall e, get_queue c = Raise e -> check_queue c prompt_id = Raise e) /\
  (forall e, In (GetHistory prompt_id) (fst (get_job py_str c prompt_id)) ->
     get_history c prompt_id = Raise e ->
     snd (get_job py_str c prompt_id) = history_failure prompt_id e /\
     status_of (snd (get_job py_str c prompt_id)) = Some (VStr "error") /\
     getitem (snd (get_job py_str c prompt_id)) "error" =
       Ok (VStr ("Failed to retrieve history: " ++ exn_msg e))).
Proof.
  intros Hcall. pose proof (get_job_calls_queue _ _ _ Hcall) as Hb.
  split; [|split].
  - intros e He.
    assert (Hn : forall r, check_queue c prompt_id <> Ok (Some r))
      by (intros r; rewrite He; discriminate).
    rewrite (get_job_falls_through py_str c prompt_id Hb Hn). split; [reflexivity|].
    assert (Hn' : forall r, check_queue (with_empty_queue c) prompt_id <> Ok (Some r))
      by (intros r; discriminate).
    rewrite (get_job_falls_through py_str _ prompt_id Hb Hn'). reflexivity.
  - intros e He. unfold check_queue. rewrite He. reflexivity.
  - intros e Hh He. revert Hh. unfold get_job, get_job_body. rewrite Hb.
    destruct (check_queue c prompt_id) as [[r|]|e'] eqn:Hc; simpl.
    + intros [H|[]]. discriminate.
    + intros _. unfold check_history. rewrite He. simpl. auto.
    + intros _. unfold check_history. rewrite He. simpl. auto.
Qed.

(** ** Concrete runs *)

(** A queue whose running list holds the blank id [" "]. *)
Definition blank_running_client : client :=
  Client (Ok (VDict [("queue_running", VList [VList [VInt 7; VStr " "]]);
                     ("queue_pending", VList [])]))
         (fun _ => Ok (VDict [])).

(** A running job that history already records as completed. *)
Definition rerun_client : client :=
  Client (Ok (VDict [("queue_running", VList [VList [VInt 7; VStr "job-1"]]);
                     ("queue_pending", VList [])]))
         (fun _ => Ok (VDict [("job-1",
             VDict [("outputs", VDict [("9", VDict [("images", VList [])])])])])).

(** An idle backend that knows nothing. *)
Definition idle_client : client :=
  Client (Ok (VDict [("queue_running", VList []); ("queue_pending", VList [])]))
         (fun _ => Ok (VDict [])).

(** A backend that is down: both requests fail. *)
Definition down_client : client :=
  Client (Raise (Exn RuntimeError "connection refused"))
         (fun _ => Raise (Exn RuntimeError "connection refused")).

(** C1 as stated fails on a blank id: it is listed as running, yet the
    guard at the top of [get_job] answers [error] before any request. *)
Lemma get_job_blank_id_listed_running :
  listed_running blank_running_client " " /\
  get_job type_name blank_running_client " " = ([], invalid_response " ") /\
  status_of (snd (get_job type_name blank_running_client " ")) <> Some (VStr "running").
Proof.
  split; [|split].
  - exists [VList [VInt 7; VStr " "]]. split; reflexivity.
  - reflexivity.
  - vm_compute. discriminate.
Qed.

Lemma get_job_queue_precedence_witness :
  blank "job-1" = false /\
  status_of (snd (get_job type_name rerun_client "job-1")) = Some (VStr "running").
Proof.
  split; [reflexivity|].
  destruct (proj2 (get_job_queue_precedence type_name rerun_client "job-1") eq_refl)
    as [Hrun _].
  destruct Hrun as (l & item & _ & _ & _ & _ & Hs).
  - exists [VList [VInt 7; VStr "job-1"]]. split; reflexivity.
  - exact Hs.
Defined.

(** C2 as stated fails on the empty id: it is in neither queue list and
    has no history entry, yet the answer is [error], not [not_found]. *)
Lemma get_job_empty_id_unlisted :
  ~ listed_running idle_client "" /\
  ~ listed_pending idle_client "" /\
  get_history idle_client "" = Ok (VDict []) /\
  status_of (snd (get_job type_name idle_client "")) = Some (VStr "error") /\
  status_of (snd (get_job type_name idle_client "")) <> Some (VStr "not_found").
Proof.
  repeat split.
  - intros (l & Hl & Hex). vm_compute in Hl. inversion Hl; subst. discriminate.
  - intros (l & Hl & Hex). vm_compute in Hl. inversion Hl; subst. discriminate.
  - vm_compute. discriminate.
Qed.

Lemma idle_client_unlisted key prompt_id :
  key = "queue_running" \/ key = "queue_pending" ->
  ~ listed idle_client key prompt_id.
Proof.
  intros [->| ->] (l & Hl & Hex); vm_compute in Hl; inversion Hl; subst;
    discriminate.
Qed.

Lemma get_job_history_outcomes_witness :
  blank "job-9" = false /\
  status_of (snd (get_job type_name idle_client "job-9")) = Some (VStr "not_found").
Proof.
  split; [reflexivity|].
  apply (get_job_history_outcomes type_name idle_client "job-9" [] eq_refl
           (idle_client_unlisted "queue_running" "job-9" (or_introl eq_refl))
           (idle_client_unlisted "queue_pending" "job-9" (or_intror eq_refl))
           eq_refl).
  reflexivity.
Defined.

Lemma get_job_fault_tolerant_witness :
  In GetQueue (fst (get_job type_name down_client "job-1")) /\
  status_of (snd (get_job type_name down_client "job-1")) = Some (VStr "error").
Proof.
  assert (Hq : In GetQueue (fst (get_job type_name down_client "job-1")))
    by (left; reflexivity).
  split; [exact Hq|].
  destruct (get_job_fault_tolerant type_name down_client "job-1" Hq)
    as (_ & _ & Hh).
  destruct (Hh (Exn RuntimeError "connection refused")) as (_ & Hs & _).
  - right; left; reflexivity.
  - reflexivity.
  - exact Hs.
Defined.

End JobFacts.

(* ===================================================================== *)
(** * Facts about server.py                                               *)
(* ===================================================================== *)

Module ServerFacts.
Import Py Server.

(** The delay the closed form gives before the [k]-th retry. *)
Definition backoff (initial_delay max_delay : Z) (k : nat) : Z :=
  Z.min (initial_delay * 2 ^ (Z.of_nat k - 1)) max_delay.

(** Attempts [a], [a+1], ... [a+n-1] all failing but the last one, with
    the sleeps in between. *)
Fixpoint failed_then_last (initial_delay max_delay : Z) (a : nat) (n : nat)
  : list event :=
  match n with
  | O => []
  | S O => [Probe (Z.of_nat a)]
  | S n' =>
      Probe (Z.of_nat a) :: Sleep (backoff initial_delay max_delay a)
        :: failed_then_last initial_delay max_delay (S a) n'
  end.

Definition probes (events : list event) : list Z :=
  flat_map (fun e => match e with Probe a => [a] | Sleep _ => [] end) events.

Definition sleeps (events : list event) : list Z :=
  flat_map (fun e => match e with Sleep d => [d] | Probe _ => [] end) events.

Lemma backoff_next i m k :
  0 <= i <= m -> (1 <= k)%nat ->
  Z.min (backoff i m k * 2) m = backoff i m (S k).
Proof.
  intros Him Hk. unfold backoff.
  replace (Z.of_nat (S k) - 1) with (Z.succ (Z.of_nat k - 1)) by lia.
  rewrite Z.pow_succ_r by lia.
  assert (0 < 2 ^ (Z.of_nat k - 1)) by (apply Z.pow_pos_nonneg; lia).
  lia.
Qed.

Lemma backoff_first i m : 0 <= i <= m -> backoff i m 1 = i.
Proof. intros H. unfold backoff. simpl. lia. Qed.

Lemma backoff_bounds i m k : 0 <= i <= m -> 0 <= backoff i m k <= m.
Proof.
  intros H. unfold backoff.
  assert (0 <= 2 ^ (Z.of_nat k - 1)) by (apply Z.pow_nonneg; lia).
  split; [apply Z.min_glb; nia | apply Z.le_min_r].
Qed.

(** The loop from attempt [a] on, when the first success comes [n]
    attempts later, at an attempt within the allowance. *)
Lemma attempts_until_success probe max_retries i m : forall n remaining a,
  0 <= i <= m -> (1 <= a)%nat -> (1 <= n)%nat -> (n <= remaining)%nat ->
  Z.of_nat (a + n - 1) <= max_retries ->
  (forall j, (a <= j)%nat /\ (j < a + n - 1)%nat -> probe (Z.of_nat j) = false) ->
  probe (Z.of_nat (a + n - 1)) = true ->
  attempts probe max_retries m remaining (Z.of_nat a) (backoff i m a) =
    (failed_then_last i m a n, Ok true).
Proof.
  induction n as [|n IH]; intros remaining a Him Ha Hn Hrem Hmax Hfail Hok; [lia|].
  destruct remaining as [|remaining]; [lia|].
  destruct n as [|n].
  - simpl. replace (a + 1 - 1)%nat with a in Hok by lia. rewrite Hok. reflexivity.
  - cbn [attempts]. rewrite (Hfail a) by lia.
    assert (Hlt : (Z.of_nat a <? max_retries) = true) by (apply Z.ltb_lt; lia).
    rewrite Hlt.
    assert (Hneg : (backoff i m a <? 0) = false)
      by (apply Z.ltb_ge; apply backoff_bounds; lia).
    rewrite Hneg, backoff_next by lia.
    replace (Z.of_nat a + 1) with (Z.of_nat (S a)) by lia.
    rewrite (IH remaining (S a)); try lia.
    + reflexivity.
    + intros j Hj. apply Hfail. lia.
    + replace (S a + S n - 1)%nat with (a + S (S n) - 1)%nat by lia. exact Hok.
Qed.

(** The loop from attempt [a] on, when every remaining attempt fails and
    the allowance ends with the loop. *)
Lemma attempts_all_fail probe max_retries i m : forall remaining a,
  0 <= i <= m -> (1 <= a)%nat ->
  Z.of_nat (a + remaining) = max_retries + 1 ->
  (forall j, (a <= j)%nat /\ (j < a + remaining)%nat -> probe (Z.of_nat j) = false) ->
  attempts probe max_retries m remaining (Z.of_nat a) (backoff i m a) =
    (failed_then_last i m a remaining, Ok false).
Proof.
  induction remaining as [|remaining IH]; intros a Him Ha Hmax Hfail; [reflexivity|].
  cbn [attempts]. rewrite (Hfail a) by lia.
  destruct remaining as [|remaining].
  - assert (Hlt : (Z.of_nat a <? max_retries) = false) by (apply Z.ltb_ge; lia).
    rewrite Hlt. reflexivity.
  - assert (Hlt : (Z.of_nat a <? max_retries) = true) by (apply Z.ltb_lt; lia).
    rewrite Hlt.
    assert (Hneg : (backoff i m a <? 0) = false)
      by (apply Z.ltb_ge; apply backoff_bounds; lia).
    rewrite Hneg, backoff_next by lia.
    replace (Z.of_nat a + 1) with (Z.of_nat (S a)) by lia.
    rewrite (IH (S a)); try lia.
    + reflexivity.
    + intros j Hj. apply Hfail. lia.
Qed.

Lemma probes_failed_then_last i m : forall n a,
  probes (failed_then_last i m a n) = map Z.of_nat (seq a n).
Proof.
  induction n as [|n IH]; intros a; [reflexivity|].
  destruct n as [|n]; [reflexivity|].
  change (probes (failed_then_last i m a (S (S n))))
    with (Z.of_nat a :: probes (failed_then_last i m (S a) (S n))).
  rewrite IH. reflexivity.
Qed.

Lemma sleeps_failed_then_last i m : forall n a,
  sleeps (failed_then_last i m a n) = map (backoff i m) (seq a (n - 1)).
Proof.
  induction n as [|n IH]; intros a; [reflexivity|].
  destruct n as [|n]; [reflexivity|].
  change (sleeps (failed_then_last i m a (S (S n))))
    with (backoff i m a :: sleeps (failed_then_last i m (S a) (S n))).
  rewrite IH. simpl. rewrite Nat.sub_0_r. reflexivity.
Qed.

(** Either every attempt up to [n] fails or there is a first one that
    succeeds. *)
Lemma first_success_or_none (probe : Z -> bool) : forall n : nat,
  (forall j, (1 <= j)%nat /\ (j <= n)%nat -> probe (Z.of_nat j) = false) \/
  (exists k, (1 <= k)%nat /\ (k <= n)%nat /\ probe (Z.of_nat k) = true /\
             forall j, (1 <= j)%nat /\ (j < k)%nat -> probe (Z.of_nat j) = false).
Proof.
  induction n as [|n [IH|IH]].
  - left. intros j Hj. lia.
  - destruct (probe (Z.of_nat (S n))) eqn:E.
    + right. exists (S n). repeat split; try lia; [exact E|].
      intros j Hj. apply IH. lia.
    + left. intros j Hj. destruct (Nat.eq_dec j (S n)) as [->|]; [exact E|].
      apply IH. lia.
  - right. destruct IH as (k & H1 & H2 & H3 & H4). exists k. repeat split; auto.
Qed.


(** ** Concrete runs *)

Definition never_available (attempt : Z) : bool := false.
Definition available_at_third (attempt : Z) : bool := attempt =? 3.

(** The defaults against a backend that never comes up: five probes and
    sleeps of 2, 4, 8 and 16 seconds. *)
Example wait_for_comfyui_defaults :
  wait_for_comfyui never_available COMFYUI_MAX_RETRIES COMFYUI_MAX_DELAY
    COMFYUI_INITIAL_DELAY =
  ([Probe 1; Sleep 2; Probe 2; Sleep 4; Probe 3; Sleep 8; Probe 4; Sleep 16; Probe 5],
   Ok false).
Proof. reflexivity. Qed.

Example wait_for_comfyui_third_attempt :
  wait_for_comfyui available_at_third 5 16 2 =
  ([Probe 1; Sleep 2; Probe 2; Sleep 4; Probe 3], Ok true).
Proof. reflexivity. Qed.



End ServerFacts.

(* ===================================================================== *)
(** * Facts about the asset registry                                      *)
(* ===================================================================== *)

Module AssetRegistryFacts.
Import Py AssetRegistry.

(** Two descriptors name the same physical output. *)
Definition same_triple (d1 d2 : descriptor) : Prop :=
  d_filename d1 = d_filename d2 /\
  d_subfolder d1 = d_subfolder d2 /\
  d_folder_type d1 = d_folder_type d2.

Lemma register_asset_fresh derive_id now reg d :
  assets reg !! derive_id (d_filename d) (d_subfolder d) (d_folder_type d) = None ->
  register_asset derive_id now reg d =
    (with_assets reg
       (<[derive_id (d_filename d) (d_subfolder d) (d_folder_type d) :=
            new_record derive_id now reg d]> (assets reg)),
     new_record derive_id now reg d).
Proof. intros H. unfold register_asset. rewrite H. reflexivity. Qed.

Lemma register_asset_existing derive_id now reg d existing :
  assets reg !! derive_id (d_filename d) (d_subfolder d) (d_folder_type d)
    = Some existing ->
  register_asset derive_id now reg d =
    let id := derive_id (d_filename d) (d_subfolder d) (d_folder_type d) in
    let r := if expired now existing then new_record derive_id now reg d
             else merged_record existing d in
    (with_assets reg (<[id := r]> (assets reg)), r).
Proof.
  intros H. unfold register_asset. rewrite H.
  destruct (expired now existing); reflexivity.
Qed.

(** C9.  Registering the same [(filename, subfolder, folder_type)]
    triple twice, starting from a registry that holds no record for it,
    yields the same asset id both times and raises the record count by
    exactly one; when the first record has not expired by the second
    registration, the second one merges its metadata into that record,
    which keeps its creation and expiry instants. *)
Theorem register_asset_idempotent derive_id now1 now2 reg d1 d2 :
  same_triple d1 d2 ->
  assets reg !! derive_id (d_filename d1) (d_subfolder d1) (d_folder_type d1) = None ->
  let first := register_asset derive_id now1 reg d1 in
  let second := register_asset derive_id now2 (fst first) d2 in
  asset_id (snd first) = asset_id (snd second) /\
  record_count (fst second) = S (record_count reg) /\
  (expired now2 (snd first) = false ->
     snd second = merged_record (snd first) d2 /\
     get_asset now2 (fst second) (asset_id (snd first)) = Some (snd second) /\
     metadata (snd second) = dict_update (d_metadata d1) (d_metadata d2) /\
     created_at (snd second) = now1 /\
     expires_at (snd second) = now1 + ttl reg).
Proof.
  intros (Hf & Hs & Ht) Hfresh first second.
  unfold second, first. rewrite (register_asset_fresh _ _ _ _ Hfresh). cbn [fst snd].
  set (id := derive_id (d_filename d1) (d_subfolder d1) (d_folder_type d1)) in *.
  set (r1 := new_record derive_id now1 reg d1).
  set (reg1 := with_assets reg (<[id := r1]> (assets reg))).
  assert (Hid : derive_id (d_filename d2) (d_subfolder d2) (d_folder_type d2) = id)
    by (unfold id; rewrite Hf, Hs, Ht; reflexivity).
  assert (H1 : assets reg1 !! id = Some r1) by apply lookup_insert_eq.
  rewrite (register_asset_existing derive_id now2 reg1 d2 r1)
    by (rewrite Hid; exact H1).
  rewrite Hid.
  assert (Hcount : forall r, size (<[id := r]> (assets reg1)) = S (size (assets reg))).
  { intros r. unfold reg1. cbn [assets with_assets]. rewrite insert_insert_eq.
    apply map_size_insert_None. exact Hfresh. }
  destruct (expired now2 r1) eqn:Hex; cbn [fst snd].
  - split; [|split].
    + unfold r1, new_record. cbn [asset_id]. symmetry. exact Hid.
    + unfold record_count. cbn [assets with_assets]. apply Hcount.
    + discriminate.
  - split; [|split].
    + reflexivity.
    + unfold record_count. cbn [assets with_assets]. apply Hcount.
    + intros _. repeat split.
      unfold get_asset. cbn [assets with_assets].
      change (asset_id r1) with id. rewrite lookup_insert_eq.
      change (expired now2 (merged_record r1 d2)) with (expired now2 r1).
      rewrite Hex. reflexivity.
Qed.

(** ** Concrete run: the spec's example triple *)

Definition example_id (f s t : value) : string :=
  match f, s, t with
  | VStr f, VStr s, VStr t => t ++ "/" ++ s ++ "/" ++ f
  | _, _, _ => "?"
  end.

Definition empty_registry : registry :=
  {| assets := ∅; ttl := 86400; comfyui_base_url := "http://localhost:8188" |}.

Definition a_png (meta : list (string * value)) : descriptor :=
  {| d_filename := VStr "a.png"; d_subfolder := VStr ""; d_folder_type := VStr "output";
     d_workflow_id := VStr "generate_image"; d_prompt_id := VStr "p1";
     d_mime_type := VNone; d_width := VNone; d_height := VNone;
     d_bytes_size := VNone; d_comfy_history := VNone;
     d_submitted_workflow := VNone; d_metadata := meta; d_session_id := VNone |}.

Lemma register_asset_idempotent_witness :
  same_triple (a_png [("tool", VStr "x")]) (a_png [("tool", VStr "y")]) /\
  record_count
    (fst (register_asset example_id 10
            (fst (register_asset example_id 0 empty_registry (a_png [("tool", VStr "x")])))
            (a_png [("tool", VStr "y")]))) = 1%nat.
Proof.
  assert (Hs : same_triple (a_png [("tool", VStr "x")]) (a_png [("tool", VStr "y")]))
    by (repeat split).
  split; [exact Hs|].
  apply (register_asset_idempotent example_id 0 10 empty_registry _ _ Hs).
  reflexivity.
Defined.

End AssetRegistryFacts.

(* ===================================================================== *)
(** * Facts about overrides and rendering                                 *)
(* ===================================================================== *)

Module WorkflowManagerFacts.
Import Py WorkflowManager.

(** The key set of a dict. *)
Definition key_set {A} (d : list (string * A)) : gset string :=
  list_to_set (keys d).

Lemma key_set_dict_set {A} k (v : A) d :
  key_set (dict_set k v d) = {[k]} ∪ key_set d.
Proof.
  unfold key_set. induction d as [|[k' v'] d IH]; simpl.
  - set_solver.
  - destruct (String.eqb_spec k k') as [->|Hne]; simpl.
    + set_solver.
    + rewrite IH. set_solver.
Qed.

Lemma assoc_dict_set {A} k k' (v : A) d :
  assoc k (dict_set k' v d) = if String.eqb k k' then Some v else assoc k d.
Proof.
  induction d as [|[k2 v2] d IH]; simpl.
  - reflexivity.
  - destruct (String.eqb_spec k' k2) as [->|Hne]; simpl.
    + destruct (String.eqb k k2); reflexivity.
    + rewrite IH. destruct (String.eqb_spec k k2) as [->|Hne2].
      * destruct (String.eqb_spec k2 k') as [->|]; [contradiction|reflexivity].
      * reflexivity.
Qed.

Lemma prefix_app s t : String.prefix s (s ++ t) = true.
Proof.
  induction s as [|c s IH]; simpl; [destruct t; reflexivity|].
  destruct (ascii_dec c c); [exact IH|contradiction].
Qed.

Lemma contains_prefix sub s : String.prefix sub s = true -> contains sub s = true.
Proof. intros H. destruct s; cbn [contains]; rewrite H; reflexivity. Qed.

Lemma contains_app sub pre post : contains sub (pre ++ sub ++ post) = true.
Proof.
  induction pre as [|c pre IH].
  - change (contains sub (sub ++ post) = true).
    apply contains_prefix, prefix_app.
  - change (String c pre ++ sub ++ post) with (String c (pre ++ sub ++ post)).
    cbn [contains]. rewrite IH. apply orb_true_r.
Qed.

(** The reason of a dropped key names the token searched for. *)
Lemma drop_reason_names_token key :
  contains (placeholder_token key) (drop_reason key) = true.
Proof. unfold drop_reason. apply contains_app. Qed.

Section Partition.

Variable is_placeholder : string -> value -> bool.

(** What one pass of the loop keeps true: the two key sets stay apart,
    grow exactly by the keys gone through, and every reason is the one
    of its key. *)
Lemma apply_overrides_invariant : forall overrides graph report,
  NoDup (keys overrides) ->
  (forall k, In k (keys overrides) ->
             k ∉ key_set (applied report) ∪ key_set (dropped report)) ->
  key_set (applied report) ## key_set (dropped report) ->
  (forall k reason, assoc k (dropped report) = Some reason -> reason = drop_reason k) ->
  let final := snd (fold_left (apply_one is_placeholder) overrides (graph, report)) in
  key_set (applied final) ∪ key_set (dropped final) =
    key_set (applied report) ∪ key_set (dropped report) ∪ key_set overrides /\
  key_set (applied final) ## key_set (dropped final) /\
  (forall k reason, assoc k (dropped final) = Some reason -> reason = drop_reason k).
Proof.
  induction overrides as [|[key v] rest IH]; intros graph report Hnd Hfresh Hdisj Hreason.
  - simpl. repeat split; auto. unfold key_set at 5. simpl. set_solver.
  - simpl in Hnd. apply NoDup_cons in Hnd as [Hnotin Hnd].
    assert (Hkey : key ∉ key_set (applied report) ∪ key_set (dropped report))
      by (apply Hfresh; left; reflexivity).
    cbn [fold_left apply_one].
    destruct (found_in is_placeholder key graph).
    + edestruct (IH (substitute is_placeholder key v graph)
                   {| applied := dict_set key v (applied report);
                      dropped := dropped report |}) as (Hu & Hd & Hr); eauto.
      * intros k Hk. cbn [applied dropped]. rewrite key_set_dict_set.
        assert (k <> key) by (intros ->; apply Hnotin; apply list_elem_of_In; exact Hk).
        specialize (Hfresh k (or_intror Hk)). set_solver.
      * cbn [applied dropped]. rewrite key_set_dict_set. set_solver.
      * cbn [applied dropped] in Hu. rewrite key_set_dict_set in Hu.
        repeat split; auto. rewrite Hu. unfold key_set at 6. simpl. set_solver.
    + edestruct (IH graph
                   {| applied := applied report;
                      dropped := dict_set key (drop_reason key) (dropped report) |})
        as (Hu & Hd & Hr); eauto.
      * intros k Hk. cbn [applied dropped]. rewrite key_set_dict_set.
        assert (k <> key) by (intros ->; apply Hnotin; apply list_elem_of_In; exact Hk).
        specialize (Hfresh k (or_intror Hk)). set_solver.
      * cbn [applied dropped]. rewrite key_set_dict_set. set_solver.
      * cbn [applied dropped]. intros k reason. rewrite assoc_dict_set.
        destruct (String.eqb_spec k key) as [->|]; [intros [= <-]; reflexivity|].
        apply Hreason.
      * cbn [applied dropped] in Hu. rewrite key_set_dict_set in Hu.
        repeat split; auto. rewrite Hu. unfold key_set at 6. simpl. set_solver.
Qed.

Lemma apply_overrides_with_partition graph template_id overrides :
  NoDup (keys overrides) ->
  let report := snd (apply_overrides_with is_placeholder graph template_id overrides) in
  key_set (applied report) ∪ key_set (dropped report) = key_set overrides /\
  key_set (applied report) ## key_set (dropped report) /\
  (forall k reason, assoc k (dropped report) = Some reason -> reason = drop_reason k).
Proof.
  intros Hnd. unfold apply_overrides_with.
  destruct (apply_overrides_invariant overrides graph
              {| applied := []; dropped := [] |} Hnd) as (Hu & Hd & Hr).
  - intros k _. unfold key_set. simpl. set_solver.
  - unfold key_set. simpl. set_solver.
  - simpl. discriminate.
  - repeat split; auto. rewrite Hu. unfold key_set at 1 2. simpl. set_solver.
Qed.

End Partition.

(** C4.  For every override map (a dict: no key twice), the report of
    [apply_workflow_overrides] partitions the override keys: applied and
    dropped keys together are the override keys, no key is in both, and
    the reason of each dropped key names the token [PARAM_<UPPERCASED KEY>]
    that was searched. *)
Theorem apply_workflow_overrides_partition graph template_id overrides :
  NoDup (keys overrides) ->
  let report := snd (apply_workflow_overrides graph template_id overrides) in
  key_set (applied report) ∪ key_set (dropped report) = key_set overrides /\
  key_set (applied report) ## key_set (dropped report) /\
  (forall key reason,
      assoc key (dropped report) = Some reason ->
      contains ("PARAM_" ++ upper key) reason = true).
Proof.
  intros Hnd report.
  destruct (apply_overrides_with_partition exact_placeholder graph template_id
              overrides Hnd) as (Hu & Hd & Hr).
  repeat split; auto.
  intros key reason Hk. rewrite (Hr key reason Hk). apply drop_reason_names_token.
Qed.

(** ** Concrete run: the spec's example *)

Definition prompt_template : value :=
  VDict [("1", VDict [("inputs", VDict [("prompt", VStr "PARAM_PROMPT")]);
                      ("class_type", VStr "A")])].

Definition prompt_and_bogus : list (string * value) :=
  [("prompt", VStr "hello"); ("bogus", VInt 42)].

Example apply_workflow_overrides_example :
  apply_workflow_overrides prompt_template "test" prompt_and_bogus =
    (VDict [("1", VDict [("inputs", VDict [("prompt", VStr "hello")]);
                         ("class_type", VStr "A")])],
     {| applied := [("prompt", VStr "hello")];
        dropped := [("bogus", "no placeholder PARAM_BOGUS found in workflow")] |}).
Proof. reflexivity. Qed.

Lemma apply_workflow_overrides_partition_witness :
  NoDup (keys prompt_and_bogus) /\
  key_set (applied (snd (apply_workflow_overrides prompt_template "test" prompt_and_bogus)))
    ## key_set (dropped (snd (apply_workflow_overrides prompt_template "test"
                                prompt_and_bogus))).
Proof.
  assert (H : NoDup (keys prompt_and_bogus)).
  { simpl. apply NoDup_cons. split; [set_solver|].
    apply NoDup_cons. split; [set_solver|]. apply NoDup_nil. exact I. }
  split; [exact H|].
  apply (apply_workflow_overrides_partition prompt_template "test" prompt_and_bogus H).
Defined.

End WorkflowManagerFacts.

(* ===================================================================== *)
(** * Facts about polling and tools/helpers.py                            *)
(* ===================================================================== *)

Module HelpersFacts.
Import Py AssetRegistry ComfyClient Helpers.

Definition fetches (events : list event) : list nat :=
  flat_map (fun e => match e with Fetch _ a => [a] | Sleep _ => [] end) events.

(** A poll that never sees a terminal message uses every attempt and
    answers null. *)
Lemma poll_from_exhausted backend prompt_id interval : forall remaining attempt,
  (forall k, (attempt <= k)%nat /\ (k < attempt + remaining)%nat ->
             backend prompt_id k = None) ->
  snd (poll_from backend prompt_id interval remaining attempt) = None /\
  fetches (fst (poll_from backend prompt_id interval remaining attempt)) =
    seq attempt remaining.
Proof.
  induction remaining as [|remaining IH]; intros attempt Hnone; [split; reflexivity|].
  cbn [poll_from]. rewrite (Hnone attempt) by lia.
  destruct remaining as [|remaining']; [split; reflexivity|].
  destruct (IH (S attempt)) as [Hr Hf]; [intros k Hk; apply Hnone; lia|].
  destruct (poll_from backend prompt_id interval (S remaining') (S attempt))
    as [events r].
  cbn [fst snd] in *. split; [exact Hr|].
  change (fetches (Fetch prompt_id attempt :: Sleep interval :: events))
    with (attempt :: fetches events).
  rewrite Hf. reflexivity.
Qed.

(** A result whose [status] is ["running"] goes through untouched and
    the registry is left as it was. *)
Lemma register_and_build_response_running
  derive_id asset_url_of get_asset_url encode_preview now
  result workflow_id reg tool_name return_inline_preview session_id :
  get result "status" VNone = Ok (VStr "running") ->
  register_and_build_response derive_id asset_url_of get_asset_url encode_preview
    now result workflow_id reg tool_name return_inline_preview session_id
  = (reg, Ok result).
Proof. intros H. unfold register_and_build_response. rewrite H. reflexivity. Qed.

(** C3.  When none of the [max_attempts] fetches of a submitted job
    shows a terminal message, [poll] answers null after exactly
    [max_attempts] fetches; [run_custom_workflow] turns that into a
    handle with status ["running"] and the submitted job id, without
    raising; and [register_and_build_response] returns that handle
    unchanged and leaves the registry as it was. *)
Theorem timeout_yields_pending_handle
  backend prompt_id max_attempts interval
  derive_id asset_url_of get_asset_url encode_preview now
  workflow_id reg tool_name return_inline_preview session_id :
  (forall k, (1 <= k)%nat /\ (k <= max_attempts)%nat -> backend prompt_id k = None) ->
  snd (poll backend prompt_id max_attempts interval) = None /\
  fetches (fst (poll backend prompt_id max_attempts interval)) = seq 1 max_attempts /\
  snd (run_custom_workflow backend (Ok prompt_id) max_attempts interval)
    = Ok (pending_handle prompt_id) /\
  getitem (pending_handle prompt_id) "status" = Ok (VStr "running") /\
  getitem (pending_handle prompt_id) "prompt_id" = Ok (VStr prompt_id) /\
  register_and_build_response derive_id asset_url_of get_asset_url encode_preview
    now (pending_handle prompt_id) workflow_id reg tool_name
    return_inline_preview session_id
  = (reg, Ok (pending_handle prompt_id)).
Proof.
  intros Hnone.
  destruct (poll_from_exhausted backend prompt_id interval max_attempts 1) as [Hr Hf];
    [intros k Hk; apply Hnone; lia|].
  unfold run_custom_workflow, poll in *.
  destruct (poll_from backend prompt_id interval max_attempts 1) as [events r].
  cbn [fst snd] in *. subst r.
  repeat split; try reflexivity; try exact Hf.
Qed.

(** ** Concrete run *)

Definition silent_backend (prompt_id : string) (attempt : nat) : option terminal :=
  None.

Definition no_preview (url : value) (id : string) : result (string * string) :=
  Raise (Exn RuntimeError "no preview").

Definition plain_id (f s t : value) : string := "id".

Definition fresh_registry : registry :=
  {| assets := ∅; ttl := 86400; comfyui_base_url := "http://localhost:8188" |}.

(** The spec's example: two attempts against a backend that never
    finishes. *)
Example poll_two_attempts :
  poll silent_backend "fake-id" 2 1 =
    ([Fetch "fake-id" 1; Sleep 1; Fetch "fake-id" 2], None).
Proof. reflexivity. Qed.

Lemma timeout_yields_pending_handle_witness :
  (forall k, (1 <= k)%nat /\ (k <= 2)%nat -> silent_backend "test-prompt-id" k = None) /\
  snd (run_custom_workflow silent_backend (Ok "test-prompt-id") 2 1)
    = Ok (pending_handle "test-prompt-id").
Proof.
  assert (H : forall k, (1 <= k)%nat /\ (k <= 2)%nat ->
                        silent_backend "test-prompt-id" k = None)
    by (intros k _; reflexivity).
  split; [exact H|].
  apply (timeout_yields_pending_handle silent_backend "test-prompt-id" 2 1
           plain_id (fun _ => VNone) (fun _ _ => VNone) no_preview 0
           "test_workflow" fresh_registry None false VNone H).
Defined.

End HelpersFacts.

(* ===================================================================== *)
(** * Facts about the workflow tools                                      *)
(* ===================================================================== *)

Module GenerationFacts.
Import Py WorkflowManager Generation.

(** ** Coercion of keyword arguments *)

Lemma int_of_digit_string s :
  isdigit (strip s) = true -> int_of_string s = Ok (digits_value (strip s) 0).
Proof.
  intros H. unfold int_of_string.
  destruct (strip s) as [|ch r] eqn:E; [discriminate|].
  destruct ch as [[] [] [] [] [] [] [] []];
    try (simpl in H; discriminate H);
    cbv iota beta; rewrite H; reflexivity.
Qed.

(** A digit string for an [int] parameter becomes the integer it
    spells. *)
Lemma coerce_digit_string float_of_string param s :
  annotation_of param = AInt ->
  isdigit (strip s) = true ->
  coerce float_of_string param (VStr s) = Ok (VInt (digits_value (strip s) 0)).
Proof.
  intros Ha Hd. unfold coerce, convert. rewrite Ha, Hd. simpl.
  rewrite (int_of_digit_string s Hd). reflexivity.
Qed.

(** A string that [float()] parses becomes that float for a [float]
    parameter. *)
Lemma coerce_float_string float_of_string param s f :
  annotation_of param = AFloat ->
  float_of_string s = Some f ->
  coerce float_of_string param (VStr s) = Ok (VFloat f).
Proof. intros Ha Hf. unfold coerce, convert. rewrite Ha. simpl. rewrite Hf. reflexivity. Qed.

(** Strings that do not convert pass through unchanged. *)
Lemma coerce_other_string float_of_string param s :
  (annotation_of param = AInt /\ isdigit (strip s) = false) \/
  (annotation_of param = AFloat /\ float_of_string s = None) ->
  coerce float_of_string param (VStr s) = Ok (VStr s).
Proof.
  intros [[Ha Hd]|[Ha Hf]]; unfold coerce, convert; rewrite Ha; simpl.
  - rewrite Hd. reflexivity.
  - rewrite Hf. reflexivity.
Qed.

Definition conversion_error (cls : exn_class) : Prop :=
  cls = ValueError \/ cls = TypeError \/ cls = OverflowError.

Lemma float_of_int_raises z e :
  float_of_int z = Raise e -> exn_cls e = OverflowError.
Proof.
  unfold float_of_int. destruct (binary_normalize _ _ _ _ _); try discriminate.
  intros [= <-]. reflexivity.
Qed.

Lemma py_int_raises v e : py_int v = Raise e -> conversion_error (exn_cls e).
Proof.
  unfold conversion_error. destruct v; simpl; try discriminate;
    try (intros [= <-]; simpl; tauto).
  - destruct f; simpl; try discriminate; intros [= <-]; simpl; tauto.
  - unfold int_of_string.
    repeat match goal with
           | |- context [if ?b then _ else _] => destruct b
           | |- context [match ?x with _ => _ end] => destruct x
           end; try discriminate; intros [= <-]; simpl; tauto.
Qed.

Lemma py_float_raises float_of_string v e :
  py_float float_of_string v = Raise e -> conversion_error (exn_cls e).
Proof.
  unfold conversion_error. destruct v; simpl; try discriminate;
    try (intros [= <-]; simpl; tauto);
    try (intros H; apply float_of_int_raises in H; tauto).
  destruct (float_of_string s); try discriminate. intros [= <-]. simpl. tauto.
Qed.

Lemma bind_raises {A B} (r : result A) (k : A -> result B) e :
  bind r k = Raise e -> r = Raise e \/ exists a, r = Ok a /\ k a = Raise e.
Proof. destruct r as [a|e']; simpl; intros H; [right; eauto | left; congruence]. Qed.

Lemma convert_raises float_of_string a v e :
  convert float_of_string a v = Raise e -> conversion_error (exn_cls e).
Proof.
  unfold convert. intros H.
  assert (Hi : forall w, (z <- py_int w ;; Ok (VInt z)) = Raise e ->
                         conversion_error (exn_cls e)).
  { intros w Hw. apply bind_raises in Hw as [Hw|(z & _ & Hw)]; [|discriminate].
    eapply py_int_raises; eauto. }
  assert (Hf : forall w, (f <- py_float float_of_string w ;; Ok (VFloat f)) = Raise e ->
                         conversion_error (exn_cls e)).
  { intros w Hw. apply bind_raises in Hw as [Hw|(z & _ & Hw)]; [|discriminate].
    eapply py_float_raises; eauto. }
  destruct a; try discriminate.
  - destruct v; try discriminate; try (apply Hi in H; exact H).
    destruct (isdigit (strip s)); [apply Hi in H; exact H | discriminate].
  - destruct v; try discriminate; apply Hf in H; exact H.
Qed.

(** The only exception that leaves a round of the coercion loop is an
    [OverflowError]. *)
Lemma coerce_raises_only_overflow float_of_string param v e :
  coerce float_of_string param v = Raise e -> exn_cls e = OverflowError.
Proof.
  unfold coerce. intros H.
  assert (Hc : convert float_of_string (annotation_of param) v = Raise e).
  { destruct v; try discriminate;
      destruct (convert _ _ _) as [x|[[] msg]]; try discriminate; exact H. }
  rewrite Hc in H.
  destruct (convert_raises _ _ _ _ Hc) as [Hv|[Ht|Ho]]; [| |exact Ho];
    destruct e as [cls msg]; simpl in *; subst cls; destruct v; discriminate.
Qed.

(** ** The tool as a whole *)

Lemma check_absent_trace py_str c definition namespace arguments :
  has_model_param definition = false ->
  Forall (fun e => model_validation e = false)
    (fst (submit py_str c definition namespace arguments)).
Proof.
  intros Hm. unfold submit. rewrite Hm. simpl.
  destruct (render_workflow c definition arguments) as [workflow|e]; simpl.
  - destruct (run_custom_workflow c workflow _) as [r|e]; simpl;
      repeat constructor.
  - repeat constructor.
Qed.

Lemma recover_absent py_str c definition namespace arguments exc :
  has_model_param definition = false ->
  recover py_str c definition namespace arguments exc =
    ([], Ok (VDict [("error", VStr (exn_msg exc))])).
Proof. intros Hm. unfold recover. rewrite Hm. reflexivity. Qed.

(** C7.  For a workflow tool whose declared parameters have no entry
    named [model], a call of the tool makes none of the calls of
    model-availability validation (resolving or validating the default
    model, refreshing the model list): neither before submission nor in
    the handling of an error, whatever the workflow id, the output
    preferences and the error text are. *)
Theorem no_model_param_no_validation
  py_str float_of_string c definition args kwargs asset_registry :
  assoc "model" (parameters definition) = None ->
  Forall (fun e => model_validation e = false)
    (fst (snd (_tool_impl py_str float_of_string c definition args kwargs
                 asset_registry))).
Proof.
  intros Hnone.
  assert (Hm : has_model_param definition = false)
    by (unfold has_model_param; rewrite Hnone; reflexivity).
  unfold _tool_impl.
  destruct (pop _ _ kwargs) as [return_inline_preview kwargs'].
  match goal with
  | |- context [match ?r with Ok _ => _ | Raise _ => _ end] =>
      destruct r as [[arguments namespace]|e]
  end; [|constructor].
  pose proof (check_absent_trace py_str c definition namespace arguments Hm) as Ht.
  destruct (submit py_str c definition namespace arguments) as [t [[response|result]|exc]];
    cbn [fst snd] in *.
  - exact Ht.
  - destruct (Helpers.register_and_build_response _ _ _ _ _ _ _ _ _ _ _)
      as [asset_registry' [r|exc]]; cbn [fst snd try_except].
    + apply Forall_app. split; [exact Ht | repeat constructor].
    + rewrite (recover_absent _ _ _ _ _ _ Hm). cbn [fst snd].
      rewrite app_nil_r. apply Forall_app. split; [exact Ht | repeat constructor].
  - cbn [try_except]. rewrite (recover_absent _ _ _ _ _ _ Hm). cbn [fst snd].
    rewrite app_nil_r. exact Ht.
Qed.

(** ** Concrete runs *)

Definition steps_tool : WorkflowToolDefinition :=
  {| workflow_id := "k_only";
     tool_name := "k_only";
     description := "";
     template :=
       VDict [("1", VDict [("inputs", VDict [("steps", VStr "PARAM_INT_STEPS")]);
                           ("class_type", VStr "K")])];
     parameters :=
       [("steps", {| name := "steps"; annotation_of := AInt; required := true;
                     default := VNone; placeholder := "PARAM_INT_STEPS" |})];
     output_preferences := ["images"; "image"; "gifs"; "gif"] |}.

Definition cfg_tool : WorkflowToolDefinition :=
  {| workflow_id := "cfg_only";
     tool_name := "cfg_only";
     description := "";
     template :=
       VDict [("1", VDict [("inputs", VDict [("cfg", VStr "PARAM_FLOAT_CFG")]);
                           ("class_type", VStr "K")])];
     parameters :=
       [("cfg", {| name := "cfg"; annotation_of := AFloat; required := false;
                   default := VNone; placeholder := "PARAM_FLOAT_CFG" |})];
     output_preferences := ["images"; "image"; "gifs"; "gif"] |}.

(** A parser that knows no float literal at all. *)
Definition no_float (s : string) : option spec_float := None.

(** Collaborators of a backend that keeps every job running; rendering
    is the workflow manager's. *)
Definition busy_backend : collaborators :=
  {| determine_namespace := fun _ => Ok "image";
     AUDIO_OUTPUT_KEYS := ["audio"; "audios"; "sound"; "files"];
     VIDEO_OUTPUT_KEYS := ["videos"; "video"; "mp4"; "mov"; "webm"];
     get_default := fun _ _ _ provided => Ok provided;
     is_model_valid := fun _ _ _ => Ok true;
     validate_default_model := fun _ _ => Ok (VBool true, VNone, VNone);
     available_models_set := fun _ => [];
     refresh_models := Ok tt;
     refresh_model_set := Ok tt;
     render_workflow := WorkflowManager.render_workflow no_float;
     run_custom_workflow := fun _ _ => Ok (ComfyClient.pending_handle "p-1");
     derive_id := fun _ _ _ => "id";
     asset_url_of := fun _ => VNone;
     get_asset_url := fun _ _ => VNone;
     encode_preview := fun _ _ => Raise (Exn RuntimeError "no preview");
     now := 0 |}.

Definition no_assets : AssetRegistry.registry :=
  {| AssetRegistry.assets := ∅; AssetRegistry.ttl := 86400;
     AssetRegistry.comfyui_base_url := "http://localhost:8188" |}.

(** The spec's round trip: [steps="30"] reaches the backend as the
    integer 30. *)
Example steps_string_is_rendered_as_integer :
  snd (_tool_impl type_name no_float busy_backend steps_tool []
         [("steps", VStr "30")] no_assets) =
  ([EvRenderWorkflow [("steps", VInt 30); ("return_inline_preview", VBool false)];
    EvRunCustomWorkflow
      (VDict [("1", VDict [("inputs", VDict [("steps", VInt 30)]);
                           ("class_type", VStr "K")])]);
    EvRegisterAndBuildResponse (ComfyClient.pending_handle "p-1")],
   Ok (ComfyClient.pending_handle "p-1")).
Proof. vm_compute. reflexivity. Qed.

(** A value that does not convert is handed on as it is. *)
Example steps_word_is_passed_through :
  fst (snd (_tool_impl type_name no_float busy_backend steps_tool []
              [("steps", VStr "many")] no_assets)) =
  [EvRenderWorkflow [("steps", VStr "many"); ("return_inline_preview", VBool false)];
   EvRunCustomWorkflow
     (VDict [("1", VDict [("inputs", VDict [("steps", VStr "many")]);
                          ("class_type", VStr "K")])]);
   EvRegisterAndBuildResponse (ComfyClient.pending_handle "p-1")].
Proof. vm_compute. reflexivity. Qed.

(** C5, where the code departs from it.  A value whose conversion
    overflows is not passed through: [float(10**400)] for a [float]
    parameter and [int(inf)] for an [int] parameter raise
    [OverflowError], which the [except (ValueError, TypeError)] of the
    coercion loop lets through, so the tool raises before anything is
    rendered. *)
Theorem coercion_overflow_escapes py_str float_of_string c asset_registry :
  _tool_impl py_str float_of_string c cfg_tool [] [("cfg", VInt (10 ^ 400))]
    asset_registry
  = (asset_registry,
     ([], Raise (Exn OverflowError "int too large to convert to float"))) /\
  _tool_impl py_str float_of_string c steps_tool []
    [("steps", VFloat (S754_infinity false))] asset_registry
  = (asset_registry,
     ([], Raise (Exn OverflowError "cannot convert float infinity to integer"))).
Proof. split; vm_compute; reflexivity. Qed.

Lemma no_model_param_no_validation_witness :
  assoc "model" (parameters steps_tool) = None /\
  Forall (fun e => model_validation e = false)
    (fst (snd (_tool_impl type_name no_float busy_backend steps_tool []
                 [("steps", VStr "30")] no_assets))).
Proof.
  split; [reflexivity|].
  apply (no_model_param_no_validation type_name no_float busy_backend steps_tool
           [] [("steps", VStr "30")] no_assets).
  reflexivity.
Defined.

End GenerationFacts.

(* ===================================================================== *)
(** * Facts about regenerate                                              *)
(* ===================================================================== *)

Module RegenerateFacts.
Import Py Regenerate.

Lemma assoc_In {A} k (v : A) d : assoc k d = Some v -> In (k, v) d.
Proof.
  induction d as [|[k' v'] d IH]; simpl; [discriminate|].
  destruct (String.eqb_spec k k') as [->|Hne].
  - intros [= ->]. left. reflexivity.
  - intros H. right. auto.
Qed.

Lemma In_dict_set {A} k (v : A) d k0 v0 :
  In (k0, v0) (dict_set k v d) -> (k0 = k /\ v0 = v) \/ In (k0, v0) d.
Proof.
  induction d as [|[k' v'] d IH]; simpl.
  - intros [[= <- <-]|[]]. auto.
  - destruct (String.eqb_spec k k') as [->|Hne]; simpl.
    + intros [[= <- <-]|H]; auto.
    + intros [H|H]; auto. destruct (IH H); auto.
Qed.

(** The input keys [_update_workflow_params] writes are never [inputs]. *)
Lemma param_mappings_input_key param_name target_class target_input is_negative :
  assoc param_name param_mappings = Some (target_class, target_input, is_negative) ->
  target_input <> "inputs".
Proof.
  intros H. apply assoc_In in H. simpl in H.
  repeat (destruct H as [H|H]; [inversion H; subst; discriminate|]).
  destruct H.
Qed.

Section Frame.

(** The heap when [regenerate] is called, and the address the stored
    workflow sits at. *)
Variable h0 : heap.
Variable r : loc.

Let n0 := length h0.

(** No object of the heap refers to an address without object. *)
Definition closed : Prop :=
  forall l o, h0 !! l = Some o ->
    match o with
    | ODict items => forall k x, In (k, HRef x) items -> (x < n0)%nat
    | OList items => forall x, In (HRef x) items -> (x < n0)%nat
    end.

(** The stored workflow is not the [inputs] of any node. *)
Definition not_inputs : Prop :=
  forall l items, h0 !! l = Some (ODict items) -> ~ In ("inputs", HRef r) items.

Hypothesis Hclosed : closed.
Hypothesis Hshape : not_inputs.

(** The objects that were there are as they were. *)
Definition old_same (h : heap) : Prop :=
  forall l, (l < n0)%nat -> h !! l = h0 !! l.

(** ** While copying *)

Definition memo_ok (m : memo) : Prop :=
  forall l y, m !! l = Some y -> (n0 <= y)%nat /\ (y = n0 -> l = r).

Definition fresh_dicts_ok (h : heap) : Prop :=
  forall l items k x, (n0 <= l)%nat -> h !! l = Some (ODict items) ->
    In (k, HRef x) items -> (n0 <= x)%nat /\ (k = "inputs" -> x <> n0).

Definition copying (m : memo) (h : heap) : Prop :=
  (n0 <= length h)%nat /\ old_same h /\ memo_ok m /\ fresh_dicts_ok h.

(** What a call of [deepcopy] on an old value keeps and yields. *)
Definition deepcopy_keeps
  (rec : memo -> heap -> hval -> result (hval * memo * heap)) : Prop :=
  forall m h x x' m' h',
    copying m h ->
    (forall l, x = HRef l -> (l < n0)%nat) ->
    (length h = n0 -> forall l, x = HRef l -> l = r) ->
    rec m h x = Ok (x', m', h') ->
    copying m' h' /\ (length h <= length h')%nat /\
    (forall y, x' = HRef y -> (n0 <= y)%nat /\ (y = n0 -> x = HRef r)).

Lemma dict_store_length h l k v : length (dict_store h l k v) = length h.
Proof.
  unfold dict_store. destruct (h !! l) as [[]|]; auto. apply length_insert.
Qed.

Lemma list_append_length h l v : length (list_append h l v) = length h.
Proof.
  unfold list_append. destruct (h !! l) as [[]|]; auto. apply length_insert.
Qed.

Lemma dict_store_other h l k v l' :
  l' <> l -> dict_store h l k v !! l' = h !! l'.
Proof.
  intros Hne. unfold dict_store. destruct (h !! l) as [[]|]; auto.
  apply list_lookup_insert_ne. auto.
Qed.

Lemma list_append_other h l v l' :
  l' <> l -> list_append h l v !! l' = h !! l'.
Proof.
  intros Hne. unfold list_append. destruct (h !! l) as [[]|]; auto.
  apply list_lookup_insert_ne. auto.
Qed.

Lemma dict_store_at h l k v items' :
  dict_store h l k v !! l = Some (ODict items') ->
  exists items, h !! l = Some (ODict items) /\
                (items' = items \/ items' = dict_set k v items).
Proof.
  unfold dict_store. destruct (h !! l) as [[items|items]|] eqn:E.
  - intros H. exists items. split; [reflexivity|].
    destruct (decide (l < length h)%nat) as [Hlt|Hge].
    + rewrite list_lookup_insert_eq in H by exact Hlt. inversion H. auto.
    + rewrite list_insert_ge in H by lia. rewrite E in H. inversion H. auto.
  - rewrite E. discriminate.
  - rewrite E. discriminate.
Qed.

Lemma list_append_at h l v items' :
  list_append h l v !! l = Some (ODict items') -> h !! l = Some (ODict items').
Proof.
  unfold list_append. destruct (h !! l) as [[items|items]|] eqn:E; try (rewrite E; auto).
  intros H. destruct (decide (l < length h)%nat) as [Hlt|Hge].
  - rewrite list_lookup_insert_eq in H by exact Hlt. discriminate.
  - rewrite list_insert_ge in H by lia. rewrite E in H. discriminate.
Qed.

Lemma copy_dict_items_keeps rec y : deepcopy_keeps rec ->
  forall items m h m' h',
    copying m h -> (n0 < length h)%nat -> (n0 <= y)%nat ->
    (forall k x, In (k, x) items ->
       (forall l, x = HRef l -> (l < n0)%nat) /\ (k = "inputs" -> x <> HRef r)) ->
    copy_dict_items rec y items m h = Ok (m', h') ->
    copying m' h' /\ (length h <= length h')%nat.
Proof.
  intros Hrec. induction items as [|[k x] rest IH]; intros m h m' h' Hc Hlen Hy Hitems.
  - simpl. intros [= <- <-]. auto.
  - simpl. destruct (rec m h x) as [[[x' m1] h1]|e] eqn:E; simpl; [|discriminate].
    destruct (Hitems k x (or_introl eq_refl)) as [Hold Hin].
    destruct (Hrec m h x x' m1 h1 Hc Hold) as (Hc1 & Hle & Hx'); [lia | exact E |].
    intros Hrest.
    assert (Hc2 : copying m1 (dict_store h1 y k x')).
    { destruct Hc1 as (Hn & Hsame & Hm & Hf).
      split; [rewrite dict_store_length; exact Hn|].
      split; [intros l Hl; rewrite dict_store_other by lia; auto|].
      split; [exact Hm|].
      intros l items' k0 x0 Hl Hlook Hin0.
      destruct (decide (l = y)) as [->|Hne].
      - apply dict_store_at in Hlook as (items & Hlook & [->| ->]).
        + eapply Hf; eauto.
        + apply In_dict_set in Hin0 as [[-> Hv]|Hin0]; [|eapply Hf; eauto].
          destruct (Hx' x0 (eq_sym Hv)) as [Hge Hroot].
          split; [exact Hge|]. intros Hk Hx0. apply (Hin Hk). auto.
      - rewrite dict_store_other in Hlook by exact Hne. eapply Hf; eauto. }
    destruct (IH m1 (dict_store h1 y k x') m' h' Hc2) as [Hc3 Hle3]; auto.
    + rewrite dict_store_length. lia.
    + intros k1 x1 Hin1. apply Hitems. right. exact Hin1.
    + rewrite dict_store_length in Hle3. split; [exact Hc3 | lia].
Qed.

Lemma copy_list_items_keeps rec y : deepcopy_keeps rec ->
  forall items m h m' h',
    copying m h -> (n0 < length h)%nat -> (n0 <= y)%nat ->
    (forall x, In x items -> forall l, x = HRef l -> (l < n0)%nat) ->
    copy_list_items rec y items m h = Ok (m', h') ->
    copying m' h' /\ (length h <= length h')%nat.
Proof.
  intros Hrec. induction items as [|x rest IH]; intros m h m' h' Hc Hlen Hy Hitems.
  - simpl. intros [= <- <-]. auto.
  - simpl. destruct (rec m h x) as [[[x' m1] h1]|e] eqn:E; simpl; [|discriminate].
    destruct (Hrec m h x x' m1 h1 Hc (Hitems x (or_introl eq_refl)))
      as (Hc1 & Hle & Hx'); [lia | exact E |].
    intros Hrest.
    assert (Hc2 : copying m1 (list_append h1 y x')).
    { destruct Hc1 as (Hn & Hsame & Hm & Hf).
      split; [rewrite list_append_length; exact Hn|].
      split; [intros l Hl; rewrite list_append_other by lia; auto|].
      split; [exact Hm|].
      intros l items' k0 x0 Hl Hlook Hin0.
      destruct (decide (l = y)) as [->|Hne].
      - apply list_append_at in Hlook. eapply Hf; eauto.
      - rewrite list_append_other in Hlook by exact Hne. eapply Hf; eauto. }
    destruct (IH m1 (list_append h1 y x') m' h' Hc2) as [Hc3 Hle3]; auto.
    + rewrite list_append_length. lia.
    + intros x1 Hin1. apply Hitems. right. exact Hin1.
    + rewrite list_append_length in Hle3. split; [exact Hc3 | lia].
Qed.

(** Allocating the empty copy of the object at [l]. *)
Lemma copying_alloc m h l o :
  copying m h ->
  (length h = n0 -> l = r) ->
  o = ODict [] \/ o = OList [] ->
  copying (<[l := length h]> m) (h ++ [o])%list.
Proof.
  intros (Hn & Hsame & Hmo & Hf) Hroot Ho.
  split; [rewrite length_app; simpl; lia|].
  split; [intros l1 Hl1; rewrite lookup_app_l by lia; auto|].
  split.
  - intros l1 y1. rewrite lookup_insert. case_decide.
    + intros [= <-]. subst l1. split; [exact Hn|]. exact Hroot.
    + apply Hmo.
  - intros l1 items k x Hl1 Hlook Hin.
    destruct (decide (l1 < length h)%nat) as [Hlt|Hge].
    + rewrite lookup_app_l in Hlook by exact Hlt. eapply Hf; eauto.
    + rewrite lookup_app_r in Hlook by lia.
      destruct (l1 - length h)%nat; simpl in Hlook; [|discriminate].
      inversion Hlook; subst.
      destruct Ho as [Ho|Ho]; inversion Ho; subst. destruct Hin.
Qed.

Lemma deepcopy_keeps_all depth : deepcopy_keeps (deepcopy depth).
Proof.
  induction depth as [|depth IH]; intros m h x x' m' h' Hc Hold Hroot.
  - destruct x as [| b | z | f | s | l]; simpl;
      try (intros [= <- <- <-]; split; [exact Hc|split; [lia|discriminate]]).
    destruct (m !! l) as [y|] eqn:Hm; [|discriminate].
    intros [= <- <- <-]. split; [exact Hc|]. split; [lia|].
    intros y0 [= <-]. destruct Hc as (_ & _ & Hmo & _).
    destruct (Hmo l y Hm) as [Hge Hl]. split; [exact Hge|].
    intros Hy. rewrite (Hl Hy). reflexivity.
  - destruct x as [| b | z | f | s | l]; simpl;
      try (intros [= <- <- <-]; split; [exact Hc|split; [lia|discriminate]]).
    destruct (m !! l) as [y|] eqn:Hm.
    { intros [= <- <- <-]. split; [exact Hc|]. split; [lia|].
      intros y0 [= <-]. destruct Hc as (_ & _ & Hmo & _).
      destruct (Hmo l y Hm) as [Hge Hl]. split; [exact Hge|].
      intros Hy. rewrite (Hl Hy). reflexivity. }
    pose proof (Hold l eq_refl) as Hl.
    destruct Hc as (Hn & Hsame & Hmo & Hf).
    assert (Hbase : forall o, (o = ODict [] \/ o = OList []) ->
                    copying (<[l := length h]> m) (h ++ [o])%list).
    { intros o Ho. apply copying_alloc; [|intros Hh; apply Hroot; auto|exact Ho].
      split; [exact Hn|]. split; [exact Hsame|]. split; [exact Hmo|exact Hf]. }
    rewrite (Hsame l Hl).
    destruct (h0 !! l) as [[items|items]|] eqn:Hobj; [| |discriminate].
    + destruct (copy_dict_items (deepcopy depth) (length h) items
                  (<[l := length h]> m) (h ++ [ODict []])%list) as [[m2 h2]|e] eqn:E;
        simpl; [|discriminate].
      intros [= <- <- <-].
      destruct (copy_dict_items_keeps (deepcopy depth) (length h) IH items _ _ m2 h2
                  (Hbase (ODict []) (or_introl eq_refl))) as [Hc2 Hle]; auto.
      * rewrite length_app. simpl. lia.
      * intros k x Hin. split.
        -- intros l1 ->. exact (Hclosed l _ Hobj k l1 Hin).
        -- intros -> ->. exact (Hshape l items Hobj Hin).
      * rewrite length_app in Hle. simpl in Hle.
        split; [exact Hc2|]. split; [lia|].
        intros y [= <-]. split; [exact Hn|].
        intros Hy. rewrite (Hroot Hy l eq_refl). reflexivity.
    + destruct (copy_list_items (deepcopy depth) (length h) items
                  (<[l := length h]> m) (h ++ [OList []])%list) as [[m2 h2]|e] eqn:E;
        simpl; [|discriminate].
      intros [= <- <- <-].
      destruct (copy_list_items_keeps (deepcopy depth) (length h) IH items _ _ m2 h2
                  (Hbase (OList []) (or_intror eq_refl))) as [Hc2 Hle];
        auto.
      * rewrite length_app. simpl. lia.
      * intros x Hin l1 ->. exact (Hclosed l _ Hobj l1 Hin).
      * rewrite length_app in Hle. simpl in Hle.
        split; [exact Hc2|]. split; [lia|].
        intros y [= <-]. split; [exact Hn|].
        intros Hy. rewrite (Hroot Hy l eq_refl). reflexivity.
Qed.

(** ** While updating the copy *)

(** The copy sits at [d]: what it holds are scalars and new objects, and
    no new dict has the copy, or an old object, as its [inputs]. *)
Definition updating (d : loc) (h : heap) : Prop :=
  (n0 <= d)%nat /\ (d < length h)%nat /\ old_same h /\
  (forall items k x, h !! d = Some (ODict items) -> In (k, HRef x) items ->
                     (n0 <= x)%nat) /\
  (forall l items x, (n0 <= l)%nat -> h !! l = Some (ODict items) ->
                     In ("inputs", HRef x) items -> (n0 <= x)%nat /\ x <> d).

Definition prepared (workflow : hval) (h : heap) : Prop :=
  old_same h /\ forall d, workflow = HRef d -> updating d h.

Lemma updating_store d h x key v :
  updating d h -> (n0 <= x)%nat -> x <> d -> key <> "inputs" ->
  updating d (dict_store h x key v).
Proof.
  intros (Hd & Hlen & Hsame & Hroot & Hin) Hx Hxd Hkey.
  split; [exact Hd|]. split; [rewrite dict_store_length; exact Hlen|].
  split; [intros l Hl; rewrite dict_store_other by lia; auto|].
  split.
  - intros items k x0. rewrite dict_store_other by auto. apply Hroot.
  - intros l items x0 Hl Hlook Hinp.
    destruct (decide (l = x)) as [->|Hne].
    + apply dict_store_at in Hlook as (items0 & Hlook & [->| ->]).
      * eapply Hin; eauto.
      * apply In_dict_set in Hinp as [[Hk _]|Hinp]; [congruence|].
        eapply Hin; eauto.
    + rewrite dict_store_other in Hlook by exact Hne. eapply Hin; eauto.
Qed.

Lemma updating_alloc d h :
  updating d h -> updating d (h ++ [ODict []])%list.
Proof.
  intros (Hd & Hlen & Hsame & Hroot & Hin).
  split; [exact Hd|]. split; [rewrite length_app; simpl; lia|].
  split; [intros l Hl; rewrite lookup_app_l by lia; auto|].
  split.
  - intros items k x. rewrite lookup_app_l by lia. apply Hroot.
  - intros l items x Hl Hlook Hinp.
    destruct (decide (l < length h)%nat) as [Hlt|Hge].
    + rewrite lookup_app_l in Hlook by exact Hlt. eapply Hin; eauto.
    + rewrite lookup_app_r in Hlook by lia.
      destruct (l - length h)%nat; simpl in Hlook; [|discriminate].
      inversion Hlook; subst. destruct Hinp.
Qed.

Lemma hsetitem_keeps d h c key v :
  updating d h ->
  (forall x, c = HRef x -> (n0 <= x)%nat /\ x <> d) ->
  key <> "inputs" ->
  updating d (fst (hsetitem h c key v)).
Proof.
  intros Hu Hc Hkey. unfold hsetitem.
  destruct c as [| b | z | f | s | x]; try exact Hu.
  destruct (Hc x eq_refl) as [Hx Hxd].
  destruct (h !! x) as [[items|items]|]; try exact Hu.
  cbn [fst]. apply updating_store; auto.
Qed.

Lemma get_inputs_keeps d h n node :
  updating d h -> (n0 <= n)%nat -> h !! n = Some (ODict node) ->
  updating d (fst (get_inputs h node)) /\
  (forall x, snd (get_inputs h node) = HRef x -> (n0 <= x)%nat /\ x <> d).
Proof.
  intros Hu Hn Hlook. unfold get_inputs.
  destruct (assoc "inputs" node) as [v|] eqn:Ha; cbn [fst snd alloc].
  - split; [exact Hu|]. intros x ->. apply assoc_In in Ha.
    destruct Hu as (_ & _ & _ & _ & Hin). eapply Hin; eauto.
  - split; [apply updating_alloc; exact Hu|].
    intros x [= <-]. destruct Hu as (Hd & Hlen & _). lia.
Qed.

Lemma as_dict_fresh h node_data node :
  as_dict h node_data = Some node ->
  exists n, node_data = HRef n /\ h !! n = Some (ODict node).
Proof.
  unfold as_dict. destruct node_data as [| | | | |n]; try discriminate.
  destruct (h !! n) as [[items|items]|] eqn:E; try discriminate.
  intros [= <-]. eauto.
Qed.

Lemma update_node_keeps py_str d param_name target_class target_input
  is_negative override_value h node_id node_data :
  target_input <> "inputs" ->
  updating d h ->
  (forall n, node_data = HRef n -> (n0 <= n)%nat) ->
  updating d (fst (update_node py_str param_name target_class target_input
                     is_negative override_value h node_id node_data)).
Proof.
  intros Hkey Hu Hfresh. unfold update_node.
  destruct (as_dict h node_data) as [node|] eqn:Hd; [|exact Hu].
  apply as_dict_fresh in Hd as (n & -> & Hlook).
  destruct (match target_class with Some _ => _ | None => _ end); [exact Hu|].
  destruct (get_inputs_keeps d h n node Hu (Hfresh n eq_refl) Hlook) as [Hu1 Hinp].
  destruct (get_inputs h node) as [h1 inputs]. cbn [fst snd] in *.
  destruct (hcontains h1 target_input inputs) as [[]|e]; try exact Hu1.
  repeat match goal with
         | |- context [if ?b then _ else _] => destruct b
         end; try exact Hu1; apply hsetitem_keeps; auto.
Qed.

Lemma seed_node_keeps d seed h node_id node_data :
  updating d h ->
  (forall n, node_data = HRef n -> (n0 <= n)%nat) ->
  updating d (fst (seed_node seed h node_id node_data)).
Proof.
  intros Hu Hfresh. unfold seed_node.
  destruct (as_dict h node_data) as [node|] eqn:Hd; [|exact Hu].
  apply as_dict_fresh in Hd as (n & -> & Hlook).
  destruct (hval_is_str _ _); [|exact Hu].
  destruct (get_inputs_keeps d h n node Hu (Hfresh n eq_refl) Hlook) as [Hu1 Hinp].
  destruct (get_inputs h node) as [h1 inputs]. cbn [fst snd] in *.
  apply hsetitem_keeps; [exact Hu1 | exact Hinp | discriminate].
Qed.

Section Loops.

Variable body : heap -> string -> hval -> heap * result unit.
Variable d : loc.

Hypothesis body_keeps : forall h k v,
  updating d h -> (forall n, v = HRef n -> (n0 <= n)%nat) ->
  updating d (fst (body h k v)).

Lemma for_items_from_keeps size : forall remaining i h,
  updating d h -> updating d (fst (for_items_from body d size remaining i h)).
Proof.
  induction remaining as [|remaining IH]; intros i h Hu; simpl.
  - destruct (h !! d) as [[items|items]|]; try exact Hu.
    destruct (negb _); exact Hu.
  - destruct (h !! d) as [[items|items]|] eqn:Hlook; try exact Hu.
    destruct (negb _); [exact Hu|].
    destruct (items !! i) as [[k v]|] eqn:Hi; [|exact Hu].
    assert (Hv : forall n, v = HRef n -> (n0 <= n)%nat).
    { intros n ->. destruct Hu as (_ & _ & _ & Hroot & _).
      eapply Hroot; eauto. apply list_elem_of_In.
      eapply list_elem_of_lookup_2. exact Hi. }
    pose proof (body_keeps h k v Hu Hv) as Hu'.
    destruct (body h k v) as [h' [u|e]]; cbn [fst] in *; auto.
Qed.

Lemma for_items_keeps h :
  updating d h -> updating d (fst (for_items body h (HRef d))).
Proof.
  intros Hu. unfold for_items.
  destruct (h !! d) as [[items|items]|]; try exact Hu.
  apply for_items_from_keeps. exact Hu.
Qed.

End Loops.

Lemma for_items_prepared body workflow h :
  (forall d, workflow = HRef d -> forall h k v,
     updating d h -> (forall n, v = HRef n -> (n0 <= n)%nat) ->
     updating d (fst (body h k v))) ->
  prepared workflow h -> prepared workflow (fst (for_items body h workflow)).
Proof.
  intros Hbody [Hsame Hu].
  destruct workflow as [| | | | |x]; try (split; assumption).
  pose proof (for_items_keeps body x (Hbody x eq_refl) h (Hu x eq_refl)) as Hu'.
  split.
  - destruct Hu' as (_ & _ & Hs & _). exact Hs.
  - intros y [= <-]. exact Hu'.
Qed.

Lemma update_params_prepared py_str workflow : forall param_overrides h,
  prepared workflow h ->
  prepared workflow (fst (update_params py_str workflow param_overrides h)).
Proof.
  induction param_overrides as [|[param_name override_value] rest IH]; intros h Hp.
  - exact Hp.
  - cbn [update_params]. destruct (assoc param_name param_mappings)
      as [[[target_class target_input] is_negative]|] eqn:Hmap; [|apply IH; exact Hp].
    pose proof (param_mappings_input_key _ _ _ _ Hmap) as Hkey.
    pose proof (for_items_prepared
                  (update_node py_str param_name target_class target_input
                     is_negative override_value) workflow h
                  (fun d _ h k v => update_node_keeps py_str d param_name target_class
                     target_input is_negative override_value h k v Hkey) Hp) as Hp'.
    destruct (for_items _ h workflow) as [h' [u|e]]; cbn [fst] in *.
    + apply IH. exact Hp'.
    + exact Hp'.
Qed.

Lemma update_workflow_params_prepared py_str workflow param_overrides h :
  prepared workflow h ->
  prepared workflow (fst (_update_workflow_params py_str workflow param_overrides h)) /\
  forall w, snd (_update_workflow_params py_str workflow param_overrides h) = Ok w ->
            w = workflow.
Proof.
  intros Hp. unfold _update_workflow_params.
  pose proof (update_params_prepared py_str workflow param_overrides h Hp) as Hp'.
  destruct (update_params py_str workflow param_overrides h) as [h' [u|e]];
    cbn [fst snd] in *; split; auto; congruence.
Qed.

Lemma seed_loop_prepared s workflow h :
  prepared workflow h ->
  prepared workflow
    (fst (match for_items (seed_node s) h workflow with
          | (h', Ok _) => (h', Ok workflow)
          | (h', Raise e) => (h', Raise e)
          end)).
Proof.
  intros Hp.
  pose proof (for_items_prepared (seed_node s) workflow h
                (fun d _ h1 k v => seed_node_keeps d s h1 k v) Hp) as Hl.
  destruct (for_items (seed_node s) h workflow) as [h' [u|e]]; exact Hl.
Qed.

Lemma update_seed_prepared random_seed workflow seed h :
  prepared workflow h ->
  prepared workflow (fst (_update_seed random_seed workflow seed h)).
Proof.
  intros Hp. unfold _update_seed.
  destruct seed as [[|p|[p|p|]]|]; cbv zeta;
    try exact Hp; apply seed_loop_prepared; exact Hp.
Qed.

(** The copy of the stored workflow is ready to be updated. *)
Lemma deepcopy_prepared depth original workflow m h1 :
  (forall l, original = HRef l -> l = r) ->
  deepcopy depth ∅ h0 original = Ok (workflow, m, h1) ->
  prepared workflow h1.
Proof.
  intros Hr.
  assert (Hstart : copying ∅ h0).
  { split; [unfold n0; lia|]. split; [intros l _; reflexivity|].
    split; [intros l y; rewrite lookup_empty; discriminate|].
    intros l items k x Hl Hlook. apply lookup_lt_Some in Hlook. unfold n0 in Hl. lia. }
  destruct original as [| b | z | f | s | l];
    try (destruct depth; simpl; intros H; inversion H; subst;
         (split; [intros l _; reflexivity | discriminate])).
  rewrite (Hr l eq_refl). clear Hr.
  destruct depth as [|depth]; simpl; rewrite lookup_empty; [discriminate|].
  assert (Hfinish : forall m2 h2,
            copying m2 h2 -> (length (h0 ++ [ODict []]) <= length h2)%nat ->
            prepared (HRef (length h0)) h2).
  { intros m2 h2 (Hn & Hsame & Hmo & Hf) Hle.
    rewrite length_app in Hle. simpl in Hle.
    split; [exact Hsame|]. intros d [= <-].
    split; [unfold n0; lia|]. split; [lia|]. split; [exact Hsame|].
    split.
    - intros items k x Hlook Hin.
      destruct (Hf (length h0) items k x (le_n _) Hlook Hin) as [Hx _]. exact Hx.
    - intros l0 items x Hl Hlook Hin.
      destruct (Hf l0 items "inputs" x Hl Hlook Hin) as [Hx Hne].
      split; [exact Hx | exact (Hne eq_refl)]. }
  destruct (h0 !! r) as [[items|items]|] eqn:Hobj; [| |discriminate].
  - destruct (copy_dict_items _ _ _ _ _) as [[m2 h2]|e] eqn:E; simpl; [|discriminate].
    intros [= <- <- <-].
    destruct (copy_dict_items_keeps (deepcopy depth) (length h0)
                (deepcopy_keeps_all depth) items _ _ m2 h2
                (copying_alloc ∅ h0 r (ODict []) Hstart (fun _ => eq_refl)
                   (or_introl eq_refl))) as [Hc2 Hle]; auto.
    + rewrite length_app. simpl. unfold n0. lia.
    + intros k x Hin. split.
      * intros l1 ->. exact (Hclosed r _ Hobj k l1 Hin).
      * intros -> ->. exact (Hshape r items Hobj Hin).
    + eapply Hfinish; eauto.
  - destruct (copy_list_items _ _ _ _ _) as [[m2 h2]|e] eqn:E; simpl; [|discriminate].
    intros [= <- <- <-].
    destruct (copy_list_items_keeps (deepcopy depth) (length h0)
                (deepcopy_keeps_all depth) items _ _ m2 h2
                (copying_alloc ∅ h0 r (OList []) Hstart (fun _ => eq_refl)
                   (or_intror eq_refl))) as [Hc2 Hle]; auto.
    + rewrite length_app. simpl. unfold n0. lia.
    + intros x Hin l1 ->. exact (Hclosed r _ Hobj l1 Hin).
    + rewrite length_app in Hle. simpl in Hle.
      assert (Hfin : prepared (HRef (length h0)) h2).
      { apply (Hfinish m2 h2 Hc2). rewrite length_app. simpl. lia. }
      exact Hfin.
Qed.

Lemma prepare_old_same py_str random_seed depth original seed param_overrides :
  (forall l, original = HRef l -> l = r) ->
  old_same (fst (prepare py_str random_seed depth original seed param_overrides h0)).
Proof.
  intros Hr. unfold prepare.
  destruct (deepcopy depth ∅ h0 original) as [[[workflow m] h1]|e] eqn:E;
    [|intros l _; reflexivity].
  pose proof (deepcopy_prepared depth original workflow m h1 Hr E) as Hp.
  assert (Hstep : forall h2 res,
            prepared workflow h2 ->
            (forall w, res = Ok w -> w = workflow) ->
            old_same (fst (match res with
                           | Raise e => (h2, Raise e)
                           | Ok workflow' =>
                               _update_seed random_seed workflow' seed h2
                           end))).
  { intros h2 [w|e] Hp2 Hw; cbn [fst].
    - rewrite (Hw w eq_refl). apply (update_seed_prepared random_seed workflow seed h2 Hp2).
    - apply Hp2. }
  destruct param_overrides as [[|o overrides]|].
  - apply (Hstep h1 (Ok workflow) Hp). congruence.
  - destruct (update_workflow_params_prepared py_str workflow (o :: overrides) h1 Hp)
      as [Hp2 Hw].
    destruct (_update_workflow_params py_str workflow (o :: overrides) h1) as [h2 res].
    apply (Hstep h2 res Hp2 Hw).
  - apply (Hstep h1 (Ok workflow) Hp). congruence.
Qed.

(** ** Reading the stored graph back *)

Lemma mapM_agree {A B} (f g : A -> option B) (l : list A) :
  (forall x, In x l -> f x = g x) -> mapM f l = mapM g l.
Proof.
  induction l as [|x l IH]; intros H; [reflexivity|].
  simpl. rewrite (H x (or_introl eq_refl)), IH; [reflexivity|].
  intros y Hy. apply H. right. exact Hy.
Qed.

(** A graph made of old objects reads the same on any heap that kept
    them. *)
Lemma snapshot_old_same h : old_same h ->
  forall depth v, (forall l, v = HRef l -> (l < n0)%nat) ->
    snapshot depth h v = snapshot depth h0 v.
Proof.
  intros Hsame. induction depth as [|depth IH]; intros v Hv;
    destruct v as [| b | z | f | s | l]; try reflexivity.
  simpl. rewrite (Hsame l (Hv l eq_refl)).
  destruct (h0 !! l) as [[items|items]|] eqn:Hobj; [| |reflexivity].
  - f_equal. apply mapM_agree. intros [k x] Hin. simpl. f_equal.
    apply IH. intros l1 ->. exact (Hclosed l _ Hobj k l1 Hin).
  - f_equal. apply mapM_agree. intros x Hin.
    apply IH. intros l1 ->. exact (Hclosed l _ Hobj l1 Hin).
Qed.

End Frame.

(** What [regenerate] leaves of the heap it was called on. *)
Lemma regenerate_old_same
  py_str random_seed get_asset submit_and_register depth
  asset_id seed return_inline_preview param_overrides h :
  closed h ->
  (forall a l, get_asset asset_id = Some a -> submitted_workflow a = HRef l ->
               not_inputs h l) ->
  old_same h
    (fst (regenerate py_str random_seed get_asset submit_and_register depth
            asset_id seed return_inline_preview param_overrides h)).
Proof.
  intros Hclosed Hshape. unfold regenerate.
  destruct (get_asset asset_id) as [a|] eqn:Ha; [|intros l _; reflexivity].
  destruct (negb _); [intros l _; reflexivity|].
  assert (Hold : old_same h
                   (fst (prepare py_str random_seed depth (submitted_workflow a) seed
                           param_overrides h))).
  { destruct (submitted_workflow a) as [| b | z | f | s | x] eqn:Hw.
    1-5: apply (prepare_old_same h (length h) Hclosed); try discriminate;
         intros l0 items Hl0 Hin;
         pose proof (Hclosed l0 _ Hl0 "inputs" (length h) Hin); lia.
    apply (prepare_old_same h x Hclosed (Hshape a x eq_refl Hw)). congruence. }
  destruct (prepare _ _ _ _ _ _ _) as [h' [workflow|e]]; cbn [fst] in *.
  - destruct (submit_and_register _ _ _ _ _); exact Hold.
  - exact Hold.
Qed.

(** C10.  On a heap without dangling references where the stored
    workflow is not itself the [inputs] of some node (a graph that was
    submitted went through JSON, so it is so), [regenerate] leaves every
    object that existed when it was called as it was, whatever the seed
    and the overrides, and whether the call succeeds or fails: the
    overrides and the seed are written to objects allocated by the deep
    copy.  So the stored workflow of the asset reads the same before and
    after, and a later call starts from the same graph. *)
Theorem regenerate_leaves_stored_workflow
  py_str random_seed get_asset submit_and_register depth
  asset_id seed return_inline_preview param_overrides h :
  closed h ->
  (forall a l, get_asset asset_id = Some a -> submitted_workflow a = HRef l ->
               not_inputs h l) ->
  let h' := fst (regenerate py_str random_seed get_asset submit_and_register depth
                   asset_id seed return_inline_preview param_overrides h) in
  (forall l o, h !! l = Some o -> h' !! l = Some o) /\
  (forall a levels, get_asset asset_id = Some a ->
     (forall l, submitted_workflow a = HRef l -> (l < length h)%nat) ->
     snapshot levels h' (submitted_workflow a)
     = snapshot levels h (submitted_workflow a)).
Proof.
  intros Hclosed Hshape h'.
  pose proof (regenerate_old_same py_str random_seed get_asset submit_and_register
                depth asset_id seed return_inline_preview param_overrides h
                Hclosed Hshape) as Hold.
  fold h' in Hold. split.
  - intros l o Hlook. rewrite <- Hlook. apply Hold.
    apply lookup_lt_Some in Hlook. exact Hlook.
  - intros a levels Ha Hw. apply (snapshot_old_same h Hclosed h' Hold). exact Hw.
Qed.

(** ** Concrete runs *)

(** A stored text-to-image graph: one sampler node. *)
Definition stored_heap : heap :=
  [ODict [("3", HRef 1%nat)];
   ODict [("class_type", HStr "KSampler"); ("inputs", HRef 2%nat)];
   ODict [("seed", HInt 1); ("steps", HInt 20)]].

Definition stored_asset : asset :=
  {| submitted_workflow := HRef 0%nat;
     workflow_id := Some "generate_image";
     session_id := VNone |}.

Definition one_asset (asset_id : string) : option asset :=
  if String.eqb asset_id "a1" then Some stored_asset else None.

Definition still_running (h : heap) (workflow : hval)
  (output_preferences : option (list string)) (a : asset) (preview : bool)
  : result value :=
  Ok (ComfyClient.pending_handle "p-2").

(** Seed and steps land in the copy at addresses 3 to 5; the stored
    graph at addresses 0 to 2 is as before. *)
Example regenerate_writes_to_the_copy :
  regenerate (fun _ _ => "") 7 one_asset still_running 100 "a1" (Some 42) false
    (Some [("steps", HInt 30)]) stored_heap
  = (stored_heap ++
       [ODict [("3", HRef 4%nat)];
        ODict [("class_type", HStr "KSampler"); ("inputs", HRef 5%nat)];
        ODict [("seed", HInt 42); ("steps", HInt 30)]],
     ComfyClient.pending_handle "p-2")%list.
Proof. vm_compute. reflexivity. Qed.

(** Without the copy, the same update changes the stored graph. *)
Example update_seed_in_place :
  fst (_update_seed 7 (HRef 0%nat) (Some 42) stored_heap) !! 2%nat
  = Some (ODict [("seed", HInt 42); ("steps", HInt 20)]).
Proof. vm_compute. reflexivity. Qed.

Lemma stored_heap_closed : closed stored_heap.
Proof.
  intros l o Hl.
  destruct l as [|[|[|l]]]; simpl in Hl; inversion Hl; subst; simpl;
    intros k x Hin;
    repeat (destruct Hin as [Hin|Hin]; [inversion Hin; subst; lia|]);
    destruct Hin.
Qed.

Lemma stored_heap_shape : not_inputs stored_heap 0%nat.
Proof.
  intros l items Hl Hin.
  destruct l as [|[|[|l]]]; simpl in Hl; inversion Hl; subst;
    repeat (destruct Hin as [Hin|Hin]; [discriminate Hin|]);
    destruct Hin.
Qed.

Lemma regenerate_leaves_stored_workflow_witness :
  closed stored_heap /\
  fst (regenerate (fun _ _ => "") 7 one_asset still_running 100 "a1" (Some 42) false
         (Some [("steps", HInt 30)]) stored_heap) !! 2%nat
  = Some (ODict [("seed", HInt 1); ("steps", HInt 20)]).
Proof.
  split; [exact stored_heap_closed|].
  refine (proj1 (regenerate_leaves_stored_workflow (fun _ _ => "") 7 one_asset
                   still_running 100 "a1" (Some 42) false
                   (Some [("steps", HInt 30)]) stored_heap
                   stored_heap_closed _) 2%nat _ eq_refl).
  intros a l Ha Hw. vm_compute in Ha. inversion Ha; subst. simpl in Hw.
  inversion Hw; subst. exact stored_heap_shape.
Defined.

End RegenerateFacts.
(* ===================================================================== *)
(** * More facts about tools/job.py                                       *)
(* ===================================================================== *)

Module QueueFacts.
Import Py Job JobTools.
Import JobFacts(history_only, find_entry_hit, find_entry_miss,
                check_queue_unlisted, get_job_falls_through, idle_client,
                idle_client_unlisted).

(** ** Entries of a queue list *)

Lemma py_eq_str x s : py_eq x (VStr s) = true -> x = VStr s.
Proof.
  destruct x; simpl; try discriminate.
  intros H. apply String.eqb_eq in H. subst. reflexivity.
Qed.

(** An item equal to an entry for a job is an entry for that job. *)
Lemma is_entry_for_eq prompt_id y item :
  is_entry_for prompt_id item = true -> py_eq y item = true ->
  is_entry_for prompt_id y = true.
Proof.
  destruct item as [| | | | |[|a [|b r]]|]; simpl; try discriminate.
  intros Hb. apply py_eq_str in Hb. subst b.
  destruct y as [| | | | |[|a' [|b' r']]|]; simpl; try discriminate.
  - rewrite andb_false_r. discriminate.
  - intros H. apply andb_true_iff in H as [_ H].
    apply andb_true_iff in H as [H _]. exact H.
Qed.

Lemma find_entry_first prompt_id l : forall n i item,
  find_entry prompt_id l n = Some (i, item) ->
  exists j, i = (n + j)%nat /\ l !! j = Some item /\
            is_entry_for prompt_id item = true /\
            forall j' x, (j' < j)%nat -> l !! j' = Some x ->
                         is_entry_for prompt_id x = false.
Proof.
  induction l as [|y l IH]; intros n i item; simpl; [discriminate|].
  destruct (is_entry_for prompt_id y) eqn:E.
  - intros [= <- <-]. exists 0%nat.
    split; [lia|]. split; [reflexivity|]. split; [exact E|].
    intros j' x Hj'. lia.
  - intros H. destruct (IH (S n) i item H) as (j & -> & Hj & He & Hbefore).
    exists (S j).
    split; [lia|]. split; [exact Hj|]. split; [exact He|].
    intros [|j'] x Hj' Hx; simpl in Hx.
    + inversion Hx; subst. exact E.
    + apply (Hbefore j' x); [lia | exact Hx].
Qed.

(** [queue_pending.index(item)] is the place of the first entry for the
    job when [item] is that entry. *)
Lemma index_upto_first prompt_id item : forall l j,
  l !! j = Some item ->
  is_entry_for prompt_id item = true ->
  (forall j' x, (j' < j)%nat -> l !! j' = Some x ->
                is_entry_for prompt_id x = false) ->
  index_upto l item j = j.
Proof.
  induction l as [|y l IH]; intros [|j] Hj He Hbefore; simpl in *;
    try reflexivity; try discriminate.
  destruct (py_eq y item) eqn:E.
  - pose proof (is_entry_for_eq prompt_id y item He E) as Hy.
    rewrite (Hbefore 0%nat y) in Hy by (lia || reflexivity). discriminate.
  - f_equal. apply IH; auto.
    intros j' x Hj' Hx. apply (Hbefore (S j') x); [lia | exact Hx].
Qed.

(** A list the snapshot keeps under [key] is what the loop over that key
    visits. *)
Lemma queue_list_iter c key l :
  queue_list c key = Some l ->
  exists d, get_queue c = Ok (VDict d) /\
            iter (match assoc key d with Some v => v | None => VList [] end) = Ok l.
Proof.
  unfold queue_list. destruct (get_queue c) as [q|]; [|discriminate].
  destruct q; try discriminate. intros H. exists d. split; [reflexivity|].
  destruct (assoc key d) as [v|]; [destruct v; try discriminate|];
    inversion H; reflexivity.
Qed.


(** ** The shape of every answer *)

Definition statuses : list string :=
  ["completed"; "running"; "queued"; "processing"; "error"; "not_found"].

(** An answer that names one of the six statuses and echoes the id. *)
Definition well_formed (prompt_id : string) (response : value) : Prop :=
  (exists s, status_of response = Some (VStr s) /\ In s statuses) /\
  getitem response "prompt_id" = Ok (VStr prompt_id).

Ltac well_formed_literal :=
  split; [eexists; split; [reflexivity | simpl; tauto] | reflexivity].

Lemma check_queue_answers c prompt_id response :
  check_queue c prompt_id = Ok (Some response) ->
  (exists item, response = running_response prompt_id item) \/
  (exists position, response = queued_response prompt_id position).
Proof.
  unfold check_queue.
  destruct (get_queue c) as [q|]; simpl; [|discriminate].
  destruct (get q "queue_running" (VList [])) as [qr|]; simpl; [|discriminate].
  destruct (get q "queue_pending" (VList [])) as [qp|]; simpl; [|discriminate].
  destruct (iter qr) as [ri|]; simpl; [|discriminate].
  destruct (find_entry prompt_id ri 0) as [[i item]|].
  - intros [= <-]. left; eauto.
  - destruct (iter qp) as [pi|]; simpl; [|discriminate].
    destruct (find_entry prompt_id pi 0) as [[i item]|]; [|discriminate].
    intros [= <-]. right; eauto.
Qed.

Lemma check_history_answers py_str c prompt_id response :
  check_history py_str c prompt_id = Ok response ->
  well_formed prompt_id response.
Proof.
  unfold check_history.
  repeat match goal with
         | |- context [bind ?r _] =>
             let x := fresh "x" in destruct r as [x|]; simpl;
             [|discriminate]
         | |- context [if ?b then _ else _] => destruct b
         | |- context [match ?h with VDict _ => _ | _ => _ end] => destruct h
         | |- context [match ?d with [] => _ | _ :: _ => _ end] => destruct d
         end;
    try discriminate; intros [= <-]; well_formed_literal.
Qed.

(** X2.  Whatever the id and whatever the backend answers, [get_job]
    returns a response that names one of the six documented statuses and
    echoes the id it was asked about; to get there it sends nothing (a
    blank id), the queue request alone, or the queue request followed by
    one history request for that id. *)
Theorem get_job_answer_shape py_str c prompt_id :
  well_formed prompt_id (snd (get_job py_str c prompt_id)) /\
  (fst (get_job py_str c prompt_id) = [] /\ blank prompt_id = true \/
   blank prompt_id = false /\
   (fst (get_job py_str c prompt_id) = [GetQueue] \/
    fst (get_job py_str c prompt_id) = [GetQueue; GetHistory prompt_id])).
Proof.
  unfold get_job. destruct (blank prompt_id) eqn:Hb.
  - split; [well_formed_literal | left; auto].
  - unfold get_job_body.
    destruct (check_queue c prompt_id) as [[response|]|e] eqn:Hq; cbn [fst snd].
    + split; [|right; auto].
      destruct (check_queue_answers c prompt_id response Hq) as [[item ->]|[p ->]];
        well_formed_literal.
    + split; [|right; auto].
      destruct (check_history py_str c prompt_id) as [response|e] eqn:Hh.
      * exact (check_history_answers py_str c prompt_id response Hh).
      * well_formed_literal.
    + split; [|right; auto].
      destruct (check_history py_str c prompt_id) as [response|e'] eqn:Hh.
      * exact (check_history_answers py_str c prompt_id response Hh).
      * well_formed_literal.
Qed.



(** ** [get_queue_status] *)

(** A backend with one running and two pending jobs. *)
Definition busy_client : client :=
  Client (Ok (VDict [("queue_running", VList [VList [VInt 7; VStr "job-1"]]);
                     ("queue_pending",
                      VList [VList [VInt 8; VStr "job-2"];
                             VList [VInt 9; VStr "job-3"]])]))
         (fun _ => Ok (VDict [])).


Lemma py_len_zero v : py_len v = Ok 0 -> iter v = Ok [].
Proof.
  destruct v; simpl; try discriminate.
  - destruct s; [reflexivity|]. simpl. discriminate.
  - destruct l; [reflexivity|]. simpl. discriminate.
  - destruct d; [reflexivity|]. simpl. discriminate.
Qed.

(** X4.  When [get_queue_status] reports success, its two counts are the
    lengths of the two lists it carries; when it fails, the answer holds
    an [error] text and nothing else, in particular no [status]. *)
Theorem get_queue_status_coherent c :
  let response := get_queue_status c in
  (exists running pending n m,
     response = VDict [("status", VStr "success");
                       ("queue_running", running);
                       ("queue_pending", pending);
                       ("running_count", VInt n);
                       ("pending_count", VInt m)] /\
     py_len running = Ok n /\ py_len pending = Ok m /\ 0 <= n /\ 0 <= m) \/
  (exists text, response = VDict [("error", VStr text)] /\
                status_of response = None).
Proof.
  unfold get_queue_status.
  destruct (get_queue c) as [q|e]; simpl; [|right; eexists; split; reflexivity].
  destruct (get q "queue_running" (VList [])) as [qr|e]; simpl;
    [|right; eexists; split; reflexivity].
  destruct (get q "queue_pending" (VList [])) as [qp|e]; simpl;
    [|right; eexists; split; reflexivity].
  destruct (py_len qr) as [n|e] eqn:Hn; simpl;
    [|right; eexists; split; reflexivity].
  destruct (py_len qp) as [m|e] eqn:Hm; simpl;
    [|right; eexists; split; reflexivity].
  left. exists qr, qp, n, m. repeat split; auto.
  - destruct qr; simpl in Hn; inversion Hn; lia.
  - destruct qp; simpl in Hm; inversion Hm; lia.
Qed.

(** X5.  The two tools agree on an idle backend: when [get_queue_status]
    reports success with both counts at zero, [get_job] finds no job in
    the queue and answers any non-blank id from the history alone. *)
Theorem empty_queue_status_then_history py_str c prompt_id :
  status_of (get_queue_status c) = Some (VStr "success") ->
  getitem (get_queue_status c) "running_count" = Ok (VInt 0) ->
  getitem (get_queue_status c) "pending_count" = Ok (VInt 0) ->
  blank prompt_id = false ->
  get_job py_str c prompt_id =
    ([GetQueue; GetHistory prompt_id], history_only py_str c prompt_id).
Proof.
  intros Hs Hr Hp Hb. apply (get_job_falls_through py_str c prompt_id Hb).
  intros response. revert Hs Hr Hp. unfold get_queue_status, check_queue.
  destruct (get_queue c) as [q|e]; simpl; [|discriminate].
  destruct (get q "queue_running" (VList [])) as [qr|e]; simpl; [|discriminate].
  destruct (get q "queue_pending" (VList [])) as [qp|e]; simpl; [|discriminate].
  destruct (py_len qr) as [n|e] eqn:Hn; simpl; [|discriminate].
  destruct (py_len qp) as [m|e] eqn:Hm; simpl; [|discriminate].
  intros _ [= ->] [= ->].
  rewrite (py_len_zero qr Hn). simpl. rewrite (py_len_zero qp Hm). simpl.
  discriminate.
Qed.

Lemma empty_queue_status_then_history_witness :
  get_job type_name idle_client "job-9" =
    ([GetQueue; GetHistory "job-9"], history_only type_name idle_client "job-9").
Proof.
  apply (empty_queue_status_then_history type_name idle_client "job-9");
    reflexivity.
Defined.

(** ** The asset tools *)

(** The fields a listing entry and the metadata of an asset share. *)
Definition shared_fields : list string :=
  ["asset_id"; "asset_url"; "filename"; "subfolder"; "folder_type";
   "workflow_id"; "prompt_id"; "mime_type"; "width"; "height"; "bytes_size";
   "created_at"; "expires_at"].

(** X6.  [list_assets] and [get_asset_metadata] never disagree about an
    asset: the listing counts the records the registry returned, and each
    of the thirteen fields an entry shares with the metadata of its
    record reads the same in both. *)
Theorem listing_agrees_with_metadata
  base registry_list_assets registry_get_asset isoformat
  limit workflow_id session_id assets asset_id a :
  registry_list_assets limit workflow_id session_id = Ok assets ->
  registry_get_asset asset_id = Ok (Some a) ->
  In a assets ->
  exists entries,
    getitem (list_assets base registry_list_assets isoformat
               limit workflow_id session_id) "assets" = Ok (VList entries) /\
    getitem (list_assets base registry_list_assets isoformat
               limit workflow_id session_id) "count"
      = Ok (VInt (Z.of_nat (length assets))) /\
    length entries = length assets /\
    In (list_entry base isoformat a) entries /\
    forall k, In k shared_fields ->
      exists v,
        getitem (list_entry base isoformat a) k = Ok v /\
        getitem (get_asset_metadata base registry_get_asset isoformat asset_id) k
          = Ok v.
Proof.
  intros Hl Hg Hin. exists (map (list_entry base isoformat) assets).
  unfold list_assets. rewrite Hl. cbn [getitem assoc String.eqb Ascii.eqb Bool.eqb].
  rewrite length_map. repeat split; try reflexivity.
  - apply in_map. exact Hin.
  - intros k Hk. unfold get_asset_metadata. rewrite Hg.
    destruct (truthy (comfy_history a)), (truthy (submitted_workflow a));
      simpl in Hk;
      repeat (destruct Hk as [<-|Hk]; [eexists; split; reflexivity|]);
      destruct Hk.
Qed.

(** X7.  [get_asset_metadata] shows provenance only when there is some:
    the answer has a [comfy_history] entry exactly when the record holds
    a history that is not empty, a [submitted_workflow] entry exactly
    when it holds a workflow that is not empty, and then with the
    record's value; an id the registry does not know is answered with an
    error that names it. *)
Theorem get_asset_metadata_provenance
  base registry_get_asset isoformat asset_id :
  (forall a, registry_get_asset asset_id = Ok (Some a) ->
     get (get_asset_metadata base registry_get_asset isoformat asset_id)
         "comfy_history" VNone
       = Ok (if truthy (comfy_history a) then comfy_history a else VNone) /\
     contains_key "comfy_history"
       (get_asset_metadata base registry_get_asset isoformat asset_id)
       = Ok (truthy (comfy_history a)) /\
     get (get_asset_metadata base registry_get_asset isoformat asset_id)
         "submitted_workflow" VNone
       = Ok (if truthy (submitted_workflow a) then submitted_workflow a
             else VNone) /\
     contains_key "submitted_workflow"
       (get_asset_metadata base registry_get_asset isoformat asset_id)
       = Ok (truthy (submitted_workflow a)) /\
     contains_key "error"
       (get_asset_metadata base registry_get_asset isoformat asset_id)
       = Ok false) /\
  (registry_get_asset asset_id = Ok None ->
     exists text,
       getitem (get_asset_metadata base registry_get_asset isoformat asset_id)
               "error" = Ok (VStr text) /\
       contains asset_id text = true).
Proof.
  split.
  - intros a Hg. unfold get_asset_metadata. rewrite Hg.
    destruct (truthy (comfy_history a)), (truthy (submitted_workflow a));
      repeat split; reflexivity.
  - intros Hg. unfold get_asset_metadata. rewrite Hg. eexists.
    split; [reflexivity|].
    change ("Asset " ++ asset_id ++ " not found (registry is in-memory and resets on restart). Generate a new asset to regenerate.")
      with ("Asset " ++ (asset_id ++ " not found (registry is in-memory and resets on restart). Generate a new asset to regenerate.")).
    apply WorkflowManagerFacts.contains_app.
Qed.

(** A registry that holds one image whose history is empty. *)
Definition a_record : registry_asset :=
  {| asset_id := VStr "a1";
     asset_url := VNone;
     get_asset_url := fun base => VStr (base ++ "/view?filename=a.png");
     filename := VStr "a.png";
     subfolder := VStr "";
     folder_type := VStr "output";
     workflow_id := VStr "generate_image";
     prompt_id := VStr "p-1";
     mime_type := VStr "image/png";
     width := VInt 512;
     height := VInt 512;
     bytes_size := VInt 1024;
     created_at := 0;
     expires_at := Some 86400;
     session_id := VNone;
     metadata := VDict [("workflow_id", VStr "generate_image")];
     comfy_history := VDict [];
     submitted_workflow := VDict [("1", VDict [("class_type", VStr "KSampler")])] |}.

Definition lists_one (limit workflow_id session_id : value)
  : result (list registry_asset) := Ok [a_record].

Definition knows_one (asset_id : string) : result (option registry_asset) :=
  Ok (if String.eqb asset_id "a1" then Some a_record else None).

Definition seconds (t : Z) : string := if t =? 0 then "epoch" else "later".

Lemma listing_agrees_with_metadata_witness :
  getitem (list_assets "http://localhost:8188" lists_one seconds
             (VInt 10) VNone VNone) "count" = Ok (VInt 1).
Proof.
  destruct (listing_agrees_with_metadata "http://localhost:8188" lists_one
              knows_one seconds (VInt 10) VNone VNone [a_record] "a1" a_record
              eq_refl eq_refl (or_introl eq_refl)) as (entries & _ & Hc & _).
  exact Hc.
Defined.

Lemma get_asset_metadata_provenance_witness :
  contains_key "comfy_history"
    (get_asset_metadata "http://localhost:8188" knows_one seconds "a1")
    = Ok false /\
  contains_key "submitted_workflow"
    (get_asset_metadata "http://localhost:8188" knows_one seconds "a1")
    = Ok true.
Proof.
  destruct (proj1 (get_asset_metadata_provenance "http://localhost:8188"
                     knows_one seconds "a1") a_record eq_refl)
    as (_ & Hh & _ & Hw & _).
  split; [exact Hh | exact Hw].
Defined.

End QueueFacts.
(* ===================================================================== *)
(** * More facts about server.py                                          *)
(* ===================================================================== *)

Module StartupFacts.
Import Py Server Startup.
Import ServerFacts(probes, sleeps).

(** ** The availability probe *)

(** X8.  [check_comfyui_available] answers [True] exactly for a 200
    response whose body is a JSON object with no [CheckpointLoaderSimple]
    entry or with an object there.  It raises exactly for a 200 response
    whose JSON body is not an object: the [AttributeError] of [data.get]
    is none of the exceptions the function catches.  In every other case
    (a failed request, another status, a body that is not JSON, an entry
    that is not an object) it answers [False]. *)
Theorem check_comfyui_available_answers request :
  (check_comfyui_available request = Ok true <->
     exists d,
       request = Some {| status_code := 200; json := Some (VDict d) |} /\
       (assoc "CheckpointLoaderSimple" d = None \/
        exists info, assoc "CheckpointLoaderSimple" d = Some (VDict info))) /\
  (forall e,
     check_comfyui_available request = Raise e <->
     exists data,
       request = Some {| status_code := 200; json := Some data |} /\
       (forall d, data <> VDict d) /\
       e = Exn AttributeError
             ("'" ++ type_name data ++ "' object has no attribute 'get'")).
Proof.
  split; [|intros e]; split.
  - destruct request as [[code [data|]]|]; simpl; try discriminate.
    + destruct (Z.eqb_spec code 200) as [->|]; [|discriminate].
      destruct data; simpl; try discriminate.
      destruct (assoc "CheckpointLoaderSimple" d) as [info|] eqn:Ha.
      * destruct info; try discriminate. intros _. exists d. eauto.
      * intros _. exists d. auto.
    + destruct (code =? 200); discriminate.
  - intros (d & -> & [Ha|[info Ha]]); simpl; rewrite Ha; reflexivity.
  - destruct request as [[code [data|]]|]; simpl; try discriminate.
    + destruct (Z.eqb_spec code 200) as [->|]; [|discriminate].
      destruct data; simpl;
        try (intros [= <-]; eexists; split; [reflexivity|];
             split; [discriminate | reflexivity]).
      destruct (assoc "CheckpointLoaderSimple" d) as [[]|]; discriminate.
    + destruct (code =? 200); discriminate.
  - intros (data & -> & Hd & ->). simpl.
    destruct data; try reflexivity. exfalso. exact (Hd d eq_refl).
Qed.

(** ** Waiting *)

Definition total (delays : list Z) : Z := fold_right Z.add 0 delays.

Lemma attempts_total_sleep probe max_retries max_delay : forall remaining a d,
  0 <= d <= max_delay ->
  a + Z.of_nat remaining = max_retries + 1 ->
  Forall (fun s => 0 <= s <= max_delay)
    (sleeps (fst (attempts probe max_retries max_delay remaining a d))) /\
  total (sleeps (fst (attempts probe max_retries max_delay remaining a d)))
    <= Z.max 0 (Z.of_nat remaining - 1) * max_delay.
Proof.
  induction remaining as [|remaining IH]; intros a d Hd Ha.
  - simpl. split; [constructor | lia].
  - cbn [attempts]. destruct (probe a).
    + simpl. split; [constructor | nia].
    + destruct (Z.ltb_spec a max_retries) as [Hlt|Hge].
      * destruct (Z.ltb_spec d 0) as [Hneg|_]; [lia|].
        destruct (IH (a + 1) (Z.min (d * 2) max_delay)) as [Hall Hsum];
          [lia | lia |].
        destruct (attempts probe max_retries max_delay remaining (a + 1)
                    (Z.min (d * 2) max_delay)) as [events r].
        cbn [fst] in *. change (sleeps (Probe a :: Sleep d :: events))
          with (d :: sleeps events).
        split; [constructor; [lia | exact Hall]|].
        change (total (d :: sleeps events)) with (d + total (sleeps events)).
        nia.
      * destruct (IH (a + 1) d) as [Hall Hsum]; [lia | lia |].
        destruct (attempts probe max_retries max_delay remaining (a + 1) d)
          as [events r].
        cbn [fst] in *. change (sleeps (Probe a :: events)) with (sleeps events).
        split; [exact Hall | nia].
Qed.

(** X9.  With [0 <= initial_delay <= max_delay], the time
    [wait_for_comfyui] spends asleep is bounded: every sleep lies between
    0 and [max_delay], and all of them together last at most
    [(max_retries - 1) * max_delay]; with no retry allowed it does not
    sleep at all. *)
Theorem wait_for_comfyui_total_sleep probe max_retries initial_delay max_delay :
  0 <= initial_delay <= max_delay ->
  Forall (fun s => 0 <= s <= max_delay)
    (sleeps (fst (wait_for_comfyui probe max_retries max_delay initial_delay))) /\
  total (sleeps (fst (wait_for_comfyui probe max_retries max_delay initial_delay)))
    <= Z.max 0 (max_retries - 1) * max_delay.
Proof.
  intros Hd. unfold wait_for_comfyui.
  destruct (Z.le_gt_cases 0 max_retries) as [Hpos|Hneg].
  - destruct (attempts_total_sleep probe max_retries max_delay
                (Z.to_nat max_retries) 1 initial_delay Hd) as [Hall Hsum]; [lia|].
    split; [exact Hall|]. rewrite Z2Nat.id in Hsum by lia. exact Hsum.
  - replace (Z.to_nat max_retries) with 0%nat by lia. simpl.
    split; [constructor | lia].
Qed.

Lemma wait_for_comfyui_total_sleep_witness :
  total (sleeps (fst (wait_for_comfyui (fun _ => false) 5 16 2))) <= 64.
Proof.
  apply (wait_for_comfyui_total_sleep (fun _ => false) 5 2 16). lia.
Defined.

Lemma attempts_raise probe max_retries max_delay : forall remaining a d e,
  snd (attempts probe max_retries max_delay remaining a d) = Raise e ->
  e = sleep_error /\ (d < 0 \/ max_delay < 0).
Proof.
  induction remaining as [|remaining IH]; intros a d e; [discriminate|].
  cbn [attempts]. destruct (probe a); [discriminate|].
  destruct (a <? max_retries).
  - destruct (Z.ltb_spec d 0) as [Hneg|Hpos].
    + intros [= <-]. auto.
    + pose proof (IH (a + 1) (Z.min (d * 2) max_delay) e) as IH'.
      destruct (attempts probe max_retries max_delay remaining (a + 1)
                  (Z.min (d * 2) max_delay)) as [events r].
      cbn [snd] in *. intros Hr. destruct (IH' Hr) as [He Hcase].
      split; [exact He | lia].
  - pose proof (IH (a + 1) d e) as IH'.
    destruct (attempts probe max_retries max_delay remaining (a + 1) d)
      as [events r].
    cbn [snd] in *. exact IH'.
Qed.


(** ** The start of the server *)

(** Arithmetic on literals, which [cbn] leaves alone. *)
Ltac eval_literals :=
  repeat match goal with
         | |- context [Z.add ?a ?b] =>
             let v := eval vm_compute in (Z.add a b) in
             progress change (Z.add a b) with v
         | |- context [Z.mul ?a ?b] =>
             let v := eval vm_compute in (Z.mul a b) in
             progress change (Z.mul a b) with v
         | |- context [Z.min ?a ?b] =>
             let v := eval vm_compute in (Z.min a b) in
             progress change (Z.min a b) with v
         | |- context [Z.ltb ?a ?b] =>
             let v := eval vm_compute in (Z.ltb a b) in
             progress change (Z.ltb a b) with v
         end.


End StartupFacts.
(* ===================================================================== *)
(** * More facts about tools/helpers.py                                   *)
(* ===================================================================== *)

Module ResponseFacts.
Import Py AssetRegistry Helpers.

(** [result.get("status") == "running"]: the result is a job handle. *)
Definition is_handle (result : value) : bool :=
  match get result "status" VNone with
  | Ok status => py_eq status (VStr "running")
  | Raise _ => false
  end.

(** A preview that cannot be made leaves no entry. *)
Lemma inline_preview_failed get_asset_url e reg asset_record asset_url :
  inline_preview get_asset_url (fun _ _ => Raise e) reg asset_record asset_url = [].
Proof. unfold inline_preview. destruct (existsb _ _); reflexivity. Qed.

(** X12.  A preview that fails never fails the request and never changes
    it: asking for an inline preview from an encoder that raises gives
    the same registry and the same answer as not asking for one, whatever
    encoder is then at hand. *)
Theorem preview_failure_is_harmless
  derive_id asset_url_of get_asset_url encode_preview now
  result workflow_id asset_registry tool_name session_id e :
  register_and_build_response derive_id asset_url_of get_asset_url
    (fun _ _ => Raise e) now result workflow_id asset_registry tool_name
    true session_id
  = register_and_build_response derive_id asset_url_of get_asset_url
      encode_preview now result workflow_id asset_registry tool_name
      false session_id.
Proof.
  unfold register_and_build_response.
  destruct (get result "status" VNone) as [status|e0]; [|reflexivity].
  destruct (py_eq status (VStr "running")); [reflexivity|].
  match goal with
  | |- context [match ?r with Ok _ => _ | Raise _ => _ end] =>
      destruct r as [d|e1]
  end; [|reflexivity].
  destruct (register_asset derive_id now asset_registry d) as [reg' asset_record].
  f_equal.
  destruct (if truthy (asset_url_of asset_record) then _ else _) as [u|];
    simpl; [|reflexivity].
  destruct (get result "prompt_id" VNone); simpl; [|reflexivity].
  rewrite inline_preview_failed. reflexivity.
Qed.

(** The steps of [register_and_build_response] once the result is known
    not to be a job handle. *)
Ltac open_response H :=
  unfold register_and_build_response, is_handle in *;
  destruct (get _ "status" VNone) as [?status|?e]; [|discriminate H];
  match goal with
  | Hh : py_eq ?s (VStr "running") = false |- _ => rewrite Hh in H
  end;
  match type of H with
  | context [match ?r with Ok _ => _ | Raise _ => _ end] =>
      destruct r as [?d|?e]
  end; [|discriminate H];
  destruct (register_asset _ _ _ _) as [?reg ?asset_record];
  injection H as ? H; subst;
  destruct (if truthy _ then _ else _) as [?u|]; simpl in H; [|discriminate H];
  destruct (get _ "prompt_id" VNone) as [?p|] eqn:?Hprompt; simpl in H;
    [|discriminate H];
  destruct (contains_key "image_base64" _) as [[]|]; simpl in H;
    [| |discriminate H];
  [destruct (getitem _ "image_base64"); simpl in H; [|discriminate H];
   destruct (get _ "image_mime_type" _); simpl in H; [|discriminate H]|];
  injection H as <-.

(** X13.  Every answer built for a finished job echoes the request: its
    [image_url] is its [asset_url], its [workflow_id] and [prompt_id]
    are those of the call and of the result, and it has a [tool] entry
    exactly when a tool name that is not empty was given. *)
Theorem response_echoes_request
  derive_id asset_url_of get_asset_url encode_preview now
  result workflow_id asset_registry tool_name return_inline_preview session_id
  asset_registry' response :
  is_handle result = false ->
  register_and_build_response derive_id asset_url_of get_asset_url
    encode_preview now result workflow_id asset_registry tool_name
    return_inline_preview session_id = (asset_registry', Ok response) ->
  (exists url, getitem response "asset_url" = Ok url /\
               getitem response "image_url" = Ok url) /\
  getitem response "workflow_id" = Ok (VStr workflow_id) /\
  getitem response "prompt_id" = get result "prompt_id" VNone /\
  get response "tool" VNone =
    Ok (match tool_name_set tool_name with
        | Some n => VStr n
        | None => VNone
        end).
Proof.
  intros Hh H. open_response H.
  all: split; [eexists; split; reflexivity|].
  all: split; [reflexivity|].
  all: split; [reflexivity|].
  all: unfold option_entry, inline_preview;
    destruct (tool_name_set tool_name); [reflexivity|];
    destruct return_inline_preview; [|reflexivity];
    destruct (existsb _ _); [|reflexivity];
    destruct (encode_preview _ _) as [[m b]|]; reflexivity.
Qed.

(** X14.  An inline preview is only made on request and only for the
    five image types: an answer that carries [inline_preview_base64] was
    asked for with [return_inline_preview], and its [mime_type] is one of
    the supported types. *)
Theorem inline_preview_only_for_images
  derive_id asset_url_of get_asset_url encode_preview now
  result workflow_id asset_registry tool_name return_inline_preview session_id
  asset_registry' response :
  is_handle result = false ->
  register_and_build_response derive_id asset_url_of get_asset_url
    encode_preview now result workflow_id asset_registry tool_name
    return_inline_preview session_id = (asset_registry', Ok response) ->
  contains_key "inline_preview_base64" response = Ok true ->
  return_inline_preview = true /\
  exists mime,
    getitem response "mime_type" = Ok mime /\
    existsb (py_eq mime) supported_types = true.
Proof.
  intros Hh H. open_response H.
  all: unfold option_entry, inline_preview;
    destruct (tool_name_set tool_name);
    (destruct return_inline_preview; [|discriminate]);
    (destruct (existsb _ _) eqn:Hm; [|discriminate]);
    intros _; (split; [reflexivity|]);
    eexists; (split; [reflexivity | exact Hm]).
Qed.

(** X15.  With a registry that registers what it is given,
    [register_and_build_response] fails in one way only, and before it
    registers anything: with an [AttributeError], when the result is not a
    dict or its [asset_metadata] is not one; the registry is then as it
    was.  On a dict whose [asset_metadata] is absent or a dict it always
    answers. *)
Theorem register_and_build_response_failure
  derive_id asset_url_of get_asset_url encode_preview now
  result workflow_id asset_registry tool_name return_inline_preview session_id :
  (forall asset_registry' e,
     register_and_build_response derive_id asset_url_of get_asset_url
       encode_preview now result workflow_id asset_registry tool_name
       return_inline_preview session_id = (asset_registry', Raise e) ->
     asset_registry' = asset_registry /\
     exn_cls e = AttributeError /\
     ((forall d, result <> VDict d) \/
      exists d v, result = VDict d /\ assoc "asset_metadata" d = Some v /\
                  forall m, v <> VDict m)) /\
  (forall d,
     result = VDict d ->
     assoc "asset_metadata" d = None \/
     (exists m, assoc "asset_metadata" d = Some (VDict m)) ->
     exists response,
       snd (register_and_build_response derive_id asset_url_of get_asset_url
              encode_preview now result workflow_id asset_registry tool_name
              return_inline_preview session_id) = Ok response).
Proof.
  assert (Hlate : forall d (descr : descriptor),
            exists response,
              snd (let (asset_registry', asset_record) :=
                     register_asset derive_id now asset_registry descr in
                   (asset_registry',
                    asset_url <-
                      (if truthy (asset_url_of asset_record)
                       then Ok (asset_url_of asset_record)
                       else get (VDict d) "asset_url" (VStr "")) ;;
                    prompt <- get (VDict d) "prompt_id" VNone ;;
                    let response_data :=
                      ([("asset_id", VStr (asset_id asset_record));
                        ("asset_url", asset_url);
                        ("image_url", asset_url);
                        ("filename", filename asset_record);
                        ("subfolder", subfolder asset_record);
                        ("folder_type", folder_type asset_record);
                        ("workflow_id", VStr workflow_id);
                        ("prompt_id", prompt);
                        ("mime_type", mime_type asset_record);
                        ("width", width asset_record);
                        ("height", height asset_record);
                        ("bytes_size", bytes_size asset_record)]
                       ++ option_entry "tool" tool_name
                       ++ (if return_inline_preview
                           then inline_preview get_asset_url encode_preview
                                  asset_registry' asset_record asset_url
                           else []))%list in
                    has_image <- contains_key "image_base64" (VDict d) ;;
                    if (has_image : bool) then
                      image <- getitem (VDict d) "image_base64" ;;
                      image_mime <- get (VDict d) "image_mime_type"
                                        (VStr "image/png") ;;
                      Ok (VDict (response_data ++
                                 [("image_base64", image);
                                  ("image_mime_type", image_mime)])%list)
                    else Ok (VDict response_data)))
              = Ok response).
  { intros d descr.
    destruct (register_asset derive_id now asset_registry descr)
      as [reg' asset_record]. cbn [snd].
    destruct (truthy (asset_url_of asset_record)); simpl;
      destruct (assoc "image_base64" d); simpl; eauto. }
  split.
  - intros asset_registry' e.
    destruct result as [| | | | | |d];
      try (intros [= <- <-]; split; [reflexivity|];
           split; [reflexivity|]; left; discriminate).
    unfold register_and_build_response.
    cbn [get]. destruct (py_eq _ (VStr "running")); [discriminate|].
    cbn [bind].
    destruct (assoc "asset_metadata" d) as [v|] eqn:Hmeta.
    + destruct v as [| | | | | |m];
        try (intros [= <- <-]; split; [reflexivity|];
             split; [reflexivity|]; right;
             eexists _, _; split; [reflexivity|];
             split; [exact Hmeta | discriminate]).
      cbn [get bind]. intros H.
      match type of H with
      | (let (_, _) := register_asset _ _ _ ?descr in _) = _ =>
          destruct (Hlate d descr) as [response Hr]
      end.
      match type of H with
      | ?X = _ => assert (Hr' : snd X = Ok response) by exact Hr
      end.
      rewrite H in Hr'. discriminate Hr'.
    + cbn [get bind assoc]. intros H.
      match type of H with
      | (let (_, _) := register_asset _ _ _ ?descr in _) = _ =>
          destruct (Hlate d descr) as [response Hr]
      end.
      match type of H with
      | ?X = _ => assert (Hr' : snd X = Ok response) by exact Hr
      end.
      rewrite H in Hr'. discriminate Hr'.
  - intros d -> Hmeta. unfold register_and_build_response.
    cbn [get]. destruct (py_eq _ (VStr "running")); [cbn [snd]; eauto|].
    cbn [bind].
    destruct Hmeta as [Hmeta|[m Hmeta]]; rewrite Hmeta; cbn [get bind assoc];
      apply Hlate.
Qed.

(** ** Concrete runs *)

Import HelpersFacts(no_preview, plain_id, fresh_registry).

(** The result of a finished image job. *)
Definition finished_result : value :=
  VDict [("asset_url", VStr "http://localhost:8188/view?filename=a.png");
         ("filename", VStr "a.png");
         ("subfolder", VStr "");
         ("folder_type", VStr "output");
         ("prompt_id", VStr "p-1");
         ("asset_metadata",
          VDict [("mime_type", VStr "image/png"); ("width", VInt 512);
                 ("height", VInt 512); ("bytes_size", VInt 1024)])].

Definition tiny_preview (url : value) (id : string) : result (string * string) :=
  Ok ("image/webp", "AAAA").

Definition finished_response : value :=
  VDict [("asset_id", VStr "id");
         ("asset_url", VStr "http://localhost:8188/view?filename=a.png");
         ("image_url", VStr "http://localhost:8188/view?filename=a.png");
         ("filename", VStr "a.png");
         ("subfolder", VStr "");
         ("folder_type", VStr "output");
         ("workflow_id", VStr "generate_image");
         ("prompt_id", VStr "p-1");
         ("mime_type", VStr "image/png");
         ("width", VInt 512);
         ("height", VInt 512);
         ("bytes_size", VInt 1024);
         ("tool", VStr "generate_image");
         ("inline_preview_base64", VStr "data:image/webp;base64,AAAA");
         ("inline_preview_mime_type", VStr "image/webp")].

Lemma finished_run :
  snd (register_and_build_response plain_id (fun _ => VNone) (fun _ _ => VNone)
         tiny_preview 0 finished_result "generate_image" fresh_registry
         (Some "generate_image") true VNone) = Ok finished_response.
Proof. vm_compute. reflexivity. Qed.

Lemma response_echoes_request_witness :
  getitem finished_response "workflow_id" = Ok (VStr "generate_image") /\
  get finished_response "tool" VNone = Ok (VStr "generate_image").
Proof.
  destruct (response_echoes_request plain_id (fun _ => VNone) (fun _ _ => VNone)
              tiny_preview 0 finished_result "generate_image" fresh_registry
              (Some "generate_image") true VNone
              (fst (register_and_build_response plain_id (fun _ => VNone)
                      (fun _ _ => VNone) tiny_preview 0 finished_result
                      "generate_image" fresh_registry (Some "generate_image")
                      true VNone))
              finished_response eq_refl)
    as (_ & Hw & _ & Ht).
  - vm_compute. reflexivity.
  - split; [exact Hw | exact Ht].
Defined.

Lemma inline_preview_only_for_images_witness :
  exists mime,
    getitem finished_response "mime_type" = Ok mime /\
    existsb (py_eq mime) supported_types = true.
Proof.
  refine (proj2 (inline_preview_only_for_images plain_id (fun _ => VNone)
                   (fun _ _ => VNone) tiny_preview 0 finished_result
                   "generate_image" fresh_registry (Some "generate_image") true
                   VNone
                   (fst (register_and_build_response plain_id (fun _ => VNone)
                           (fun _ _ => VNone) tiny_preview 0 finished_result
                           "generate_image" fresh_registry
                           (Some "generate_image") true VNone))
                   finished_response eq_refl _ eq_refl)).
  vm_compute. reflexivity.
Defined.

End ResponseFacts.
(* ===================================================================== *)
(** * More facts about the workflow tools                                 *)
(* ===================================================================== *)

Module BindingFacts.
Import Py WorkflowManager Generation.
Import GenerationFacts(coerce_raises_only_overflow, bind_raises, steps_tool,
                       cfg_tool, no_float, busy_backend, no_assets).
Import WorkflowManagerFacts(assoc_dict_set).

(** ** Association lists *)

Lemma assoc_None {A} k (d : list (string * A)) :
  assoc k d = None <-> ~ In k (keys d).
Proof.
  induction d as [|[k' v] d IH]; simpl; [tauto|].
  destruct (String.eqb_spec k k') as [->|Hne].
  - split; [discriminate | intros H; exfalso; apply H; auto].
  - rewrite IH. split; [intros H [Hk|Hk]; [congruence | auto] | tauto].
Qed.

Lemma assoc_app {A} k (d1 d2 : list (string * A)) :
  assoc k (d1 ++ d2)%list =
    match assoc k d1 with Some v => Some v | None => assoc k d2 end.
Proof.
  induction d1 as [|[k' v] d1 IH]; simpl; [reflexivity|].
  destruct (String.eqb k k'); [reflexivity | exact IH].
Qed.

Lemma keys_app {A} (d1 d2 : list (string * A)) :
  keys (d1 ++ d2)%list = (keys d1 ++ keys d2)%list.
Proof. apply map_app. Qed.

Lemma keys_dict_set_fresh {A} k (v : A) d :
  ~ In k (keys d) -> keys (dict_set k v d) = (keys d ++ [k])%list.
Proof.
  induction d as [|[k' v'] d IH]; simpl; [reflexivity|].
  intros Hn. destruct (String.eqb_spec k k') as [->|Hne]; [tauto|].
  simpl. f_equal. apply IH. tauto.
Qed.

Lemma assoc_filter_other {A} k key (d : list (string * A)) :
  k <> key ->
  assoc k (filter (fun kv => negb (String.eqb (fst kv) key)) d) = assoc k d.
Proof.
  intros Hne. induction d as [|[k' v] d IH]; [reflexivity|].
  destruct (String.eqb_spec k' key) as [->|Hk'].
  - rewrite filter_cons_False by (cbn; rewrite String.eqb_refl; intros []).
    cbn [assoc]. destruct (String.eqb_spec k key); [contradiction | exact IH].
  - rewrite filter_cons_True
      by (cbn; destruct (String.eqb_spec k' key); [contradiction | exact I]).
    cbn [assoc]. rewrite IH. reflexivity.
Qed.

Lemma filter_In_list {A} (P : A -> Prop) `{forall x, Decision (P x)} x l :
  In x (filter P l) -> In x l.
Proof.
  intros Hin. apply list_elem_of_In. apply list_elem_of_In in Hin.
  apply list_elem_of_filter in Hin. tauto.
Qed.

(** ** Coercion *)

(** The value the coercion loop stores for one keyword argument. *)
Definition coerce_entry float_of_string definition (key : string) (v : value)
  : result value :=
  match assoc key (param_dict definition) with
  | Some param => coerce float_of_string param v
  | None => Ok v
  end.

(** X16.  Coercion is idempotent: a value that went through the
    coercion of a parameter is left as it is by a second pass, so a
    caller that already sends numbers gets them through untouched. *)
Theorem coerce_idempotent float_of_string param v v' :
  coerce float_of_string param v = Ok v' ->
  coerce float_of_string param v' = Ok v'.
Proof.
  intros H. pose proof H as H0. unfold coerce, convert in H.
  destruct (annotation_of param) eqn:Ha.
  - destruct v; inversion H; subst; exact H0.
  - destruct v; simpl in H;
      try (inversion H; subst; exact H0);
      try (inversion H; subst; unfold coerce, convert; rewrite Ha;
           reflexivity).
    + destruct (int_of_float f) as [z|[[] msg]]; simpl in H; inversion H; subst;
        try exact H0.
      unfold coerce, convert. rewrite Ha. reflexivity.
    + destruct (isdigit (strip s)); [|inversion H; subst; exact H0].
      destruct (int_of_string s) as [z|[[] msg]]; simpl in H; inversion H; subst;
        try exact H0.
      unfold coerce, convert. rewrite Ha. reflexivity.
  - destruct v; simpl in H; try (inversion H; subst; exact H0).
    + destruct (float_of_int (int_of_bool b)) as [f|[[] msg]]; simpl in H;
        inversion H; subst; try exact H0.
      unfold coerce, convert. rewrite Ha. reflexivity.
    + destruct (float_of_int z) as [f|[[] msg]]; simpl in H;
        inversion H; subst; try exact H0.
      unfold coerce, convert. rewrite Ha. reflexivity.
    + destruct (float_of_string s) as [f|]; simpl in H; inversion H; subst;
        try exact H0.
      unfold coerce, convert. rewrite Ha. reflexivity.
  - destruct v; inversion H; subst; exact H0.
Qed.

Lemma coerce_idempotent_witness :
  coerce no_float {| name := "steps"; annotation_of := AInt; required := true;
                     default := VNone; placeholder := "PARAM_INT_STEPS" |}
    (VInt 30) = Ok (VInt 30).
Proof.
  apply (coerce_idempotent no_float
           {| name := "steps"; annotation_of := AInt; required := true;
              default := VNone; placeholder := "PARAM_INT_STEPS" |}
           (VStr " 30 ") (VInt 30)).
  vm_compute. reflexivity.
Defined.

Lemma coerce_kwargs_spec float_of_string definition : forall kwargs acc ck,
  NoDup (keys acc ++ keys kwargs) ->
  coerce_kwargs float_of_string definition kwargs acc = Ok ck ->
  keys ck = (keys acc ++ keys kwargs)%list /\
  (forall k, assoc k kwargs = None -> assoc k ck = assoc k acc) /\
  (forall k v, assoc k kwargs = Some v ->
     exists v', coerce_entry float_of_string definition k v = Ok v' /\
                assoc k ck = Some v').
Proof.
  induction kwargs as [|[key v] rest IH]; intros acc ck Hnd.
  - simpl. intros [= <-]. rewrite app_nil_r. repeat split; auto. discriminate.
  - cbn [coerce_kwargs]. fold (coerce_entry float_of_string definition key v).
    destruct (coerce_entry float_of_string definition key v) as [v'|e] eqn:Hc;
      simpl; [|discriminate].
    intros Hrest.
    assert (Hfresh : ~ In key (keys acc) /\ ~ In key (keys rest)).
    { cbn [keys map fst] in Hnd. apply NoDup_app in Hnd as (Ha & Hdis & Hr).
      split.
      - intros Hin. apply (Hdis key).
        + apply list_elem_of_In. exact Hin.
        + left.
      - apply NoDup_cons in Hr as [Hr _]. intros Hin. apply Hr.
        apply list_elem_of_In. exact Hin. }
    destruct Hfresh as [Hacc Hnot].
    destruct (IH (dict_set key v' acc) ck) as (Hk & Hnone & Hsome).
    + rewrite (keys_dict_set_fresh key v' acc Hacc), <- app_assoc. exact Hnd.
    + exact Hrest.
    + rewrite (keys_dict_set_fresh key v' acc Hacc), <- app_assoc in Hk.
      split; [exact Hk|]. split.
      * intros k. cbn [assoc]. destruct (String.eqb_spec k key) as [->|Hne];
          [discriminate|].
        intros Hn. rewrite (Hnone k Hn), assoc_dict_set.
        destruct (String.eqb_spec k key); [contradiction | reflexivity].
      * intros k w. cbn [assoc]. destruct (String.eqb_spec k key) as [->|Hne].
        -- intros [= <-]. exists v'. split; [exact Hc|].
           rewrite (Hnone key (proj2 (assoc_None key rest) Hnot)), assoc_dict_set.
           rewrite String.eqb_refl. reflexivity.
        -- apply Hsome.
Qed.

(** X17.  The coercion loop neither adds nor drops a keyword argument
    and keeps their order; a value that is [None], or whose key names no
    declared parameter, or whose parameter is neither [int] nor [float],
    is handed on as it is. *)
Theorem coerce_kwargs_keeps_keys float_of_string definition kwargs coerced_kwargs :
  NoDup (keys kwargs) ->
  coerce_kwargs float_of_string definition kwargs [] = Ok coerced_kwargs ->
  keys coerced_kwargs = keys kwargs /\
  forall k v,
    assoc k kwargs = Some v ->
    v = VNone \/
    assoc k (param_dict definition) = None \/
    (exists param, assoc k (param_dict definition) = Some param /\
                   annotation_of param <> AInt /\ annotation_of param <> AFloat) ->
    assoc k coerced_kwargs = Some v.
Proof.
  intros Hnd H.
  destruct (coerce_kwargs_spec float_of_string definition kwargs [] coerced_kwargs
              Hnd H) as (Hk & _ & Hsome).
  split; [exact Hk|].
  intros k v Hkv Hcase. destruct (Hsome k v Hkv) as (v' & Hc & Hv').
  rewrite Hv'. f_equal. unfold coerce_entry in Hc.
  destruct Hcase as [->|[Hnone|(param & Hp & Hi & Hf)]].
  - destruct (assoc k (param_dict definition)); simpl in Hc; congruence.
  - rewrite Hnone in Hc. congruence.
  - rewrite Hp in Hc. unfold coerce, convert in Hc.
    destruct (annotation_of param); try contradiction;
      destruct v; congruence.
Qed.

Lemma coerce_kwargs_keeps_keys_witness :
  exists coerced_kwargs,
    coerce_kwargs no_float steps_tool
      [("steps", VStr "30"); ("note", VStr "7")] [] = Ok coerced_kwargs /\
    keys coerced_kwargs = ["steps"; "note"] /\
    assoc "note" coerced_kwargs = Some (VStr "7").
Proof.
  exists [("steps", VInt 30); ("note", VStr "7")].
  split; [vm_compute; reflexivity|].
  assert (Hnd : NoDup (keys [("steps", VStr "30"); ("note", VStr "7")])).
  { apply NoDup_cons. split; [|apply NoDup_singleton].
    intros H. apply list_elem_of_In in H. simpl in H.
    destruct H as [H|[]]. discriminate. }
  destruct (coerce_kwargs_keeps_keys no_float steps_tool
              [("steps", VStr "30"); ("note", VStr "7")]
              [("steps", VInt 30); ("note", VStr "7")] Hnd) as [Hk Hv].
  - vm_compute. reflexivity.
  - split; [exact Hk|]. apply (Hv "note" (VStr "7")); [reflexivity|].
    right. left. reflexivity.
Defined.

Lemma coerce_kwargs_raises float_of_string definition : forall kwargs acc e,
  coerce_kwargs float_of_string definition kwargs acc = Raise e ->
  exn_cls e = OverflowError.
Proof.
  induction kwargs as [|[key v] rest IH]; intros acc e; [discriminate|].
  cbn [coerce_kwargs]. intros H. apply bind_raises in H as [H|(v' & _ & H)].
  - destruct (assoc key (param_dict definition)) as [param|]; [|discriminate].
    exact (coerce_raises_only_overflow _ _ _ _ H).
  - exact (IH _ _ H).
Qed.

Lemma coerce_kwargs_has_key float_of_string definition k : forall kwargs acc ck,
  coerce_kwargs float_of_string definition kwargs acc = Ok ck ->
  In k (keys kwargs) \/ In k (keys acc) -> In k (keys ck).
Proof.
  induction kwargs as [|[key v] rest IH]; intros acc ck.
  - simpl. intros [= <-] [[]|H]. exact H.
  - cbn [coerce_kwargs]. destruct (match assoc key _ with
                                   | Some param => _ | None => _ end) as [v'|];
      simpl; [|discriminate].
    intros H Hin. apply (IH _ _ H).
    destruct Hin as [[<-|Hin]|Hin]; auto; right.
    + destruct (assoc key (dict_set key v' acc)) eqn:E.
      * destruct (In_dec string_dec key (keys (dict_set key v' acc))); auto.
        apply assoc_None in n. congruence.
      * rewrite assoc_dict_set, String.eqb_refl in E. discriminate.
    + destruct (In_dec string_dec k (keys (dict_set key v' acc))) as [|n]; auto.
      apply assoc_None in n. rewrite assoc_dict_set in n.
      destruct (String.eqb k key); [discriminate|].
      apply assoc_None in n. contradiction.
Qed.

(** ** Binding *)

Lemma bind_positional_spec : forall sig args kwargs bound rest,
  bind_positional sig args kwargs = Ok (bound, rest) ->
  (keys bound ++ keys rest)%list = keys sig /\
  (forall k, In k (keys bound) -> assoc k kwargs = None) /\
  length bound = length args /\
  map snd bound = args.
Proof.
  induction sig as [|[n d] sig IH]; intros args kwargs bound rest.
  - destruct args; simpl; [|discriminate].
    intros [= <- <-]. repeat split; auto. intros k [].
  - destruct args as [|a args]; cbn [bind_positional].
    + intros [= <- <-]. repeat split; auto. intros k [].
    + destruct (assoc n kwargs) eqn:Hn; [discriminate|].
      destruct (bind_positional sig args kwargs) as [[b r]|] eqn:Hb; simpl;
        [|discriminate].
      intros [= <- <-]. destruct (IH args kwargs b r Hb) as (Hk & Hnone & Hl & Hv).
      simpl. rewrite Hk, Hl, Hv. repeat split; auto.
      intros k [<-|Hin]; auto.
Qed.

Lemma bind_keywords_spec kwargs : forall sig r,
  bind_keywords sig kwargs = Ok r ->
  keys r = keys sig /\
  forall k v, assoc k kwargs = Some v -> In k (keys sig) -> assoc k r = Some v.
Proof.
  induction sig as [|[n d] sig IH]; intros r; cbn [bind_keywords].
  - intros [= <-]. split; [reflexivity|]. intros k v _ [].
  - destruct (match assoc n kwargs, d with
              | Some v, _ => Ok v
              | None, Some default => Ok default
              | None, None => _
              end) as [v0|] eqn:Hv; simpl; [|discriminate].
    destruct (bind_keywords sig kwargs) as [r'|] eqn:Hr; simpl; [|discriminate].
    intros [= <-]. destruct (IH r' eq_refl) as [Hk Hval].
    split; [simpl; rewrite Hk; reflexivity|].
    intros k v Hkv Hin. cbn [assoc].
    destruct (String.eqb_spec k n) as [->|Hne].
    + rewrite Hkv in Hv. congruence.
    + apply Hval; [exact Hkv|]. destruct Hin as [Hin|Hin]; [congruence | exact Hin].
Qed.

(** X18.  When binding succeeds, the arguments handed on hold exactly
    one value for each parameter of the signature, in the order of the
    signature: the positional arguments fill the leading parameters, and
    every keyword argument is a parameter of the signature and is bound to
    the value it came with. *)
Theorem bind_arguments_covers_signature definition args kwargs arguments :
  bind_arguments definition args kwargs = Ok arguments ->
  keys arguments = keys (signature definition) /\
  firstn (length args) (map snd arguments) = args /\
  forall k v, assoc k kwargs = Some v ->
    In k (keys (signature definition)) /\ assoc k arguments = Some v.
Proof.
  unfold bind_arguments.
  destruct (bind_positional (signature definition) args kwargs)
    as [[bound rest_sig]|] eqn:Hp; simpl; [|discriminate].
  destruct (bind_keywords rest_sig kwargs) as [rest|] eqn:Hk; simpl;
    [|discriminate].
  destruct (find _ kwargs) as [[k0 v0]|] eqn:Hf; [discriminate|].
  intros [= <-].
  destruct (bind_positional_spec _ _ _ _ _ Hp) as (Hkeys & Hnone & Hlen & Hvals).
  destruct (bind_keywords_spec kwargs rest_sig rest Hk) as [Hkr Hval].
  split; [rewrite keys_app, Hkr; exact Hkeys|].
  split.
  { rewrite map_app, <- Hlen, <- (length_map snd bound), firstn_app.
    rewrite Nat.sub_diag, firstn_all. simpl. rewrite app_nil_r. exact Hvals. }
  intros k v Hkv.
  assert (Hin : In k (keys (signature definition))).
  { pose proof (find_none _ _ Hf (k, v) (RegenerateFacts.assoc_In k v kwargs Hkv))
      as Hknown. cbn [fst] in Hknown.
    destruct (assoc k (signature definition)) eqn:Hs; [|discriminate].
    destruct (In_dec string_dec k (keys (signature definition))) as [|n]; auto.
    apply assoc_None in n. congruence. }
  split; [exact Hin|].
  rewrite <- Hkeys in Hin. apply in_app_or in Hin as [Hin|Hin].
  - rewrite (Hnone k Hin) in Hkv. discriminate.
  - rewrite assoc_app.
    destruct (assoc k bound) eqn:Hb.
    + apply RegenerateFacts.assoc_In in Hb.
      assert (Hin' : In k (keys bound)) by (apply (in_map fst) in Hb; exact Hb).
      rewrite (Hnone k Hin') in Hkv. discriminate.
    + apply Hval; assumption.
Qed.

Lemma bind_arguments_covers_signature_witness :
  keys [("steps", VInt 30); ("return_inline_preview", VBool false)]
  = keys (signature steps_tool).
Proof.
  apply (bind_arguments_covers_signature steps_tool [] [("steps", VInt 30)]
           [("steps", VInt 30); ("return_inline_preview", VBool false)]).
  vm_compute. reflexivity.
Defined.

Lemma bind_positional_raises : forall sig args kwargs e,
  bind_positional sig args kwargs = Raise e -> exn_cls e = TypeError.
Proof.
  induction sig as [|[n d] sig IH]; intros [|a args] kwargs e; simpl;
    try discriminate.
  - intros [= <-]. reflexivity.
  - destruct (assoc n kwargs); [intros [= <-]; reflexivity|].
    intros H. apply bind_raises in H as [H|(r & _ & H)]; [|discriminate].
    exact (IH _ _ _ H).
Qed.

Lemma bind_keywords_raises kwargs : forall sig e,
  bind_keywords sig kwargs = Raise e -> exn_cls e = TypeError.
Proof.
  induction sig as [|[n d] sig IH]; intros e; simpl; [discriminate|].
  intros H. apply bind_raises in H as [H|(v & _ & H)].
  - destruct (assoc n kwargs); [discriminate|].
    destruct d; [discriminate|]. inversion H. reflexivity.
  - apply bind_raises in H as [H|(r & _ & H)]; [|discriminate].
    exact (IH _ H).
Qed.

Lemma bind_arguments_raises definition args kwargs e :
  bind_arguments definition args kwargs = Raise e -> exn_cls e = TypeError.
Proof.
  unfold bind_arguments. intros H.
  apply bind_raises in H as [H|(r & _ & H)];
    [exact (bind_positional_raises _ _ _ _ H)|].
  apply bind_raises in H as [H|(rest & _ & H)];
    [exact (bind_keywords_raises _ _ _ H)|].
  destruct (find _ kwargs) as [[k v]|]; [|discriminate].
  inversion H. reflexivity.
Qed.

(** ** The tool as a whole *)

(** What a call does before its [try] block: coercion, binding,
    namespace. *)
Definition bound_call float_of_string c definition
  (args : list value) (kwargs : list (string * value))
  : result (list (string * value) * string) :=
  coerced_kwargs <-
    coerce_kwargs float_of_string definition
      (snd (pop "return_inline_preview" (VBool false) kwargs)) [] ;;
  arguments <- bind_arguments definition args coerced_kwargs ;;
  namespace <- namespace_of c definition ;;
  Ok (arguments, namespace).

Lemma tool_impl_unbound py_str float_of_string c definition args kwargs reg e :
  bound_call float_of_string c definition args kwargs = Raise e ->
  _tool_impl py_str float_of_string c definition args kwargs reg
  = (reg, ([], Raise e)).
Proof.
  unfold bound_call, _tool_impl.
  destruct (pop "return_inline_preview" (VBool false) kwargs) as [flag kwargs'].
  cbn [snd]. intros ->. reflexivity.
Qed.

Lemma tool_impl_bound py_str float_of_string c definition args kwargs reg
  arguments namespace :
  bound_call float_of_string c definition args kwargs = Ok (arguments, namespace) ->
  _tool_impl py_str float_of_string c definition args kwargs reg
  = match submit py_str c definition namespace arguments with
    | (t, Ok (inl response)) => (reg, (t, Ok response))
    | (t, Ok (inr result)) =>
        let (reg', r) :=
          Helpers.register_and_build_response (derive_id c) (asset_url_of c)
            (get_asset_url c) (encode_preview c) (now c)
            result (workflow_id definition) reg (Some (tool_name definition))
            (truthy (fst (pop "return_inline_preview" (VBool false) kwargs)))
            VNone in
        (reg',
         try_except (t ++ [EvRegisterAndBuildResponse result], r)%list
           (recover py_str c definition namespace arguments))
    | (t, Raise exc) =>
        (reg, try_except (t, Raise exc)
                (recover py_str c definition namespace arguments))
    end.
Proof.
  unfold bound_call, _tool_impl.
  destruct (pop "return_inline_preview" (VBool false) kwargs) as [flag kwargs'].
  cbn [fst snd]. intros ->. reflexivity.
Qed.

(** X19.  A keyword argument that names no parameter of the tool is
    passed through by the coercion loop and then refused by the binding:
    the call raises, a [TypeError] unless the coercion of another argument
    overflowed first, before any collaborator is asked anything and with
    the registry as it was. *)
Theorem unknown_keyword_is_refused
  py_str float_of_string c definition args kwargs reg k v :
  assoc k kwargs = Some v ->
  k <> "return_inline_preview" ->
  Forall (fun kp => name (snd kp) <> k) (parameters definition) ->
  exists e,
    _tool_impl py_str float_of_string c definition args kwargs reg
    = (reg, ([], Raise e)) /\
    (exn_cls e = TypeError \/ exn_cls e = OverflowError).
Proof.
  intros Hkv Hflag Hnames.
  assert (Hsig : assoc k (signature definition) = None).
  { apply assoc_None. unfold signature, keys.
    rewrite !map_app, !map_map. cbn [fst map].
    intros Hin. apply in_app_or in Hin as [Hin|Hin];
      [|apply in_app_or in Hin as [Hin|[Hin|[]]]]; try congruence.
    - apply in_map_iff in Hin as (p & Hp & Hin).
      apply filter_In_list in Hin.
      apply in_map_iff in Hin as (kp & <- & Hin).
      rewrite Forall_forall in Hnames.
      apply (Hnames kp); [apply list_elem_of_In; exact Hin | exact Hp].
    - apply in_map_iff in Hin as (p & Hp & Hin).
      apply filter_In_list in Hin.
      apply in_map_iff in Hin as (kp & <- & Hin).
      rewrite Forall_forall in Hnames.
      apply (Hnames kp); [apply list_elem_of_In; exact Hin | exact Hp]. }
  assert (Hkept : In k (keys (snd (pop "return_inline_preview" (VBool false)
                                     kwargs)))).
  { assert (Ha : assoc k (snd (pop "return_inline_preview" (VBool false) kwargs))
                 = Some v).
    { unfold pop. destruct (assoc "return_inline_preview" kwargs); cbn [snd];
        [rewrite assoc_filter_other by exact Hflag|]; exact Hkv. }
    apply RegenerateFacts.assoc_In in Ha. apply (in_map fst) in Ha. exact Ha. }
  assert (Hbind : forall ck a,
            coerce_kwargs float_of_string definition
              (snd (pop "return_inline_preview" (VBool false) kwargs)) [] = Ok ck ->
            bind_arguments definition args ck = Ok a -> False).
  { intros ck a Hc Ha.
    pose proof (coerce_kwargs_has_key _ _ k _ _ _ Hc (or_introl Hkept)) as Hin.
    apply in_map_iff in Hin as ([k' v'] & Hk' & Hin). cbn [fst] in Hk'. subst k'.
    unfold bind_arguments in Ha.
    destruct (bind_positional _ _ _) as [r|]; simpl in Ha; [|discriminate].
    destruct (bind_keywords _ _) as [rest|]; simpl in Ha; [|discriminate].
    destruct (find _ ck) as [[k0 v0]|] eqn:Hf; [discriminate|].
    pose proof (find_none _ _ Hf (k, v') Hin) as Hknown. cbn [fst] in Hknown.
    rewrite Hsig in Hknown. discriminate. }
  destruct (bound_call float_of_string c definition args kwargs)
    as [[arguments namespace]|e] eqn:Hb.
  - exfalso. unfold bound_call in Hb.
    destruct (coerce_kwargs _ _ _ _) as [ck|] eqn:Hc; simpl in Hb; [|discriminate].
    destruct (bind_arguments definition args ck) as [a|] eqn:Ha; simpl in Hb;
      [|discriminate].
    exact (Hbind ck a eq_refl Ha).
  - exists e. split; [apply tool_impl_unbound; exact Hb|].
    unfold bound_call in Hb.
    apply bind_raises in Hb as [Hb|(ck & Hc & Hb)];
      [right; exact (coerce_kwargs_raises _ _ _ _ _ Hb)|].
    apply bind_raises in Hb as [Hb|(a & Ha & Hb)];
      [left; exact (bind_arguments_raises _ _ _ _ Hb)|].
    exfalso. exact (Hbind ck a Hc Ha).
Qed.

Lemma unknown_keyword_is_refused_witness :
  exists e,
    _tool_impl type_name no_float busy_backend steps_tool []
      [("steps", VInt 30); ("cfg", VInt 7)] no_assets
    = (no_assets, ([], Raise e)) /\
    (exn_cls e = TypeError \/ exn_cls e = OverflowError).
Proof.
  apply (unknown_keyword_is_refused type_name no_float busy_backend steps_tool []
           [("steps", VInt 30); ("cfg", VInt 7)] no_assets "cfg" (VInt 7)).
  - reflexivity.
  - discriminate.
  - repeat constructor. simpl. discriminate.
Defined.

(** The events that render, submit or register. *)
Definition submission (e : event) : bool :=
  match e with
  | EvRenderWorkflow _ | EvRunCustomWorkflow _ | EvRegisterAndBuildResponse _ =>
      true
  | _ => false
  end.

(** An answer that holds an error text and nothing else. *)
Definition error_answer (v : value) : Prop :=
  exists text, v = VDict [("error", VStr text)].

Lemma model_error_shape py_str c refreshed namespace :
  Forall (fun e => submission e = false)
    (fst (model_error py_str c refreshed namespace)) /\
  forall v, snd (model_error py_str c refreshed namespace) = Ok v ->
            error_answer v.
Proof.
  unfold model_error, call. cbn [tbind].
  destruct (validate_default_model c refreshed namespace) as [[[iv mn] src]|e];
    cbn [tbind tret fst snd].
  - split; [repeat constructor|]. intros v [= <-]. eexists. reflexivity.
  - split; [repeat constructor|]. discriminate.
Qed.

Lemma check_model_shape py_str c refreshed namespace arguments :
  Forall (fun e => submission e = false)
    (fst (check_model py_str c refreshed namespace arguments)) /\
  forall v, snd (check_model py_str c refreshed namespace arguments) = Ok (Some v) ->
            error_answer v.
Proof.
  unfold check_model, call. cbn [tbind].
  destruct (get_default c refreshed namespace "model" _) as [m|e];
    [|split; [repeat constructor | discriminate]].
  destruct (truthy m); [|split; [repeat constructor | discriminate]].
  cbn [tbind].
  destruct (is_model_valid c refreshed namespace m) as [[]|e];
    [split; [repeat constructor | discriminate]| |
     split; [repeat constructor | discriminate]].
  destruct (model_error_shape py_str c refreshed namespace) as [Ht Hv].
  destruct (model_error py_str c refreshed namespace) as [t [r|e]];
    cbn [tbind tret fst snd] in *.
  - split.
    + repeat (apply Forall_cons; split; [reflexivity|]).
      rewrite app_nil_r. exact Ht.
    + intros v [= <-]. apply Hv. reflexivity.
  - split; [|discriminate].
    repeat (apply Forall_cons; split; [reflexivity|]). exact Ht.
Qed.

Lemma recover_shape py_str c definition namespace arguments exc :
  Forall (fun e => submission e = false)
    (fst (recover py_str c definition namespace arguments exc)) /\
  (forall v, snd (recover py_str c definition namespace arguments exc) = Ok v ->
             error_answer v) /\
  (forall e, snd (recover py_str c definition namespace arguments exc) = Raise e ->
             has_model_param definition = true /\
             In EvRefreshModels
               (fst (recover py_str c definition namespace arguments exc))).
Proof.
  unfold recover.
  destruct (has_model_param definition && _) eqn:Hcond.
  - apply andb_true_iff in Hcond as [Hm _].
    unfold call. cbn [tbind].
    destruct (refresh_models c) as [u|e1];
      [|split; [repeat constructor|split; [discriminate|]];
        intros e _; split; [exact Hm | left; reflexivity]].
    cbn [tbind].
    destruct (refresh_model_set c) as [u'|e2];
      [|split; [repeat constructor|split; [discriminate|]];
        intros e _; split; [exact Hm | left; reflexivity]].
    destruct (check_model_shape py_str c true namespace arguments) as [Ht Hv].
    destruct (check_model py_str c true namespace arguments) as [t [[r|]|e]];
      cbn [tbind tret fst snd] in *.
    + split; [repeat (apply Forall_cons; split; [reflexivity|]);
              rewrite app_nil_r; exact Ht|].
      split; [intros v [= <-]; apply Hv; reflexivity | discriminate].
    + split; [repeat (apply Forall_cons; split; [reflexivity|]);
              rewrite app_nil_r; exact Ht|].
      split; [intros v [= <-]; eexists; reflexivity | discriminate].
    + split; [repeat (apply Forall_cons; split; [reflexivity|]); exact Ht|].
      split; [discriminate|].
      intros e0 _. split; [exact Hm | left; reflexivity].
  - cbn [tret fst snd]. split; [constructor|].
    split; [intros v [= <-]; eexists; reflexivity | discriminate].
Qed.

(** X20.  A default model the backend does not have is reported before
    anything is rendered or submitted: when the tool has a [model]
    parameter and the resolved model is not valid, the call makes no
    render, submit or register call, leaves the registry as it was, and
    whatever it answers is an error text. *)
Theorem invalid_model_stops_before_rendering
  py_str float_of_string c definition args kwargs reg arguments namespace model :
  bound_call float_of_string c definition args kwargs = Ok (arguments, namespace) ->
  has_model_param definition = true ->
  get_default c false namespace "model"
    (match assoc "model" arguments with Some v => v | None => VNone end)
    = Ok model ->
  truthy model = true ->
  is_model_valid c false namespace model = Ok false ->
  fst (_tool_impl py_str float_of_string c definition args kwargs reg) = reg /\
  Forall (fun e => submission e = false)
    (fst (snd (_tool_impl py_str float_of_string c definition args kwargs reg))) /\
  forall v,
    snd (snd (_tool_impl py_str float_of_string c definition args kwargs reg))
      = Ok v ->
    error_answer v.
Proof.
  intros Hb Hm Hd Ht Hv.
  rewrite (tool_impl_bound py_str float_of_string c definition args kwargs reg
             arguments namespace Hb).
  unfold submit. rewrite Hm. unfold check_model, call. cbn [tbind].
  rewrite Hd. rewrite Ht. cbn [tbind]. rewrite Hv.
  destruct (model_error_shape py_str c false namespace) as [Hmt Hmv].
  destruct (model_error py_str c false namespace) as [t [r|exc]];
    cbn [tbind tret fst snd app] in *.
  - split; [reflexivity|]. split.
    + repeat (apply Forall_cons; split; [reflexivity|]).
      rewrite !app_nil_r. exact Hmt.
    + intros v [= <-]. apply Hmv. reflexivity.
  - cbn [try_except].
    destruct (recover_shape py_str c definition namespace arguments exc)
      as (Hrt & Hrv & _).
    destruct (recover py_str c definition namespace arguments exc) as [t' r'].
    cbn [fst snd app] in *.
    split; [reflexivity|]. split.
    + repeat (apply Forall_cons; split; [reflexivity|]).
      apply Forall_app. split; [exact Hmt | exact Hrt].
    + exact Hrv.
Qed.

(** A tool with a [model] parameter, and a backend that has no
    checkpoint at all. *)
Definition model_tool : WorkflowToolDefinition :=
  {| workflow_id := "generate_image";
     tool_name := "generate_image";
     description := "";
     template :=
       VDict [("4", VDict [("inputs", VDict [("ckpt_name", VStr "PARAM_MODEL")]);
                           ("class_type", VStr "CheckpointLoaderSimple")])];
     parameters :=
       [("model", {| name := "model"; annotation_of := AStr; required := false;
                     default := VNone; placeholder := "PARAM_MODEL" |})];
     output_preferences := ["images"; "image"; "gifs"; "gif"] |}.

Definition bare_backend : collaborators :=
  {| determine_namespace := fun _ => Ok "image";
     AUDIO_OUTPUT_KEYS := ["audio"; "audios"; "sound"; "files"];
     VIDEO_OUTPUT_KEYS := ["videos"; "video"; "mp4"; "mov"; "webm"];
     get_default := fun _ _ _ provided =>
                      Ok (if truthy provided then provided
                          else VStr "v1-5-pruned-emaonly.ckpt");
     is_model_valid := fun _ _ _ => Ok false;
     validate_default_model :=
       fun _ _ => Ok (VBool false, VStr "v1-5-pruned-emaonly.ckpt",
                      VStr "hardcoded");
     available_models_set := fun _ => [];
     refresh_models := Ok tt;
     refresh_model_set := Ok tt;
     render_workflow := WorkflowManager.render_workflow no_float;
     run_custom_workflow := fun _ _ => Ok (ComfyClient.pending_handle "p-1");
     derive_id := fun _ _ _ => "id";
     asset_url_of := fun _ => VNone;
     get_asset_url := fun _ _ => VNone;
     encode_preview := fun _ _ => Raise (Exn RuntimeError "no preview");
     now := 0 |}.

Lemma invalid_model_stops_before_rendering_witness :
  Forall (fun e => submission e = false)
    (fst (snd (_tool_impl type_name no_float bare_backend model_tool [] []
                 no_assets))).
Proof.
  apply (invalid_model_stops_before_rendering type_name no_float bare_backend
           model_tool [] [] no_assets
           [("model", VNone); ("return_inline_preview", VBool false)] "image"
           (VStr "v1-5-pruned-emaonly.ckpt")); reflexivity.
Defined.



Lemma no_submission_filter t :
  Forall (fun e => submission e = false) t -> List.filter submission t = [].
Proof.
  induction 1 as [|e t He _ IH]; [reflexivity|].
  simpl. rewrite He. exact IH.
Qed.

(** X27.  A call renders, submits and registers at most once each, in
    this order, and never one without the one before: read for these
    three calls alone, the calls of a run are the beginning of
    [render, submit, register].  In particular a failure is not retried,
    not even after the model list has been refreshed. *)
Theorem tool_submits_at_most_once
  py_str float_of_string c definition args kwargs reg :
  exists arguments workflow result,
    let steps := [EvRenderWorkflow arguments; EvRunCustomWorkflow workflow;
                  EvRegisterAndBuildResponse result] in
    exists n : nat,
      List.filter submission
        (fst (snd (_tool_impl py_str float_of_string c definition args kwargs reg)))
      = firstn n steps.
Proof.
  destruct (bound_call float_of_string c definition args kwargs)
    as [[arguments namespace]|e] eqn:Hb.
  2:{ rewrite (tool_impl_unbound _ _ _ _ _ _ reg e Hb).
      exists [], VNone, VNone, 0%nat. reflexivity. }
  rewrite (tool_impl_bound py_str float_of_string c definition args kwargs reg
             arguments namespace Hb).
  assert (Hrec : forall exc,
            List.filter submission
              (fst (recover py_str c definition namespace arguments exc)) = []).
  { intros exc. apply no_submission_filter.
    apply (recover_shape py_str c definition namespace arguments exc). }
  assert (Hcheck : forall t0 r0,
            (if has_model_param definition
             then check_model py_str c false namespace arguments
             else tret None) = (t0, r0) ->
            List.filter submission t0 = []).
  { intros t0 r0 E. apply no_submission_filter.
    destruct (has_model_param definition).
    - pose proof (proj1 (check_model_shape py_str c false namespace arguments))
        as Hs. rewrite E in Hs. exact Hs.
    - inversion E. constructor. }
  unfold submit.
  match goal with
  | |- context [tbind (if has_model_param definition then ?a else ?b) _] =>
      destruct (if has_model_param definition then a else b) as [t0 r0] eqn:E;
      pose proof (Hcheck t0 r0 eq_refl) as Hearly;
      destruct r0 as [[response|]|exc]
  end.
  - (* an invalid model answered before rendering *)
    cbn [tbind tret fst snd]. rewrite app_nil_r, Hearly.
    exists arguments, VNone, VNone, 0%nat. reflexivity.
  - cbn [tbind]. unfold call.
    destruct (render_workflow c definition arguments) as [workflow|exc].
    + cbn [tbind].
      destruct (run_custom_workflow c workflow (output_preferences definition))
        as [result|exc].
      * cbn [tbind tret fst snd app].
        destruct (Helpers.register_and_build_response _ _ _ _ _ _ _ _ _ _ _)
          as [reg' [r|exc]]; cbn [try_except fst snd].
        -- exists arguments, workflow, result, 3%nat.
           rewrite !List.filter_app, Hearly. reflexivity.
        -- specialize (Hrec exc).
           destruct (recover py_str c definition namespace arguments exc)
             as [t' r']. cbn [fst snd] in *.
           exists arguments, workflow, result, 3%nat.
           rewrite !List.filter_app, Hearly, Hrec. reflexivity.
      * cbn [tbind fst snd app try_except]. specialize (Hrec exc).
        destruct (recover py_str c definition namespace arguments exc)
          as [t' r']. cbn [fst snd] in *.
        exists arguments, workflow, VNone, 2%nat.
        rewrite !List.filter_app, Hearly, Hrec. reflexivity.
    + cbn [tbind fst snd app try_except]. specialize (Hrec exc).
      destruct (recover py_str c definition namespace arguments exc)
        as [t' r']. cbn [fst snd] in *.
      exists arguments, VNone, VNone, 1%nat.
      rewrite !List.filter_app, Hearly, Hrec. reflexivity.
  - cbn [tbind fst snd try_except]. specialize (Hrec exc).
    destruct (recover py_str c definition namespace arguments exc)
      as [t' r']. cbn [fst snd] in *.
    exists arguments, VNone, VNone, 0%nat.
    rewrite !List.filter_app, Hearly, Hrec. reflexivity.
Qed.

End BindingFacts.
(* ===================================================================== *)
(** * More facts about the updates of regenerate                          *)
(* ===================================================================== *)

Module UpdateFacts.
Import Py Regenerate.
Import RegenerateFacts(assoc_In, dict_store_length, dict_store_other,
                       as_dict_fresh, stored_heap).
Import WorkflowManagerFacts(assoc_dict_set).

(** ** What an update keeps *)

(** [h'] keeps [h] up to entries under the keys [K]: no object is lost,
    lists are as they were, and a dict reads the same under every key
    outside [K]. *)
Definition kept (K : string -> Prop) (h h' : heap) : Prop :=
  (length h <= length h')%nat /\
  forall l o, h !! l = Some o ->
    match o with
    | ODict items =>
        exists items', h' !! l = Some (ODict items') /\
                       forall k, ~ K k -> assoc k items' = assoc k items
    | OList items => h' !! l = Some (OList items)
    end.

Lemma kept_refl K h : kept K h h.
Proof.
  split; [lia|]. intros l [items|items] Hl; [|exact Hl].
  exists items. auto.
Qed.

Lemma kept_trans K h1 h2 h3 : kept K h1 h2 -> kept K h2 h3 -> kept K h1 h3.
Proof.
  intros [Hl12 H12] [Hl23 H23]. split; [lia|].
  intros l [items|items] Hl.
  - destruct (H12 l _ Hl) as (items2 & Hl2 & Hk2).
    destruct (H23 l _ Hl2) as (items3 & Hl3 & Hk3).
    exists items3. split; [exact Hl3|]. intros k Hk.
    rewrite (Hk3 k Hk). apply Hk2. exact Hk.
  - apply (H23 l _ (H12 l _ Hl)).
Qed.

Lemma kept_alloc K h o : kept K h (h ++ [o])%list.
Proof.
  split; [rewrite length_app; lia|].
  intros l [items|items] Hl; pose proof (lookup_lt_Some _ _ _ Hl) as Hlt;
    rewrite lookup_app_l by exact Hlt; [|exact Hl].
  exists items. auto.
Qed.

Lemma dict_store_lookup h l k v items :
  h !! l = Some (ODict items) ->
  dict_store h l k v !! l = Some (ODict (dict_set k v items)).
Proof.
  intros Hl. unfold dict_store. rewrite Hl.
  apply list_lookup_insert_eq. exact (lookup_lt_Some _ _ _ Hl).
Qed.

Lemma dict_store_inv h l k v items' :
  dict_store h l k v !! l = Some (ODict items') ->
  exists items, h !! l = Some (ODict items) /\ items' = dict_set k v items.
Proof.
  unfold dict_store. destruct (h !! l) as [[items|items]|] eqn:E.
  - rewrite list_lookup_insert_eq by exact (lookup_lt_Some _ _ _ E).
    intros [= <-]. eauto.
  - rewrite E. discriminate.
  - rewrite E. discriminate.
Qed.

Lemma kept_store (K : string -> Prop) h l k v :
  K k -> kept K h (dict_store h l k v).
Proof.
  intros Hk. split; [rewrite dict_store_length; lia|].
  intros l' o Hl'. destruct (decide (l' = l)) as [->|Hne].
  - destruct o as [items|items].
    + exists (dict_set k v items). split; [apply dict_store_lookup; exact Hl'|].
      intros k' Hk'. rewrite assoc_dict_set.
      destruct (String.eqb_spec k' k) as [->|]; [contradiction | reflexivity].
    + unfold dict_store. rewrite Hl'. exact Hl'.
  - rewrite dict_store_other by exact Hne.
    destruct o as [items|items]; [|exact Hl']. exists items. auto.
Qed.

Lemma hsetitem_kept (K : string -> Prop) h c key v :
  K key -> kept K h (fst (hsetitem h c key v)).
Proof.
  intros Hk. unfold hsetitem.
  destruct c as [| | | | |l]; try apply kept_refl.
  destruct (h !! l) as [[items|items]|]; try apply kept_refl.
  apply kept_store. exact Hk.
Qed.

Lemma get_inputs_kept K h node : kept K h (fst (get_inputs h node)).
Proof.
  unfold get_inputs. destruct (assoc "inputs" node); [apply kept_refl|].
  apply kept_alloc.
Qed.

Lemma seed_node_kept seed h node_id node_data :
  kept (fun k => k = "seed") h (fst (seed_node seed h node_id node_data)).
Proof.
  unfold seed_node. destruct (as_dict h node_data) as [node|]; [|apply kept_refl].
  destruct (hval_is_str _ _); [|apply kept_refl].
  pose proof (get_inputs_kept (fun k => k = "seed") h node) as Hg.
  destruct (get_inputs h node) as [h1 inputs]. cbn [fst] in Hg.
  eapply kept_trans; [exact Hg|]. apply hsetitem_kept. reflexivity.
Qed.

Lemma update_node_kept py_str param_name target_class target_input is_negative
  override_value h node_id node_data :
  kept (fun k => k = target_input) h
    (fst (update_node py_str param_name target_class target_input is_negative
            override_value h node_id node_data)).
Proof.
  unfold update_node.
  destruct (as_dict h node_data) as [node|]; [|apply kept_refl].
  destruct (match target_class with Some _ => _ | None => _ end);
    [apply kept_refl|].
  pose proof (get_inputs_kept (fun k => k = target_input) h node) as Hg.
  destruct (get_inputs h node) as [h1 inputs]. cbn [fst] in Hg.
  destruct (hcontains h1 target_input inputs) as [[]|e]; try exact Hg.
  repeat match goal with
         | |- context [if ?b then _ else _] => destruct b
         end; try exact Hg;
    (eapply kept_trans; [exact Hg|]; apply hsetitem_kept; reflexivity).
Qed.

Lemma for_items_from_kept K body d size :
  (forall h k v, kept K h (fst (body h k v))) ->
  forall remaining i h, kept K h (fst (for_items_from body d size remaining i h)).
Proof.
  intros Hbody. induction remaining as [|remaining IH]; intros i h; simpl.
  - destruct (h !! d) as [[items|items]|]; try apply kept_refl.
    destruct (negb _); apply kept_refl.
  - destruct (h !! d) as [[items|items]|]; try apply kept_refl.
    destruct (negb _); [apply kept_refl|].
    destruct (items !! i) as [[k v]|]; [|apply kept_refl].
    pose proof (Hbody h k v) as Hb.
    destruct (body h k v) as [h' [u|e]]; cbn [fst] in *; [|exact Hb].
    eapply kept_trans; [exact Hb | apply IH].
Qed.

Lemma for_items_kept K body h workflow :
  (forall h k v, kept K h (fst (body h k v))) ->
  kept K h (fst (for_items body h workflow)).
Proof.
  intros Hbody. unfold for_items.
  destruct workflow as [| | | | |d]; try apply kept_refl.
  destruct (h !! d) as [[items|items]|]; try apply kept_refl.
  apply for_items_from_kept. exact Hbody.
Qed.

Lemma kept_weaken (K K' : string -> Prop) h h' :
  (forall k, K k -> K' k) -> kept K h h' -> kept K' h h'.
Proof.
  intros Himp [Hlen Hk]. split; [exact Hlen|].
  intros l [items|items] Hl; [|exact (Hk l _ Hl)].
  destruct (Hk l _ Hl) as (items' & Hl' & Hsame).
  exists items'. split; [exact Hl'|]. intros k Hn. apply Hsame.
  intros HK. apply Hn, Himp, HK.
Qed.

(** The input keys the overrides in a list are mapped to. *)
Definition mapped_keys (param_overrides : list (string * hval)) (k : string)
  : Prop :=
  exists param_name override_value target_class is_negative,
    In (param_name, override_value) param_overrides /\
    assoc param_name param_mappings = Some (target_class, k, is_negative).

Lemma update_params_kept py_str workflow : forall param_overrides h,
  kept (mapped_keys param_overrides) h
    (fst (update_params py_str workflow param_overrides h)).
Proof.
  induction param_overrides as [|[param_name override_value] rest IH]; intros h.
  - apply kept_refl.
  - cbn [update_params].
    assert (Hrest : forall h1, kept (mapped_keys ((param_name, override_value) :: rest))
                                 h1 (fst (update_params py_str workflow rest h1))).
    { intros h1. eapply kept_weaken; [|apply IH].
      intros k (pn & ov & tc & neg & Hin & Hm).
      exists pn, ov, tc, neg. split; [right; exact Hin | exact Hm]. }
    destruct (assoc param_name param_mappings)
      as [[[target_class target_input] is_negative]|] eqn:Hmap; [|apply Hrest].
    pose proof (for_items_kept (fun k => k = target_input)
                  (update_node py_str param_name target_class target_input
                     is_negative override_value) h workflow
                  (update_node_kept py_str param_name target_class target_input
                     is_negative override_value)) as Hloop.
    apply (kept_weaken _ (mapped_keys ((param_name, override_value) :: rest)))
      in Hloop.
    + destruct (for_items _ h workflow) as [h' [u|e]]; cbn [fst] in *;
        [|exact Hloop].
      eapply kept_trans; [exact Hloop | apply Hrest].
    + intros k ->. exists param_name, override_value, target_class, is_negative.
      split; [left; reflexivity | exact Hmap].
Qed.

(** No override is mapped to the class or the wiring of a node. *)
Lemma mapped_keys_spare param_overrides k :
  mapped_keys param_overrides k -> k <> "class_type" /\ k <> "inputs".
Proof.
  intros (pn & ov & tc & neg & _ & Hm). apply assoc_In in Hm. simpl in Hm.
  repeat (destruct Hm as [Hm|Hm];
          [inversion Hm; subst; split; discriminate|]).
  destruct Hm.
Qed.

(** X22.  [_update_workflow_params] works in place and writes input
    values only: it returns the workflow object it was given; every
    object of the heap is still there; lists are untouched; and a dict
    reads as before under every key other than the input keys that the
    given overrides are mapped to, so in particular no node changes its
    [class_type] or what its [inputs] entry refers to. *)
Theorem update_workflow_params_writes_inputs_only
  py_str workflow param_overrides h :
  let h' := fst (_update_workflow_params py_str workflow param_overrides h) in
  (forall w, snd (_update_workflow_params py_str workflow param_overrides h) = Ok w ->
             w = workflow) /\
  kept (mapped_keys param_overrides) h h' /\
  (forall l items,
     h !! l = Some (ODict items) ->
     exists items',
       h' !! l = Some (ODict items') /\
       assoc "class_type" items' = assoc "class_type" items /\
       assoc "inputs" items' = assoc "inputs" items).
Proof.
  intros h'.
  assert (Hk : kept (mapped_keys param_overrides) h h').
  { unfold h', _update_workflow_params.
    pose proof (update_params_kept py_str workflow param_overrides h) as Hu.
    destruct (update_params py_str workflow param_overrides h) as [h1 [u|e]];
      exact Hu. }
  split; [|split; [exact Hk|]].
  - unfold _update_workflow_params.
    destruct (update_params py_str workflow param_overrides h) as [h1 [u|e]];
      cbn [snd]; congruence.
  - intros l items Hl. destruct Hk as [_ Hk].
    destruct (Hk l _ Hl) as (items' & Hl' & Hsame).
    exists items'. split; [exact Hl'|].
    split; apply Hsame; intros Hm; apply mapped_keys_spare in Hm; tauto.
Qed.

(** X23.  Parameter names that [_update_workflow_params] does not know
    are skipped: overrides made of such names only leave the heap exactly
    as it was and the call returns the workflow, whatever the workflow is. *)
Theorem unknown_overrides_are_skipped py_str workflow param_overrides h :
  Forall (fun kv => assoc (fst kv) param_mappings = None) param_overrides ->
  _update_workflow_params py_str workflow param_overrides h = (h, Ok workflow).
Proof.
  intros Hall. unfold _update_workflow_params.
  assert (Hu : update_params py_str workflow param_overrides h = (h, Ok tt)).
  { induction Hall as [|[param_name override_value] rest Hnone _ IH];
      [reflexivity|].
    cbn [update_params]. cbn [fst] in Hnone. rewrite Hnone. exact IH. }
  rewrite Hu. reflexivity.
Qed.

Lemma unknown_overrides_are_skipped_witness :
  _update_workflow_params (fun _ _ => "") (HRef 0%nat)
    [("style", HStr "oil"); ("strength", HInt 2)] stored_heap
  = (stored_heap, Ok (HRef 0%nat)).
Proof.
  apply (unknown_overrides_are_skipped (fun _ _ => "") (HRef 0%nat)
           [("style", HStr "oil"); ("strength", HInt 2)] stored_heap).
  repeat constructor.
Defined.

(** X24.  [_update_seed] writes seeds only: with seed [-1] it returns
    the workflow and leaves the heap exactly as it was; otherwise every
    object of the heap is still there, lists are untouched, and a dict
    reads as before under every key other than [seed]. *)
Theorem update_seed_writes_seeds_only random_seed workflow seed h :
  (seed = Some (-1) ->
   _update_seed random_seed workflow seed h = (h, Ok workflow)) /\
  kept (fun k => k = "seed") h (fst (_update_seed random_seed workflow seed h)) /\
  (forall w, snd (_update_seed random_seed workflow seed h) = Ok w -> w = workflow).
Proof.
  split; [intros ->; reflexivity|].
  assert (Hloop : forall s,
            kept (fun k => k = "seed") h
              (fst (match for_items (seed_node s) h workflow with
                    | (h', Ok _) => (h', Ok workflow)
                    | (h', Raise e) => (h', Raise e)
                    end)) /\
            forall w,
              snd (match for_items (seed_node s) h workflow with
                   | (h', Ok _) => (h', Ok workflow)
                   | (h', Raise e) => (h', Raise e)
                   end) = Ok w -> w = workflow).
  { intros s.
    pose proof (for_items_kept (fun k => k = "seed") (seed_node s) h workflow
                  (seed_node_kept s)) as Hk.
    destruct (for_items (seed_node s) h workflow) as [h' [u|e]]; cbn [fst snd] in *;
      split; auto; congruence. }
  unfold _update_seed.
  destruct seed as [[|p|[p|p|]]|]; cbv zeta; try apply Hloop.
  cbn [fst snd]. split; [apply kept_refl | congruence].
Qed.

(** ** The seed reaches every sampler *)

Section SeedAll.

Variable s : Z.
Variable d : loc.

(** The node that [v] refers to, if it is a sampler whose [inputs] entry
    refers to an object, has the seed in that object. *)
Definition seeded (h : heap) (v : hval) : Prop :=
  forall n node x,
    v = HRef n -> h !! n = Some (ODict node) ->
    hval_is_str (get_class_type node) "KSampler" = true ->
    assoc "inputs" node = Some (HRef x) ->
    exists ins, h !! x = Some (ODict ins) /\ assoc "seed" ins = Some (HInt s).

(** The first [i] items of the workflow at [d] are seeded. *)
Definition seeded_upto (i : nat) (h : heap) : Prop :=
  forall items j k v,
    h !! d = Some (ODict items) -> (j < i)%nat -> items !! j = Some (k, v) ->
    seeded h v.

Lemma node_after_store h x n node1 :
  dict_store h x "seed" (HInt s) !! n = Some (ODict node1) ->
  exists node, h !! n = Some (ODict node) /\
               get_class_type node1 = get_class_type node /\
               assoc "inputs" node1 = assoc "inputs" node.
Proof.
  intros Hn. destruct (decide (n = x)) as [->|Hne].
  - apply dict_store_inv in Hn as (node & Hl & ->).
    exists node. split; [exact Hl|]. unfold get_class_type.
    rewrite !assoc_dict_set. simpl. split; reflexivity.
  - rewrite dict_store_other in Hn by exact Hne. exists node1.
    split; [exact Hn|]. split; reflexivity.
Qed.

Lemma seeded_store h x v :
  seeded h v -> seeded (dict_store h x "seed" (HInt s)) v.
Proof.
  intros Hs n node1 x1 Hv Hn Hk Hin.
  destruct (node_after_store h x n node1 Hn) as (node & Hl & Hc & Hi).
  rewrite Hc in Hk. rewrite Hi in Hin.
  destruct (Hs n node x1 Hv Hl Hk Hin) as (ins & Hx1 & Hseed).
  destruct (decide (x1 = x)) as [->|Hne].
  - exists (dict_set "seed" (HInt s) ins).
    split; [apply dict_store_lookup; exact Hx1|].
    rewrite assoc_dict_set. reflexivity.
  - exists ins. rewrite dict_store_other by exact Hne. auto.
Qed.

Lemma seeded_alloc h v : seeded h v -> seeded (h ++ [ODict []])%list v.
Proof.
  intros Hs n node x Hv Hn Hk Hin.
  destruct (decide (n < length h)%nat) as [Hlt|Hge].
  - rewrite lookup_app_l in Hn by exact Hlt.
    destruct (Hs n node x Hv Hn Hk Hin) as (ins & Hx & Hseed).
    exists ins. split; [|exact Hseed].
    rewrite lookup_app_l by exact (lookup_lt_Some _ _ _ Hx). exact Hx.
  - rewrite lookup_app_r in Hn by lia.
    destruct (n - length h)%nat; simpl in Hn; [|discriminate].
    inversion Hn; subst. discriminate Hk.
Qed.

Lemma dict_set_lookup {A} k0 (v0 : A) : forall items j k v,
  dict_set k0 v0 items !! j = Some (k, v) ->
  items !! j = Some (k, v) \/ v = v0.
Proof.
  induction items as [|[k' v'] items IH]; intros j k v; simpl.
  - destruct j; simpl; [intros [= <- <-]; auto | discriminate].
  - destruct (String.eqb k0 k').
    + destruct j; simpl; [intros [= <- <-]; auto | auto].
    + destruct j; simpl; [auto | apply IH].
Qed.

Lemma seeded_upto_store i h x :
  seeded_upto i h -> seeded_upto i (dict_store h x "seed" (HInt s)).
Proof.
  intros Hu items j k v Hd Hj Hitem.
  destruct (decide (d = x)) as [<-|Hne].
  - apply dict_store_inv in Hd as (items0 & Hd0 & ->).
    apply dict_set_lookup in Hitem as [Hitem| ->].
    + apply seeded_store. exact (Hu items0 j k v Hd0 Hj Hitem).
    + intros n node x0 Hv. discriminate Hv.
  - rewrite dict_store_other in Hd by exact Hne.
    apply seeded_store. exact (Hu items j k v Hd Hj Hitem).
Qed.

Lemma seeded_upto_alloc i h :
  seeded_upto i h -> seeded_upto i (h ++ [ODict []])%list.
Proof.
  intros Hu items j k v Hd Hj Hitem.
  destruct (decide (d < length h)%nat) as [Hlt|Hge].
  - rewrite lookup_app_l in Hd by exact Hlt.
    apply seeded_alloc. exact (Hu items j k v Hd Hj Hitem).
  - rewrite lookup_app_r in Hd by lia.
    destruct (d - length h)%nat; simpl in Hd; [|discriminate].
    inversion Hd; subst. destruct j; discriminate Hitem.
Qed.

(** One round of the loop seeds the item it visits and keeps the items
    before it seeded. *)
Lemma seed_node_step i h items k v h' :
  seeded_upto i h ->
  h !! d = Some (ODict items) -> items !! i = Some (k, v) ->
  seed_node s h k v = (h', Ok tt) ->
  seeded_upto (S i) h'.
Proof.
  intros Hu Hd Hitem. unfold seed_node.
  assert (Hsame : seeded h v -> seeded_upto (S i) h).
  { intros Hv items0 j k0 v0 Hd0 Hj Hitem0.
    rewrite Hd in Hd0. inversion Hd0; subst items0.
    destruct (decide (j = i)) as [->|Hne].
    - rewrite Hitem in Hitem0. inversion Hitem0; subst. exact Hv.
    - apply (Hu items j k0 v0 Hd); [lia | exact Hitem0]. }
  destruct (as_dict h v) as [node|] eqn:Hnode.
  2:{ intros [= <-]. apply Hsame. intros n node x -> Hn.
      unfold as_dict in Hnode. rewrite Hn in Hnode. discriminate. }
  apply as_dict_fresh in Hnode as (n & -> & Hn).
  destruct (hval_is_str (get_class_type node) "KSampler") eqn:Hclass.
  2:{ intros [= <-]. apply Hsame. intros n0 node0 x [= <-] Hn0.
      rewrite Hn in Hn0. inversion Hn0; subst. congruence. }
  unfold get_inputs. destruct (assoc "inputs" node) as [vin|] eqn:Hin.
  - unfold hsetitem. destruct vin as [| | | | |x]; try discriminate.
    destruct (h !! x) as [[ins|ins]|] eqn:Hx; try discriminate.
    intros [= <-].
    intros items1 j k1 v1 Hd1 Hj Hitem1.
    destruct (decide (j = i)) as [->|Hne].
    + (* the item just visited *)
      assert (Hv1 : v1 = HRef n \/ v1 = HInt s).
      { destruct (decide (d = x)) as [<-|Hdx].
        - apply dict_store_inv in Hd1 as (items0 & Hd0 & ->).
          rewrite Hd in Hd0. inversion Hd0; subst items0.
          apply dict_set_lookup in Hitem1 as [Hitem1| ->]; [|auto].
          rewrite Hitem in Hitem1. inversion Hitem1. auto.
        - rewrite dict_store_other in Hd1 by exact Hdx.
          rewrite Hd in Hd1. inversion Hd1; subst items1.
          rewrite Hitem in Hitem1. inversion Hitem1. auto. }
      destruct Hv1 as [->| ->]; [|intros n0 node0 x0 Hv; discriminate Hv].
      intros n0 node1 x1 [= <-] Hn1 Hk1 Hin1.
      destruct (node_after_store h x n node1 Hn1) as (node0 & Hl & Hc & Hi).
      rewrite Hn in Hl. inversion Hl; subst node0.
      rewrite Hi, Hin in Hin1. inversion Hin1; subst x1.
      exists (dict_set "seed" (HInt s) ins).
      split; [apply dict_store_lookup; exact Hx|].
      rewrite assoc_dict_set. reflexivity.
    + apply (seeded_upto_store i h x Hu items1 j k1 v1 Hd1); [lia | exact Hitem1].
  - cbn [alloc fst snd]. unfold hsetitem.
    destruct ((h ++ [ODict []])%list !! length h) as [[ins|ins]|] eqn:Hx;
      try discriminate.
    intros [= <-].
    assert (Hv : seeded h (HRef n)).
    { intros n0 node0 x [= <-] Hn0. rewrite Hn in Hn0. inversion Hn0; subst.
      congruence. }
    pose proof (Hsame Hv) as Hu1.
    apply seeded_upto_store. intros items1 j k1 v1 Hd1 Hj Hitem1.
    destruct (decide (d < length h)%nat) as [Hlt|Hge];
      [|apply lookup_lt_Some in Hd; lia].
    rewrite lookup_app_l in Hd1 by exact Hlt.
    apply seeded_alloc. exact (Hu1 items1 j k1 v1 Hd1 Hj Hitem1).
Qed.

End SeedAll.

(** A loop that returns has visited every item of a dict that kept its
    size. *)
Lemma for_items_from_invariant (I : nat -> heap -> Prop) body d size :
  (forall i h items k v h',
     I i h -> h !! d = Some (ODict items) -> items !! i = Some (k, v) ->
     body h k v = (h', Ok tt) -> I (S i) h') ->
  forall remaining i h h',
    I i h -> (i + remaining = size)%nat ->
    for_items_from body d size remaining i h = (h', Ok tt) ->
    I size h' /\ exists items, h' !! d = Some (ODict items) /\ length items = size.
Proof.
  intros Hbody. induction remaining as [|remaining IH]; intros i h h' Hi Hsize;
    cbn [for_items_from].
  - destruct (h !! d) as [[items|items]|] eqn:Hd; try discriminate.
    destruct (Nat.eqb_spec (length items) size) as [Hlen|Hlen]; cbn [negb];
      [|discriminate].
    intros [= <-]. replace size with i by lia. split; [exact Hi|].
    exists items. split; [exact Hd | lia].
  - destruct (h !! d) as [[items|items]|] eqn:Hd; try discriminate.
    destruct (Nat.eqb_spec (length items) size) as [Hlen|Hlen]; cbn [negb];
      [|discriminate].
    destruct (items !! i) as [[k v]|] eqn:Hitem.
    + destruct (body h k v) as [h1 [[]|e]] eqn:Hb; [|discriminate].
      intros Hrest. apply (IH (S i) h1 h'); [|lia|exact Hrest].
      exact (Hbody i h items k v h1 Hi Hd Hitem Hb).
    + apply lookup_ge_None in Hitem. lia.
Qed.

(** X25.  When [_update_seed] returns on a seed other than [-1], the
    seed it wrote (the one given, or the random draw when none was given)
    is in the workflow it returns, which is the one it was given: every
    node of that workflow whose class is [KSampler] and whose [inputs]
    entry refers to an object has the seed among these inputs. *)
Theorem update_seed_reaches_every_sampler random_seed d seed h h' w :
  seed <> Some (-1) ->
  _update_seed random_seed (HRef d) seed h = (h', Ok w) ->
  w = HRef d /\
  forall items node_id n node x,
    h' !! d = Some (ODict items) -> In (node_id, HRef n) items ->
    h' !! n = Some (ODict node) ->
    hval_is_str (get_class_type node) "KSampler" = true ->
    assoc "inputs" node = Some (HRef x) ->
    exists ins,
      h' !! x = Some (ODict ins) /\
      assoc "seed" ins
        = Some (HInt (match seed with Some s => s | None => random_seed end)).
Proof.
  intros Hseed.
  assert (Hloop : forall s,
            match for_items (seed_node s) h (HRef d) with
            | (h1, Ok _) => (h1, Ok (HRef d))
            | (h1, Raise e) => (h1, Raise e)
            end = (h', Ok w) ->
            w = HRef d /\
            forall items node_id n node x,
              h' !! d = Some (ODict items) -> In (node_id, HRef n) items ->
              h' !! n = Some (ODict node) ->
              hval_is_str (get_class_type node) "KSampler" = true ->
              assoc "inputs" node = Some (HRef x) ->
              exists ins, h' !! x = Some (ODict ins) /\
                          assoc "seed" ins = Some (HInt s)).
  { intros s. unfold for_items.
    destruct (h !! d) as [[items0|items0]|] eqn:Hd; try discriminate.
    destruct (for_items_from (seed_node s) d (length items0) (length items0) 0 h)
      as [h1 [[]|e]] eqn:Hrun; [|discriminate].
    intros [= <- <-]. split; [reflexivity|].
    destruct (for_items_from_invariant (seeded_upto s d) (seed_node s) d
                (length items0) (seed_node_step s d) (length items0) 0%nat h h1)
      as (Hall & items1 & Hd1 & Hlen); [|lia|exact Hrun|].
    { intros items j k v _ Hj. lia. }
    intros items node_id n node x Hditems Hin Hn Hk Hinp.
    rewrite Hd1 in Hditems. inversion Hditems; subst items1.
    apply list_elem_of_In, list_elem_of_lookup in Hin as [j Hj].
    assert (Hlt : (j < length items0)%nat)
      by (rewrite <- Hlen; exact (lookup_lt_Some _ _ _ Hj)).
    exact (Hall items j node_id (HRef n) Hd1 Hlt Hj n node x eq_refl Hn Hk Hinp). }
  unfold _update_seed.
  destruct seed as [[|p|[p|p|]]|]; cbv zeta; try apply Hloop.
  congruence.
Qed.

Lemma update_seed_reaches_every_sampler_witness :
  exists ins,
    fst (_update_seed 7 (HRef 0%nat) (Some 42) stored_heap) !! 2%nat
      = Some (ODict ins) /\
    assoc "seed" ins = Some (HInt 42).
Proof.
  refine (proj2 (update_seed_reaches_every_sampler 7 0%nat (Some 42) stored_heap
                   (fst (_update_seed 7 (HRef 0%nat) (Some 42) stored_heap))
                   (HRef 0%nat) _ eq_refl)
            [("3", HRef 1%nat)] "3" 1%nat
            [("class_type", HStr "KSampler"); ("inputs", HRef 2%nat)] 2%nat
            eq_refl (or_introl eq_refl) eq_refl eq_refl eq_refl).
  discriminate.
Defined.

End UpdateFacts.
(* ===================================================================== *)
(** * The deep copy of regenerate reads like its original                 *)
(* ===================================================================== *)

Module CopyFacts.
Import Py Regenerate.
Import RegenerateFacts(closed, dict_store_length, dict_store_other,
                       list_append_length, list_append_other,
                       stored_heap, stored_asset, one_asset, still_running,
                       stored_heap_closed).
Import UpdateFacts(dict_store_lookup).

(** The keys of every dict are distinct, as the keys of a Python dict
    are. *)
Definition well_keyed (h : heap) : Prop :=
  forall l items, h !! l = Some (ODict items) -> NoDup (keys items).

(** What a value becomes in the copy: a reference is followed through
    the memo. *)
Definition map_ref (m : memo) (v : hval) : option hval :=
  match v with
  | HRef l => HRef <$> m !! l
  | _ => Some v
  end.

Definition copied_entry (m : memo) (kx kx' : string * hval) : Prop :=
  fst kx = fst kx' /\ map_ref m (snd kx) = Some (snd kx').

Definition copied_item (m : memo) (x x' : hval) : Prop :=
  map_ref m x = Some x'.

(** [o'] is [o] with every reference followed through the memo. *)
Definition image (m : memo) (o o' : obj) : Prop :=
  match o, o' with
  | ODict items, ODict items' => Forall2 (copied_entry m) items items'
  | OList items, OList items' => Forall2 (copied_item m) items items'
  | _, _ => False
  end.

Lemma map_ref_mono m m' v v' :
  m ⊆ m' -> map_ref m v = Some v' -> map_ref m' v = Some v'.
Proof.
  intros Hsub. destruct v as [| | | | |l]; simpl; auto.
  destruct (m !! l) as [y|] eqn:E; [|discriminate].
  rewrite (lookup_weaken _ _ _ _ E Hsub). auto.
Qed.

Lemma image_mono m m' o o' : m ⊆ m' -> image m o o' -> image m' o o'.
Proof.
  intros Hsub. destruct o as [items|items], o' as [items'|items']; simpl; auto.
  - intros H. eapply Forall2_impl; [exact H|]. intros kx kx' [Hk Hv].
    split; [exact Hk | exact (map_ref_mono _ _ _ _ Hsub Hv)].
  - intros H. eapply Forall2_impl; [exact H|].
    intros x x' Hv. exact (map_ref_mono _ _ _ _ Hsub Hv).
Qed.

Lemma list_append_lookup h l v items :
  h !! l = Some (OList items) ->
  list_append h l v !! l = Some (OList (items ++ [v])%list).
Proof.
  intros Hl. unfold list_append. rewrite Hl.
  apply list_lookup_insert_eq. exact (lookup_lt_Some _ _ _ Hl).
Qed.

Lemma dict_set_fresh {A} k (v : A) d :
  ~ In k (keys d) -> dict_set k v d = (d ++ [(k, v)])%list.
Proof.
  induction d as [|[k' v'] d IH]; simpl; [reflexivity|].
  intros Hn. destruct (String.eqb_spec k k') as [->|Hne]; [tauto|].
  f_equal. apply IH. tauto.
Qed.

Lemma mapM_Forall2 {A B C} (R : A -> B -> Prop)
  (f : A -> option C) (g : B -> option C) l1 l2 :
  Forall2 R l1 l2 ->
  (forall a b, In a l1 -> R a b -> f a = g b) ->
  mapM f l1 = mapM g l2.
Proof.
  induction 1 as [|a b l1 l2 Hab _ IH]; intros Hfg; [reflexivity|].
  cbn [mapM]. rewrite (Hfg a b (or_introl eq_refl) Hab), IH; [reflexivity|].
  intros a' b' Hin. apply Hfg. right. exact Hin.
Qed.

Section Copy.

(** The heap [copy.deepcopy] is called on. *)
Variable h0 : heap.

Hypothesis Hclosed : closed h0.
Hypothesis Hkeys : well_keyed h0.

(** A value of the original graph. *)
Definition old (x : hval) : Prop := forall l, x = HRef l -> (l < length h0)%nat.

(** The state of a copy under way: the original objects are as they
    were, the memo sends original objects to distinct new ones, and the
    copy of every object that is not still being copied (the objects in
    [P] are) is the image of its original. *)
Record state_ok (P : loc -> Prop) (m : memo) (h : heap) : Prop := {
  ok_len : (length h0 <= length h)%nat;
  ok_old : forall l, (l < length h0)%nat -> h !! l = h0 !! l;
  ok_dom : forall l y, m !! l = Some y ->
             (l < length h0)%nat /\ (length h0 <= y)%nat /\ (y < length h)%nat;
  ok_inj : forall l1 l2 y, m !! l1 = Some y -> m !! l2 = Some y -> l1 = l2;
  ok_done : forall l y, m !! l = Some y -> ~ P l ->
              exists o o', h0 !! l = Some o /\ h !! y = Some o' /\ image m o o'
}.

(** What a call of [deepcopy] on [x] that returned [x'] has done. *)
Record post (P : loc -> Prop) (m : memo) (h : heap) (x x' : hval)
  (m' : memo) (h' : heap) : Prop := {
  post_ok : state_ok P m' h';
  post_memo : m ⊆ m';
  post_len : (length h <= length h')%nat;
  post_ref : map_ref m' x = Some x';
  post_kept : forall l y, m !! l = Some y -> P l -> h' !! y = h !! y
}.

Definition copy_ok (rec : memo -> heap -> hval -> result (hval * memo * heap))
  : Prop :=
  forall P m h x x' m' h',
    state_ok P m h -> old x -> rec m h x = Ok (x', m', h') ->
    post P m h x x' m' h'.

Definition copy_total (bound : nat)
  (rec : memo -> heap -> hval -> result (hval * memo * heap)) : Prop :=
  forall P m h x,
    state_ok P m h -> old x -> (length h0 < bound + size m)%nat ->
    exists r, rec m h x = Ok r.

Lemma memo_size P m h : state_ok P m h -> (size m <= length h0)%nat.
Proof.
  intros Hok. rewrite <- size_dom.
  rewrite <- (size_set_seq (C := gset nat) 0 (length h0)).
  apply subseteq_size. intros l Hl. apply elem_of_dom in Hl as [y Hy].
  apply elem_of_set_seq. destruct (ok_dom _ _ _ Hok l y Hy). lia.
Qed.

(** The state right after the empty copy of the object at [l] has been
    allocated and entered in the memo. *)
Lemma state_ok_alloc P m h l o :
  state_ok P m h -> m !! l = None -> (l < length h0)%nat ->
  o = ODict [] \/ o = OList [] ->
  state_ok (fun l' => l' = l \/ P l') (<[l := length h]> m) (h ++ [o])%list.
Proof.
  intros Hok Hnone Hl Ho.
  assert (Hsub : m ⊆ <[l := length h]> m) by (apply insert_subseteq; exact Hnone).
  split.
  - rewrite length_app. pose proof (ok_len _ _ _ Hok). lia.
  - intros l' Hl'. pose proof (ok_len _ _ _ Hok).
    rewrite lookup_app_l by lia. apply (ok_old _ _ _ Hok). exact Hl'.
  - intros l' y. rewrite lookup_insert. case_decide.
    + intros [= <-]. subst l'. rewrite length_app. simpl.
      pose proof (ok_len _ _ _ Hok). lia.
    + intros Hy. destruct (ok_dom _ _ _ Hok l' y Hy) as (H1 & H2 & H3).
      rewrite length_app. lia.
  - intros l1 l2 y. rewrite !lookup_insert. repeat case_decide; subst.
    + auto.
    + intros [= <-] Hy. destruct (ok_dom _ _ _ Hok l2 _ Hy). lia.
    + intros Hy [= <-]. destruct (ok_dom _ _ _ Hok l1 _ Hy). lia.
    + apply (ok_inj _ _ _ Hok).
  - intros l' y Hy Hnp. rewrite lookup_insert in Hy. case_decide.
    + exfalso. apply Hnp. left. congruence.
    + destruct (ok_done _ _ _ Hok l' y Hy) as (o1 & o1' & H1 & H2 & H3).
      { intros HP. apply Hnp. right. exact HP. }
      exists o1, o1'. split; [exact H1|].
      split; [|exact (image_mono _ _ _ _ Hsub H3)].
      rewrite lookup_app_l by exact (lookup_lt_Some _ _ _ H2). exact H2.
Qed.

(** Storing into the copy under construction at [y] keeps the state. *)
Lemma state_ok_write P m h l y h' :
  state_ok (fun l' => l' = l \/ P l') m h ->
  m !! l = Some y ->
  length h' = length h ->
  (forall y', y' <> y -> h' !! y' = h !! y') ->
  state_ok (fun l' => l' = l \/ P l') m h'.
Proof.
  intros Hok Hl Hlen Hother.
  destruct (ok_dom _ _ _ Hok l y Hl) as (Hl0 & Hy0 & Hy1).
  split.
  - rewrite Hlen. apply (ok_len _ _ _ Hok).
  - intros l' Hl'. rewrite Hother by lia. apply (ok_old _ _ _ Hok). exact Hl'.
  - intros l' y' Hy'. rewrite Hlen. apply (ok_dom _ _ _ Hok l' y' Hy').
  - apply (ok_inj _ _ _ Hok).
  - intros l' y' Hy' Hnp.
    destruct (ok_done _ _ _ Hok l' y' Hy' Hnp) as (o & o' & H1 & H2 & H3).
    exists o, o'. split; [exact H1|]. split; [|exact H3].
    rewrite Hother; [exact H2|]. intros ->.
    apply Hnp. left. exact (ok_inj _ _ _ Hok l' l y Hy' Hl).
Qed.

Section Loops.

Variable rec : memo -> heap -> hval -> result (hval * memo * heap).
Hypothesis rec_ok : copy_ok rec.

(** The call that copies the object at [l]: its state on entry, and the
    address [y] of the copy it allocated. *)
Variable P : loc -> Prop.
Variable mb : memo.
Variable hb : heap.
Variable l y : loc.

Hypothesis Hentry : state_ok P mb hb.
Hypothesis Hnew : mb !! l = None.
Hypothesis Hy : y = length hb.

(** The state of the loop over the items of a dict once the items [pre]
    have been copied. *)
Record dict_loop (pre : list (string * hval)) (m : memo) (h : heap) : Prop := {
  dl_ok : state_ok (fun l' => l' = l \/ P l') m h;
  dl_memo : <[l := y]> mb ⊆ m;
  dl_len : (length hb < length h)%nat;
  dl_copy : exists ys, h !! y = Some (ODict ys) /\ Forall2 (copied_entry m) pre ys;
  dl_kept : forall l' y', mb !! l' = Some y' -> P l' -> h !! y' = hb !! y'
}.

Record list_loop (pre : list hval) (m : memo) (h : heap) : Prop := {
  ll_ok : state_ok (fun l' => l' = l \/ P l') m h;
  ll_memo : <[l := y]> mb ⊆ m;
  ll_len : (length hb < length h)%nat;
  ll_copy : exists ys, h !! y = Some (OList ys) /\ Forall2 (copied_item m) pre ys;
  ll_kept : forall l' y', mb !! l' = Some y' -> P l' -> h !! y' = hb !! y'
}.

Lemma kept_at_entry l' y' :
  mb !! l' = Some y' -> (hb ++ [ODict []])%list !! y' = hb !! y' /\
                         (hb ++ [OList []])%list !! y' = hb !! y'.
Proof.
  intros Hl'. destruct (ok_dom _ _ _ Hentry l' y' Hl') as (_ & _ & Hlt).
  split; apply lookup_app_l; exact Hlt.
Qed.

Lemma dict_loop_start :
  (l < length h0)%nat ->
  dict_loop [] (<[l := y]> mb) (hb ++ [ODict []])%list.
Proof.
  intros Hl. split.
  - rewrite Hy. apply state_ok_alloc; auto.
  - reflexivity.
  - rewrite length_app. simpl. lia.
  - exists []. split; [|constructor].
    rewrite Hy, lookup_app_r by lia. rewrite Nat.sub_diag. reflexivity.
  - intros l' y' Hl' _. apply (kept_at_entry l' y' Hl').
Qed.

Lemma list_loop_start :
  (l < length h0)%nat ->
  list_loop [] (<[l := y]> mb) (hb ++ [OList []])%list.
Proof.
  intros Hl. split.
  - rewrite Hy. apply state_ok_alloc; auto.
  - reflexivity.
  - rewrite length_app. simpl. lia.
  - exists []. split; [|constructor].
    rewrite Hy, lookup_app_r by lia. rewrite Nat.sub_diag. reflexivity.
  - intros l' y' Hl' _. apply (kept_at_entry l' y' Hl').
Qed.

Lemma memo_has_copy m : <[l := y]> mb ⊆ m -> m !! l = Some y.
Proof. intros Hsub. apply (lookup_weaken _ _ _ _ (lookup_insert_eq mb l y) Hsub). Qed.

Lemma memo_extends m : <[l := y]> mb ⊆ m -> mb ⊆ m.
Proof.
  intros Hsub. transitivity (<[l := y]> mb); [|exact Hsub].
  apply insert_subseteq. exact Hnew.
Qed.

Lemma dict_loop_step pre m h k x x' m' h' :
  dict_loop pre m h ->
  ~ In k (keys pre) -> old x ->
  rec m h x = Ok (x', m', h') ->
  dict_loop (pre ++ [(k, x)]) m' (dict_store h' y k x').
Proof.
  intros [Hok Hmemo Hlen (ys & Hys & Hcopy) Hkept] Hfresh Hold Hrec.
  destruct (rec_ok _ m h x x' m' h' Hok Hold Hrec)
    as [Hok' Hsub Hlen' Href Hkept'].
  pose proof (memo_has_copy m Hmemo) as Hly.
  pose proof (lookup_weaken _ _ _ _ Hly Hsub) as Hly'.
  assert (Hys' : h' !! y = Some (ODict ys)).
  { rewrite (Hkept' l y Hly (or_introl eq_refl)). exact Hys. }
  split.
  - apply (state_ok_write P m' h' l y); auto.
    + apply dict_store_length.
    + intros y' Hne. apply dict_store_other. exact Hne.
  - transitivity m; assumption.
  - rewrite dict_store_length. lia.
  - exists (ys ++ [(k, x')])%list. split.
    + rewrite (dict_store_lookup h' y k x' ys Hys'). f_equal. f_equal.
      apply dict_set_fresh.
      assert (Hk : keys ys = keys pre).
      { clear -Hcopy. induction Hcopy as [|a b l1 l2 [Hab _] _ IH];
          [reflexivity|]. simpl. rewrite IH, Hab. reflexivity. }
      rewrite Hk. exact Hfresh.
    + apply Forall2_app.
      * eapply Forall2_impl; [exact Hcopy|].
        intros a b [Hab Hv]. split; [exact Hab|].
        exact (map_ref_mono _ _ _ _ Hsub Hv).
      * constructor; [|constructor]. split; [reflexivity | exact Href].
  - intros l' y' Hl' HP.
    destruct (ok_dom _ _ _ Hentry l' y' Hl') as (_ & _ & Hlt).
    rewrite dict_store_other by lia.
    rewrite (Hkept' l' y' (lookup_weaken _ _ _ _ Hl' (memo_extends m Hmemo))
               (or_intror HP)).
    exact (Hkept l' y' Hl' HP).
Qed.

Lemma list_loop_step pre m h x x' m' h' :
  list_loop pre m h ->
  old x ->
  rec m h x = Ok (x', m', h') ->
  list_loop (pre ++ [x]) m' (list_append h' y x').
Proof.
  intros [Hok Hmemo Hlen (ys & Hys & Hcopy) Hkept] Hold Hrec.
  destruct (rec_ok _ m h x x' m' h' Hok Hold Hrec)
    as [Hok' Hsub Hlen' Href Hkept'].
  pose proof (memo_has_copy m Hmemo) as Hly.
  pose proof (lookup_weaken _ _ _ _ Hly Hsub) as Hly'.
  assert (Hys' : h' !! y = Some (OList ys)).
  { rewrite (Hkept' l y Hly (or_introl eq_refl)). exact Hys. }
  split.
  - apply (state_ok_write P m' h' l y); auto.
    + apply list_append_length.
    + intros y' Hne. apply list_append_other. exact Hne.
  - transitivity m; assumption.
  - rewrite list_append_length. lia.
  - exists (ys ++ [x'])%list. split.
    + exact (list_append_lookup h' y x' ys Hys').
    + apply Forall2_app.
      * eapply Forall2_impl; [exact Hcopy|].
        intros a b Hv. exact (map_ref_mono _ _ _ _ Hsub Hv).
      * constructor; [exact Href | constructor].
  - intros l' y' Hl' HP.
    destruct (ok_dom _ _ _ Hentry l' y' Hl') as (_ & _ & Hlt).
    rewrite list_append_other by lia.
    rewrite (Hkept' l' y' (lookup_weaken _ _ _ _ Hl' (memo_extends m Hmemo))
               (or_intror HP)).
    exact (Hkept l' y' Hl' HP).
Qed.

Lemma copy_dict_items_loop : forall rest pre m h m' h',
  dict_loop pre m h ->
  NoDup (keys (pre ++ rest)) ->
  (forall k x, In (k, x) rest -> old x) ->
  copy_dict_items rec y rest m h = Ok (m', h') ->
  dict_loop (pre ++ rest) m' h'.
Proof.
  induction rest as [|[k x] rest IH]; intros pre m h m' h' Hloop Hnd Hold.
  - simpl. intros [= <- <-]. rewrite app_nil_r. exact Hloop.
  - cbn [copy_dict_items].
    destruct (rec m h x) as [[[x' m1] h1]|e] eqn:Hrec; simpl; [|discriminate].
    intros Hrest.
    replace (pre ++ (k, x) :: rest)%list with ((pre ++ [(k, x)]) ++ rest)%list
      in * by (rewrite <- app_assoc; reflexivity).
    apply (IH (pre ++ [(k, x)])%list m1 (dict_store h1 y k x') m' h');
      [| exact Hnd | | exact Hrest].
    + apply (dict_loop_step pre m h k x x' m1 h1 Hloop); [| |exact Hrec].
      * unfold keys in Hnd. rewrite !map_app in Hnd.
        apply NoDup_app in Hnd as [Hnd _]. apply NoDup_app in Hnd as (_ & Hdis & _).
        intros Hin. apply (Hdis k); [apply list_elem_of_In; exact Hin|].
        simpl. left.
      * apply (Hold k x). left. reflexivity.
    + intros k0 x0 Hin. apply (Hold k0 x0). right. exact Hin.
Qed.

Lemma copy_list_items_loop : forall rest pre m h m' h',
  list_loop pre m h ->
  (forall x, In x rest -> old x) ->
  copy_list_items rec y rest m h = Ok (m', h') ->
  list_loop (pre ++ rest) m' h'.
Proof.
  induction rest as [|x rest IH]; intros pre m h m' h' Hloop Hold.
  - simpl. intros [= <- <-]. rewrite app_nil_r. exact Hloop.
  - cbn [copy_list_items].
    destruct (rec m h x) as [[[x' m1] h1]|e] eqn:Hrec; simpl; [|discriminate].
    intros Hrest.
    replace (pre ++ x :: rest)%list with ((pre ++ [x]) ++ rest)%list
      by (rewrite <- app_assoc; reflexivity).
    apply (IH (pre ++ [x])%list m1 (list_append h1 y x') m' h');
      [| | exact Hrest].
    + apply (list_loop_step pre m h x x' m1 h1 Hloop); [|exact Hrec].
      apply (Hold x). left. reflexivity.
    + intros x0 Hin. apply (Hold x0). right. exact Hin.
Qed.

(** Once its loop is over, the copy at [y] is the image of the object
    at [l]. *)
Lemma loop_end o o' m h :
  state_ok (fun l' => l' = l \/ P l') m h ->
  <[l := y]> mb ⊆ m ->
  (length hb < length h)%nat ->
  (forall l' y', mb !! l' = Some y' -> P l' -> h !! y' = hb !! y') ->
  h0 !! l = Some o -> h !! y = Some o' -> image m o o' ->
  post P mb hb (HRef l) (HRef y) m h.
Proof.
  intros Hok Hmemo Hlen Hkept Ho Ho' Himg.
  pose proof (memo_has_copy m Hmemo) as Hly.
  split.
  - split; try apply Hok.
    intros l' y' Hl' Hnp. destruct (decide (l' = l)) as [->|Hne].
    + rewrite Hly in Hl'. inversion Hl'; subst y'. eauto.
    + apply (ok_done _ _ _ Hok l' y' Hl'). intros [Heq|HP]; auto.
  - exact (memo_extends m Hmemo).
  - lia.
  - simpl. rewrite Hly. reflexivity.
  - exact Hkept.
Qed.

(** With fuel to spare, the loops return. *)
Variable bound : nat.
Hypothesis rec_total : copy_total bound rec.
Hypothesis Hfuel : (length h0 < bound + S (size mb))%nat.

Lemma loop_fuel m : <[l := y]> mb ⊆ m -> (length h0 < bound + size m)%nat.
Proof.
  intros Hsub. apply map_subseteq_size in Hsub.
  rewrite map_size_insert_None in Hsub by exact Hnew. lia.
Qed.

Lemma copy_dict_items_returns : forall rest pre m h,
  dict_loop pre m h ->
  NoDup (keys (pre ++ rest)) ->
  (forall k x, In (k, x) rest -> old x) ->
  exists r, copy_dict_items rec y rest m h = Ok r.
Proof.
  induction rest as [|[k x] rest IH]; intros pre m h Hloop Hnd Hold.
  - simpl. eauto.
  - cbn [copy_dict_items].
    destruct (rec_total _ m h x (dl_ok _ _ _ Hloop)) as [[[x' m1] h1] Hrec].
    { apply (Hold k x). left. reflexivity. }
    { apply loop_fuel. exact (dl_memo _ _ _ Hloop). }
    rewrite Hrec. simpl.
    replace (pre ++ (k, x) :: rest)%list with ((pre ++ [(k, x)]) ++ rest)%list
      in * by (rewrite <- app_assoc; reflexivity).
    apply (IH (pre ++ [(k, x)])%list m1 (dict_store h1 y k x')); [|exact Hnd|].
    + apply (dict_loop_step pre m h k x x' m1 h1 Hloop); [| |exact Hrec].
      * unfold keys in Hnd. rewrite !map_app in Hnd.
        apply NoDup_app in Hnd as [Hnd _]. apply NoDup_app in Hnd as (_ & Hdis & _).
        intros Hin. apply (Hdis k); [apply list_elem_of_In; exact Hin|].
        simpl. left.
      * apply (Hold k x). left. reflexivity.
    + intros k0 x0 Hin. apply (Hold k0 x0). right. exact Hin.
Qed.

Lemma copy_list_items_returns : forall rest pre m h,
  list_loop pre m h ->
  (forall x, In x rest -> old x) ->
  exists r, copy_list_items rec y rest m h = Ok r.
Proof.
  induction rest as [|x rest IH]; intros pre m h Hloop Hold.
  - simpl. eauto.
  - cbn [copy_list_items].
    destruct (rec_total _ m h x (ll_ok _ _ _ Hloop)) as [[[x' m1] h1] Hrec].
    { apply (Hold x). left. reflexivity. }
    { apply loop_fuel. exact (ll_memo _ _ _ Hloop). }
    rewrite Hrec. simpl.
    apply (IH (pre ++ [x])%list m1 (list_append h1 y x')).
    + apply (list_loop_step pre m h x x' m1 h1 Hloop); [|exact Hrec].
      apply (Hold x). left. reflexivity.
    + intros x0 Hin. apply (Hold x0). right. exact Hin.
Qed.

End Loops.

Lemma post_same P m h x x' :
  state_ok P m h -> map_ref m x = Some x' -> post P m h x x' m h.
Proof. intros Hok Href. split; auto. Qed.

Lemma deepcopy_ok depth : copy_ok (deepcopy depth).
Proof.
  induction depth as [|depth IH]; intros P m h x x' m' h' Hok Hold.
  - destruct x as [| | | | |l]; simpl;
      try (intros [= <- <- <-]; apply post_same; [exact Hok | reflexivity]).
    destruct (m !! l) as [y|] eqn:Hm; [|discriminate].
    intros [= <- <- <-]. apply post_same; [exact Hok|]. simpl. rewrite Hm.
    reflexivity.
  - destruct x as [| | | | |l]; simpl;
      try (intros [= <- <- <-]; apply post_same; [exact Hok | reflexivity]).
    destruct (m !! l) as [y|] eqn:Hm.
    { intros [= <- <- <-]. apply post_same; [exact Hok|]. simpl. rewrite Hm.
      reflexivity. }
    pose proof (Hold l eq_refl) as Hl.
    rewrite (ok_old _ _ _ Hok l Hl).
    destruct (h0 !! l) as [[items|items]|] eqn:Hobj; [| |discriminate].
    + destruct (copy_dict_items (deepcopy depth) (length h) items
                  (<[l := length h]> m) (h ++ [ODict []])%list)
        as [[m2 h2]|e] eqn:E; simpl; [|discriminate].
      intros [= <- <- <-].
      destruct (copy_dict_items_loop (deepcopy depth) IH P m h l (length h)
                  Hok Hm eq_refl items [] (<[l := length h]> m)
                  (h ++ [ODict []])%list m2 h2)
        as [H1 H2 H3 (ys & H4 & H5) H6].
      * apply dict_loop_start; auto.
      * exact (Hkeys l items Hobj).
      * intros k x Hin l1 ->. exact (Hclosed l _ Hobj k l1 Hin).
      * exact E.
      * eapply loop_end with (o := ODict items) (o' := ODict ys); eauto.
    + destruct (copy_list_items (deepcopy depth) (length h) items
                  (<[l := length h]> m) (h ++ [OList []])%list)
        as [[m2 h2]|e] eqn:E; simpl; [|discriminate].
      intros [= <- <- <-].
      destruct (copy_list_items_loop (deepcopy depth) IH P m h l (length h)
                  Hok Hm eq_refl items [] (<[l := length h]> m)
                  (h ++ [OList []])%list m2 h2)
        as [H1 H2 H3 (ys & H4 & H5) H6].
      * apply list_loop_start; auto.
      * intros x Hin l1 ->. exact (Hclosed l _ Hobj l1 Hin).
      * exact E.
      * eapply loop_end with (o := OList items) (o' := OList ys); eauto.
Qed.

Lemma deepcopy_total depth : copy_total depth (deepcopy depth).
Proof.
  induction depth as [|depth IH]; intros P m h x Hok Hold Hfuel.
  - pose proof (memo_size P m h Hok). lia.
  - destruct x as [| | | | |l]; simpl; eauto.
    destruct (m !! l) as [y|] eqn:Hm; [eauto|].
    pose proof (Hold l eq_refl) as Hl.
    rewrite (ok_old _ _ _ Hok l Hl).
    destruct (lookup_lt_is_Some_2 h0 l Hl) as [o Hobj]. rewrite Hobj.
    destruct o as [items|items].
    + destruct (copy_dict_items_returns (deepcopy depth) (deepcopy_ok depth)
                  P m h l (length h) Hok Hm eq_refl depth IH) with
        (rest := items) (pre := @nil (string * hval))
        (m := <[l := length h]> m) (h := (h ++ [ODict []])%list) as [r Hr].
      * lia.
      * apply dict_loop_start; auto.
      * exact (Hkeys l items Hobj).
      * intros k x Hin l1 ->. exact (Hclosed l _ Hobj k l1 Hin).
      * cbn [alloc]. rewrite Hr. simpl. eauto.
    + destruct (copy_list_items_returns (deepcopy depth) (deepcopy_ok depth)
                  P m h l (length h) Hok Hm eq_refl depth IH) with
        (rest := items) (pre := @nil hval)
        (m := <[l := length h]> m) (h := (h ++ [OList []])%list) as [r Hr].
      * lia.
      * apply list_loop_start; auto.
      * intros x Hin l1 ->. exact (Hclosed l _ Hobj l1 Hin).
      * cbn [alloc]. rewrite Hr. simpl. eauto.
Qed.

(** A finished copy reads like the original, to any number of levels. *)
Lemma snapshot_of_copy m h :
  state_ok (fun _ => False) m h ->
  forall levels v v',
    old v -> map_ref m v = Some v' ->
    snapshot levels h v' = snapshot levels h0 v.
Proof.
  intros Hok. induction levels as [|levels IH]; intros v v' Hold Href.
  - destruct v as [| | | | |l]; simpl in Href; try (inversion Href; reflexivity).
    destruct (m !! l); inversion Href. reflexivity.
  - destruct v as [| | | | |l]; simpl in Href; try (inversion Href; reflexivity).
    destruct (m !! l) as [y|] eqn:Hm; inversion Href; subst v'.
    destruct (ok_done _ _ _ Hok l y Hm) as (o & o' & Ho & Ho' & Himg); [tauto|].
    cbn [snapshot]. rewrite Ho, Ho'.
    destruct o as [items|items], o' as [items'|items']; simpl in Himg;
      try contradiction.
    + f_equal. symmetry.
      apply (mapM_Forall2 (copied_entry m) _ _ items items' Himg).
      intros [k x] [k' x'] Hin [Hk Hx]. simpl in *. subst k'.
      rewrite (IH x x'); [reflexivity | | exact Hx].
      intros l1 ->. exact (Hclosed l _ Ho k l1 Hin).
    + f_equal. symmetry.
      apply (mapM_Forall2 (copied_item m) _ _ items items' Himg).
      intros x x' Hin Hx. symmetry. apply (IH x x'); [|exact Hx].
      intros l1 ->. exact (Hclosed l _ Ho l1 Hin).
Qed.

Lemma state_ok_start : state_ok (fun _ => False) ∅ h0.
Proof.
  split.
  - lia.
  - reflexivity.
  - intros l y Hl. rewrite lookup_empty in Hl. discriminate.
  - intros l1 l2 y Hl. rewrite lookup_empty in Hl. discriminate.
  - intros l y Hl. rewrite lookup_empty in Hl. discriminate.
Qed.

(** A deep copy of a value of the heap returns when the recursion depth
    exceeds the number of objects, and what it returns reads like the
    original, while the original objects are as they were. *)
Lemma deepcopy_reads_alike depth v :
  old v ->
  ((length h0 < depth)%nat -> exists r, deepcopy depth ∅ h0 v = Ok r) /\
  forall v' m' h',
    deepcopy depth ∅ h0 v = Ok (v', m', h') ->
    (forall levels, snapshot levels h' v' = snapshot levels h0 v) /\
    (forall l, (l < length h0)%nat -> h' !! l = h0 !! l).
Proof.
  intros Hold. split.
  - intros Hdepth.
    apply (deepcopy_total depth (fun _ => False) ∅ h0 v state_ok_start Hold).
    lia.
  - intros v' m' h' Hcopy.
    destruct (deepcopy_ok depth (fun _ => False) ∅ h0 v v' m' h' state_ok_start
                Hold Hcopy) as [Hok _ _ Href _].
    split.
    + intros levels. exact (snapshot_of_copy m' h' Hok levels v v' Hold Href).
    + exact (ok_old _ _ _ Hok).
Qed.

End Copy.

(** X26.  Regenerating with seed [-1] and no overrides submits the
    stored graph again: on a heap without dangling references, with a
    recursion depth beyond the number of objects, the deep copy succeeds,
    nothing is written to it, and the workflow handed to the client reads
    exactly like the stored workflow, at every level; the answer of
    [regenerate] is what submitting that copy gives. *)
Theorem regenerate_same_seed_resubmits_same_graph
  py_str random_seed get_asset submit_and_register depth
  asset_id return_inline_preview param_overrides h a :
  closed h -> well_keyed h ->
  get_asset asset_id = Some a ->
  htruthy h (submitted_workflow a) = true ->
  (forall l, submitted_workflow a = HRef l -> (l < length h)%nat) ->
  (length h < depth)%nat ->
  param_overrides = None \/ param_overrides = Some [] ->
  exists h' workflow,
    prepare py_str random_seed depth (submitted_workflow a) (Some (-1))
      param_overrides h = (h', Ok workflow) /\
    (forall levels,
       snapshot levels h' workflow = snapshot levels h (submitted_workflow a)) /\
    (forall l, (l < length h)%nat -> h' !! l = h !! l) /\
    regenerate py_str random_seed get_asset submit_and_register depth
      asset_id (Some (-1)) return_inline_preview param_overrides h
    = (h', match submit_and_register h' workflow (guess_output_preferences a)
                   a return_inline_preview with
           | Ok response => response
           | Raise e => failed e
           end).
Proof.
  intros Hclosed Hkeys Ha Htruthy Hold Hdepth Hover.
  destruct (deepcopy_reads_alike h Hclosed Hkeys depth (submitted_workflow a) Hold)
    as [Htotal Hsame].
  destruct (Htotal Hdepth) as [[[workflow m'] h'] Hcopy].
  destruct (Hsame workflow m' h' Hcopy) as [Hsnap Hkept].
  assert (Hprep : prepare py_str random_seed depth (submitted_workflow a)
                    (Some (-1)) param_overrides h = (h', Ok workflow)).
  { unfold prepare. rewrite Hcopy. destruct Hover as [->| ->]; reflexivity. }
  exists h', workflow. split; [exact Hprep|]. split; [exact Hsnap|].
  split; [exact Hkept|].
  unfold regenerate. rewrite Ha, Htruthy. cbn [negb]. rewrite Hprep.
  destruct (submit_and_register h' workflow (guess_output_preferences a) a
              return_inline_preview); reflexivity.
Qed.

Lemma stored_heap_well_keyed : well_keyed stored_heap.
Proof.
  intros l items Hl.
  destruct l as [|[|[|l]]]; simpl in Hl; inversion Hl; subst; simpl;
    repeat (apply NoDup_cons; split;
            [intros Hin; apply list_elem_of_In in Hin; simpl in Hin;
             repeat (destruct Hin as [Hin|Hin]; [discriminate Hin|]);
             destruct Hin|]);
    apply NoDup_nil; exact I.
Qed.

Lemma regenerate_same_seed_resubmits_same_graph_witness :
  exists h' workflow,
    snapshot 3 h' workflow = snapshot 3 stored_heap (HRef 0%nat) /\
    regenerate (fun _ _ => "") 7 one_asset still_running 100 "a1" (Some (-1))
      false None stored_heap
    = (h', ComfyClient.pending_handle "p-2").
Proof.
  destruct (regenerate_same_seed_resubmits_same_graph (fun _ _ => "") 7 one_asset
              still_running 100 "a1" false None stored_heap stored_asset
              stored_heap_closed stored_heap_well_keyed eq_refl eq_refl)
    as (h' & workflow & _ & Hsnap & _ & Hrun).
  - intros l [= <-]. simpl. lia.
  - simpl. lia.
  - left. reflexivity.
  - exists h', workflow. split; [apply Hsnap | exact Hrun].
Defined.

End CopyFacts.
